(** * The realtime channel hook [useWebSocket] (src/hooks/use-websocket.ts)

    A shallow embedding of the hook: the React state cells, the two refs,
    the variables captured by each run of the effect, the browser's
    WebSockets and timers, and one handler per callback of the source.
    The last parts cover the chat view that consumes the hook's messages
    (src/components/chat/create-channel-dialog.tsx) and the reading of the
    token cookie. *)

From Stdlib Require Import ZArith Lia Ascii.
From stdpp Require Import base option list strings.


(** ** Values produced by [JSON.parse] *)

(** Numbers are kept for their integral values only: the hook never
    computes with a parsed number, it can only meet one as a [Set] key. *)
#[warnings="-register-all"] Inductive json : Type :=
| JNull
| JBool (b : bool)
| JNum (n : Z)
| JStr (s : string)
| JArr (xs : list json)
| JObj (ps : list (string * json)).

(** A JavaScript value read from a property: [None] is [undefined]. *)
Definition jsval : Type := option json.

Fixpoint assoc (k : string) (ps : list (string * json)) : jsval :=
  match ps with
  | [] => None
  | (k', v) :: ps' => if String.eqb k k' then Some v else assoc k ps'
  end.

Fixpoint assoc_set (k : string) (v : json) (ps : list (string * json))
  : list (string * json) :=
  match ps with
  | [] => [(k, v)]
  | (k', v') :: ps' =>
      if String.eqb k k' then (k, v) :: ps' else (k', v') :: assoc_set k v ps'
  end.

(** [data.k] on a parsed value other than [null] ([null.k] throws and is
    dealt with where it happens). *)
Definition prop (data : json) (k : string) : jsval :=
  match data with
  | JObj ps => assoc k ps
  | _ => None
  end.

(** [data.k = v] *)
Definition set_prop (data : json) (k : string) (v : json) : json :=
  match data with
  | JObj ps => JObj (assoc_set k v ps)
  | _ => data
  end.

(** [v === s] for a string literal [s] *)
Definition is_str (v : jsval) (s : string) : bool :=
  match v with
  | Some (JStr x) => String.eqb x s
  | _ => false
  end.

(** Truthiness, as [if (data.media_url)] tests it. *)
Definition truthy (v : jsval) : bool :=
  match v with
  | None => false
  | Some JNull => false
  | Some (JBool b) => b
  | Some (JNum n) => negb (n =? 0)%Z
  | Some (JStr s) => negb (String.eqb s "")
  | Some (JArr _) => true
  | Some (JObj _) => true
  end.

(** ** The dedup ledger: a JavaScript [Set] *)

(** [Set] compares keys with SameValueZero: primitives by value, objects
    and arrays by reference.  Every key the hook offers comes out of a fresh
    [JSON.parse], so an object or array key is never the same reference as a
    key already stored. *)
Definition same_value_zero (a b : jsval) : bool :=
  match a, b with
  | None, None => true
  | Some JNull, Some JNull => true
  | Some (JBool x), Some (JBool y) => Bool.eqb x y
  | Some (JNum x), Some (JNum y) => (x =? y)%Z
  | Some (JStr x), Some (JStr y) => String.eqb x y
  | _, _ => false
  end.

Definition set_has (k : jsval) (s : list jsval) : bool :=
  existsb (same_value_zero k) s.

Definition set_add (k : jsval) (s : list jsval) : list jsval :=
  if set_has k s then s else s ++ [k].

(** ** Browser objects *)

Inductive ReadyState : Type := CONNECTING | OPEN | CLOSING | CLOSED.

Global Instance ReadyState_eq_dec : EqDecision ReadyState.
Proof. solve_decision. Defined.

(** A WebSocket created by [connectWebSocket].  [s_owner] is the effect run
    whose handlers are installed on it; [sent] lists the frames written so
    far, each one the value handed to [JSON.stringify]. *)
Record Socket : Type := mkSocket {
  s_owner : nat;
  s_url : string;
  readyState : ReadyState;
  sent : list json
}.

Inductive TimerState : Type := Pending | Fired | Cleared.

Global Instance TimerState_eq_dec : EqDecision TimerState.
Proof. solve_decision. Defined.

(** A timer made by [setTimeout]; the handle is its index. *)
Record Timer : Type := mkTimer {
  t_owner : nat;
  t_delay : Z;
  t_state : TimerState
}.

(** The variables one run of the effect captures (lines 53-72). *)
Record Closure : Type := mkClosure {
  channelId : string;
  token : string;
  reconnectAttempts : nat;
  reconnectTimeout : option nat
}.

Definition maxReconnectAttempts : nat := 5.

(** ** The hook's state *)

Record Hook : Type := mkHook {
  messages : list json;
  isConnected : bool;
  error : option string;
  socketRef : option nat;
  processedMessageIds : list jsval;
  sockets : list Socket;
  timers : list Timer;
  closures : list Closure;
  cleanup : option nat
}.

(** First render: [useState([])], [useState(false)], [useState(null)],
    [useRef(null)], [useRef(new Set())]. *)
Definition initial : Hook :=
  mkHook [] false None None [] [] [] [] None.

Definition set_messages (v : list json) (st : Hook) : Hook :=
  mkHook v (isConnected st) (error st) (socketRef st) (processedMessageIds st)
         (sockets st) (timers st) (closures st) (cleanup st).

Definition set_isConnected (v : bool) (st : Hook) : Hook :=
  mkHook (messages st) v (error st) (socketRef st) (processedMessageIds st)
         (sockets st) (timers st) (closures st) (cleanup st).

Definition set_error (v : option string) (st : Hook) : Hook :=
  mkHook (messages st) (isConnected st) v (socketRef st) (processedMessageIds st)
         (sockets st) (timers st) (closures st) (cleanup st).

Definition set_socketRef (v : option nat) (st : Hook) : Hook :=
  mkHook (messages st) (isConnected st) (error st) v (processedMessageIds st)
         (sockets st) (timers st) (closures st) (cleanup st).

Definition set_processedMessageIds (v : list jsval) (st : Hook) : Hook :=
  mkHook (messages st) (isConnected st) (error st) (socketRef st) v
         (sockets st) (timers st) (closures st) (cleanup st).

Definition set_sockets (v : list Socket) (st : Hook) : Hook :=
  mkHook (messages st) (isConnected st) (error st) (socketRef st)
         (processedMessageIds st) v (timers st) (closures st) (cleanup st).

Definition set_timers (v : list Timer) (st : Hook) : Hook :=
  mkHook (messages st) (isConnected st) (error st) (socketRef st)
         (processedMessageIds st) (sockets st) v (closures st) (cleanup st).

Definition set_closures (v : list Closure) (st : Hook) : Hook :=
  mkHook (messages st) (isConnected st) (error st) (socketRef st)
         (processedMessageIds st) (sockets st) (timers st) v (cleanup st).

Definition set_cleanup (v : option nat) (st : Hook) : Hook :=
  mkHook (messages st) (isConnected st) (error st) (socketRef st)
         (processedMessageIds st) (sockets st) (timers st) (closures st) v.

(** ** Transport primitives *)

(** [socket.close()]: a socket that is connecting or open starts closing;
    one that is closing or closed is left alone. *)
Definition ws_close (s : Socket) : Socket :=
  match readyState s with
  | CONNECTING | OPEN => mkSocket (s_owner s) (s_url s) CLOSING (sent s)
  | CLOSING | CLOSED => s
  end.

Definition ws_send (frame : json) (s : Socket) : Socket :=
  mkSocket (s_owner s) (s_url s) (readyState s) (sent s ++ [frame]).

Definition ws_set_state (r : ReadyState) (s : Socket) : Socket :=
  mkSocket (s_owner s) (s_url s) r (sent s).

(** [if (socketRef.current) socketRef.current.close(...)] *)
Definition close_current (st : Hook) : Hook :=
  match socketRef st with
  | Some i => set_sockets (alter ws_close i (sockets st)) st
  | None => st
  end.

(** [clearTimeout(h)]: only a pending timer is affected. *)
Definition timer_clear (t : Timer) : Timer :=
  match t_state t with
  | Pending => mkTimer (t_owner t) (t_delay t) Cleared
  | _ => t
  end.

Definition clearTimeout (h : option nat) (st : Hook) : Hook :=
  match h with
  | Some t => set_timers (alter timer_clear t (timers st)) st
  | None => st
  end.

(** ** The backoff delay (line 153) *)

Definition backoff_delay (attempt : nat) : Z :=
  Z.min (1000 * 2 ^ Z.of_nat attempt) 30000.

(** ** Bind-time environment *)

(** What [getToken] reads: [localStorage.getItem("token")], and the decoded
    value of the [token=] cookie ([None] when no such row exists).  [ws_ok]
    tells whether [new WebSocket(wsUrl)] returns rather than throws. *)
Record Env : Type := mkEnv {
  storage_token : option string;
  cookie_token : option string;
  ws_ok : bool
}.

Definition nonempty (o : option string) : option string :=
  match o with
  | Some s => if String.eqb s "" then None else Some s
  | None => None
  end.

Definition getToken (env : Env) : option string :=
  match nonempty (storage_token env) with
  | Some tok => Some tok
  | None => nonempty (cookie_token env)
  end.

Definition wsUrl (channel : string) : string :=
  "wss://api.loryx.lol/chat/channels/" +:+ channel +:+ "/ws".

(** ** [connectWebSocket] (lines 74-173), run by effect run [c] *)

Definition connectWebSocket (c : nat) (ok : bool) (st : Hook) : option Hook :=
  cl ← closures st !! c;
  if ok then
    let socket := mkSocket c (wsUrl (channelId cl)) CONNECTING [] in
    Some (set_socketRef (Some (length (sockets st)))
            (set_sockets (sockets st ++ [socket]) st))
  else
    Some (set_isConnected false
            (set_error (Some "Failed to create WebSocket connection") st)).

(** ** The effect body (lines 13-176) *)

Definition effect (channel : option string) (env : Env) (st : Hook)
  : option Hook :=
  let st := set_processedMessageIds [] (set_messages [] st) in
  match nonempty channel with
  | None => Some (set_cleanup None (set_isConnected false st))
  | Some ch =>
      if String.eqb ch "undefined" then
        Some (set_cleanup None
                (set_isConnected false (set_error (Some "Invalid channel ID") st)))
      else
        match getToken env with
        | None => Some (set_cleanup None (set_error (Some "Not authenticated") st))
        | Some tok =>
            let st := close_current st in
            let c := length (closures st) in
            let st := set_closures (closures st ++ [mkClosure ch tok 0 None]) st in
            st ← connectWebSocket c (ws_ok env) st;
            Some (set_cleanup (Some c) st)
        end
  end.

(** The cleanup function the effect returns (lines 179-185). *)
Definition run_cleanup (st : Hook) : option Hook :=
  match cleanup st with
  | None => Some st
  | Some c =>
      cl ← closures st !! c;
      Some (set_cleanup None (close_current (clearTimeout (reconnectTimeout cl) st)))
  end.

(** ** Socket handlers *)

Definition set_attempts (n : nat) (cl : Closure) : Closure :=
  mkClosure (channelId cl) (token cl) n (reconnectTimeout cl).

Definition set_timeout (h : option nat) (cl : Closure) : Closure :=
  mkClosure (channelId cl) (token cl) (reconnectAttempts cl) h.

(** [socket.onopen] (lines 81-90) for socket [i]. *)
Definition onopen (i : nat) (st : Hook) : option Hook :=
  s ← sockets st !! i;
  cl ← closures st !! s_owner s;
  let st := set_sockets
              (alter (ws_send (JObj [("token", JStr (token cl))])) i (sockets st)) st in
  let st := set_error None (set_isConnected true st) in
  Some (set_closures (alter (set_attempts 0) (s_owner s) (closures st)) st).

(** What [JSON.parse(event.data)] gives. *)
Inductive Parse : Type := SyntaxError | Parsed (data : json).

Definition is_chat (data : json) : bool :=
  is_str (prop data "type") "message" || is_str (prop data "type") "media".

(** Lines 105-115: an envelope with a media reference becomes kind media. *)
Definition normalize (data : json) : json :=
  if is_str (prop data "type") "media" || truthy (prop data "media_url") then
    if truthy (prop data "media_url") then set_prop data "type" (JStr "media")
    else data
  else data.

(** [socket.onmessage] (lines 92-127).  A frame that does not parse, and
    [null] (whose [.type] throws), end in the [catch]. *)
Definition onmessage (raw : Parse) (st : Hook) : Hook :=
  match raw with
  | SyntaxError => st
  | Parsed JNull => st
  | Parsed data =>
      if is_chat data then
        if negb (set_has (prop data "id") (processedMessageIds st)) then
          let st := set_processedMessageIds
                      (set_add (prop data "id") (processedMessageIds st)) st in
          set_messages (messages st ++ [normalize data]) st
        else st
      else st
  end.

(** [socket.onerror] (lines 129-139); [info] is [JSON.stringify(event)]. *)
Definition onerror (info : string) (st : Hook) : Hook :=
  set_isConnected false (set_error (Some ("WebSocket error: " +:+ info)) st).

Definition unauthorized (code : Z) : bool :=
  ((code =? 4001) || (code =? 1008))%Z.

(** [socket.onclose] (lines 141-165) for a socket of effect run [c]. *)
Definition onclose (c : nat) (code : Z) (st : Hook) : option Hook :=
  cl ← closures st !! c;
  let st := set_isConnected false st in
  if unauthorized code then
    Some (set_error (Some "Not authorized to access this channel") st)
  else if (reconnectAttempts cl <? maxReconnectAttempts)%nat && negb (code =? 1000)%Z then
    let delay := backoff_delay (reconnectAttempts cl) in
    let h := length (timers st) in
    let st := set_timers (timers st ++ [mkTimer c delay Pending]) st in
    Some (set_closures (alter (set_timeout (Some h)) c (closures st)) st)
  else if (maxReconnectAttempts <=? reconnectAttempts cl)%nat then
    Some (set_error (Some "Could not reconnect to chat. Please refresh the page.") st)
  else Some st.

(** The timer callback (lines 158-161) of effect run [c]. *)
Definition ontimer (c : nat) (ok : bool) (st : Hook) : option Hook :=
  cl ← closures st !! c;
  let st := set_closures
              (alter (set_attempts (S (reconnectAttempts cl))) c (closures st)) st in
  connectWebSocket c ok st.

(** ** [sendMessage] (lines 188-206) *)

(** The argument: a string, or an object given by what [JSON.stringify]
    makes of it ([None] when it throws, as on a cyclic object). *)
Inductive Content : Type :=
| ContentString (s : string)
| ContentObject (o : option json).

Definition stringify (content : Content) : option json :=
  match content with
  | ContentString s => Some (JObj [("content", JStr s)])
  | ContentObject o => o
  end.

Definition is_open (st : Hook) : bool :=
  match socketRef st with
  | Some i =>
      match sockets st !! i with
      | Some s => bool_decide (readyState s = OPEN)
      | None => false
      end
  | None => false
  end.

Definition sendMessage (content : Content) (st : Hook) : bool * Hook :=
  if negb (is_open st) then
    (false, set_error (Some "WebSocket not connected") st)
  else
    match stringify content, socketRef st with
    | Some frame, Some i =>
        (true, set_sockets (alter (ws_send frame) i (sockets st)) st)
    | _, _ => (false, set_error (Some "Failed to send message") st)
    end.

(** ** Events and runs *)

Inductive Event : Type :=
| EvBind (channel : option string) (env : Env)
| EvUnmount
| EvOpen (i : nat)
| EvMessage (i : nat) (raw : Parse)
| EvError (i : nat) (info : string)
| EvClose (i : nat) (code : Z)
| EvTimer (t : nat) (ok : bool)
| EvSend (content : Content).

(** The browser delivers [open] to a connecting socket, [message] to an open
    one, [error] and [close] to one not yet closed, and fires pending timers
    only.  [EvBind] is React running the previous cleanup and then the
    effect, on a change of [channelId]. *)
Definition step (e : Event) (st : Hook) : option Hook :=
  match e with
  | EvBind channel env => st ← run_cleanup st; effect channel env st
  | EvUnmount => run_cleanup st
  | EvOpen i =>
      s ← sockets st !! i;
      if bool_decide (readyState s = CONNECTING) then
        onopen i (set_sockets (alter (ws_set_state OPEN) i (sockets st)) st)
      else None
  | EvMessage i raw =>
      s ← sockets st !! i;
      if bool_decide (readyState s = OPEN) then Some (onmessage raw st) else None
  | EvError i info =>
      s ← sockets st !! i;
      if bool_decide (readyState s = CLOSED) then None else Some (onerror info st)
  | EvClose i code =>
      s ← sockets st !! i;
      if bool_decide (readyState s = CLOSED) then None
      else onclose (s_owner s) code
             (set_sockets (alter (ws_set_state CLOSED) i (sockets st)) st)
  | EvTimer t ok =>
      tm ← timers st !! t;
      if bool_decide (t_state tm = Pending) then
        ontimer (t_owner tm) ok
          (set_timers (alter (fun tm => mkTimer (t_owner tm) (t_delay tm) Fired) t
                         (timers st)) st)
      else None
  | EvSend content => Some (snd (sendMessage content st))
  end.

Fixpoint run (tr : list Event) (st : Hook) : option Hook :=
  match tr with
  | [] => Some st
  | e :: tr' => st' ← step e st; run tr' st'
  end.

(** ** Observations used by the statements *)

(** Entries of the visible list whose identifier is the key [k], compared
    the way the ledger compares keys. *)
Definition count_id (k : jsval) (ms : list json) : nat :=
  length (List.filter (fun e => same_value_zero (prop e "id") k) ms).

(** A timer of effect run [c] is waiting to reconnect. *)
Definition pending_of (c : nat) (tm : Timer) : bool :=
  bool_decide (t_owner tm = c) && bool_decide (t_state tm = Pending).

Definition reconnect_pending (c : nat) (st : Hook) : bool :=
  existsb (pending_of c) (timers st).

(** A socket of effect run [c] is being established. *)
Definition connecting_of (c : nat) (s : Socket) : bool :=
  bool_decide (s_owner s = c) && bool_decide (readyState s = CONNECTING).

Definition connecting (c : nat) (st : Hook) : bool :=
  existsb (connecting_of c) (sockets st).

(** A socket of effect run [c] is not closed yet. *)
Definition live_of (c : nat) (s : Socket) : bool :=
  bool_decide (s_owner s = c) && negb (bool_decide (readyState s = CLOSED)).

Definition live (c : nat) (st : Hook) : bool :=
  existsb (live_of c) (sockets st).

Definition terminal_error (st : Hook) : bool :=
  bool_decide (error st = Some "Could not reconnect to chat. Please refresh the page.")
  || bool_decide (error st = Some "Not authorized to access this channel").

(** Terminal failure of effect run [c]: a terminal reason is shown, nothing
    of [c] is left that could produce another connection. *)
Definition failed (c : nat) (st : Hook) : bool :=
  terminal_error st && negb (reconnect_pending c st) && negb (live c st).

(** [onclose] called [setTimeout]: one more timer, pending. *)
Definition schedules_reconnect (st st' : Hook) : Prop :=
  ∃ tm, timers st' = timers st ++ [tm] ∧ t_state tm = Pending.

(** [n] closures in a row of the sockets of one effect run, the first being
    socket [i]; between two closures the reconnect timer fires and makes
    the next socket. Timer handles start at [t]. *)
Fixpoint closures_trace (i t : nat) (codes : list Z) : list Event :=
  match codes with
  | [] => []
  | code :: rest =>
      match rest with
      | [] => [EvClose i code]
      | _ :: _ => EvClose i code :: EvTimer t true :: closures_trace (S i) (S t) rest
      end
  end.

Definition abnormal (code : Z) : Prop :=
  code ≠ 1000%Z ∧ code ≠ 4001%Z ∧ code ≠ 1008%Z.

Definition is_bind (e : Event) : bool :=
  match e with EvBind _ _ => true | _ => false end.

(** No [EvBind] in a trace: one channel subscription. *)
Definition same_subscription (tr : list Event) : Prop :=
  forallb (fun e => negb (is_bind e)) tr = true.

(** ** Invariants *)

(** Every socket and timer belongs to an effect run that exists, the
    registered cleanup too, and nothing was written to a socket that is
    still connecting. *)
Definition socket_ok (n : nat) (s : Socket) : Prop :=
  s_owner s < n ∧ (readyState s = CONNECTING → sent s = []).

Definition timer_ok (n : nat) (tm : Timer) : Prop := t_owner tm < n.

Record WF (st : Hook) : Prop := mkWF {
  wf_sockets : Forall (socket_ok (length (closures st))) (sockets st);
  wf_timers : Forall (timer_ok (length (closures st))) (timers st);
  wf_cleanup : ∀ c, cleanup st = Some c → c < length (closures st)
}.

(** Every identifier shown is in the ledger, and none is shown twice. *)
Record Dedup (st : Hook) : Prop := mkDedup {
  dd_covers : ∀ e, In e (messages st) →
      same_value_zero (prop e "id") (prop e "id") = true →
      set_has (prop e "id") (processedMessageIds st) = true;
  dd_once : ∀ k, count_id k (messages st) ≤ 1
}.

(** What the application sees of the inbound side. *)
Definition view (st : Hook) : list json * list jsval :=
  (messages st, processedMessageIds st).

(** Effect run [c] has made [a] reconnect attempts and its newest socket is
    being established; nothing else of [c] is alive. *)
Record Retrying (c a : nat) (st : Hook) : Prop := mkRetrying {
  rt_closure : ∃ cl, closures st !! c = Some cl ∧ reconnectAttempts cl = a;
  rt_socket : ∃ ss s, sockets st = ss ++ [s] ∧ s_owner s = c
      ∧ readyState s = CONNECTING ∧ existsb (live_of c) ss = false;
  rt_timers : reconnect_pending c st = false
}.

(** Effect run [c] has no socket left and waits for its newest timer, set
    with the delay of attempt [a]. *)
Record Waiting (c a : nat) (st : Hook) : Prop := mkWaiting {
  wt_closure : ∃ cl, closures st !! c = Some cl ∧ reconnectAttempts cl = a;
  wt_sockets : live c st = false;
  wt_timer : ∃ ts, timers st = ts ++ [mkTimer c (backoff_delay a) Pending]
      ∧ existsb (pending_of c) ts = false
}.

(** ** Example states and envelopes *)

Definition env_tok : Env := mkEnv (Some "tok") None true.

Definition envelope_m1 : json :=
  JObj [("id", JStr "m1"); ("type", JStr "message"); ("content", JStr "hi")].

Definition envelope_noid : json :=
  JObj [("type", JStr "message"); ("content", JStr "hi")].

Definition opened : Hook :=
  mkHook [] true None (Some 0) []
    [mkSocket 0 (wsUrl "general") OPEN [JObj [("token", JStr "tok")]]] []
    [mkClosure "general" "tok" 0 None] (Some 0).

(** ** Further invariants of the hook *)

(** The ledger is the list of the identifiers shown, in order of arrival. *)
Definition Mirror (st : Hook) : Prop :=
  processedMessageIds st = map (fun e => prop e "id") (messages st).

(** An entry of the visible list: its kind is message or media, and media
    when it carries a media reference. *)
Definition shown_ok (e : json) : Prop :=
  is_chat e = true
  ∧ (truthy (prop e "media_url") = true → is_str (prop e "type") "media" = true).

(** How sockets, timers and effect runs hang together. *)
Record Lifecycle (st : Hook) : Prop := mkLifecycle {
  lc_handle : ∀ t tm, timers st !! t = Some tm → t_state tm = Pending →
      ∃ cl, closures st !! t_owner tm = Some cl ∧ reconnectTimeout cl = Some t
            ∧ reconnectAttempts cl < maxReconnectAttempts
            ∧ t_delay tm = backoff_delay (reconnectAttempts cl);
  lc_socket : ∀ i j s s', sockets st !! i = Some s → sockets st !! j = Some s' →
      s_owner s = s_owner s' → readyState s ≠ CLOSED → readyState s' ≠ CLOSED →
      i = j;
  lc_excl : ∀ i s t tm, sockets st !! i = Some s → timers st !! t = Some tm →
      readyState s ≠ CLOSED → t_state tm = Pending → s_owner s ≠ t_owner tm;
  lc_attempts : ∀ c cl, closures st !! c = Some cl →
      reconnectAttempts cl ≤ maxReconnectAttempts;
  lc_delay : ∀ t tm, timers st !! t = Some tm →
      ∃ a, a < maxReconnectAttempts ∧ t_delay tm = backoff_delay a;
  lc_url : ∀ i s, sockets st !! i = Some s →
      ∃ cl, closures st !! s_owner s = Some cl ∧ s_url s = wsUrl (channelId cl);
  lc_closure : ∀ c cl, closures st !! c = Some cl →
      channelId cl ≠ "" ∧ channelId cl ≠ "undefined" ∧ token cl ≠ ""
}.

Definition no_live (c : nat) (st : Hook) : Prop :=
  ∀ i s, sockets st !! i = Some s → readyState s ≠ CLOSED → s_owner s ≠ c.

Definition no_pending (c : nat) (st : Hook) : Prop :=
  ∀ t tm, timers st !! t = Some tm → t_state tm = Pending → t_owner tm ≠ c.

(** Sockets of effect run [c] that are not closed, and its pending timers. *)
Definition live_count (c : nat) (st : Hook) : nat :=
  length (List.filter (live_of c) (sockets st)).

Definition pending_count (c : nat) (st : Hook) : nat :=
  length (List.filter (pending_of c) (timers st)).

(** A socket that has opened and whose closure has not been reported. *)
Definition authenticated (s : Socket) : Prop :=
  readyState s ≠ CLOSED ∧ readyState s ≠ CONNECTING ∧ sent s ≠ [].

Definition Flag (st : Hook) : Prop :=
  isConnected st = true → ∃ i s, sockets st !! i = Some s ∧ authenticated s.

(** Sockets ever made for effect run [c]. *)
Definition owned (c : nat) (st : Hook) : nat :=
  length (List.filter (fun s => bool_decide (s_owner s = c)) (sockets st)).

(** Effect run [c] exists and has nothing left: no socket that is not
    closed, no pending timer. *)
Definition Gone (c : nat) (st : Hook) : Prop :=
  c < length (closures st) ∧ no_live c st ∧ no_pending c st.

(** React runs the cleanup of the current effect run: on a change of
    [channelId] and on unmount. *)
Definition is_unbind (e : Event) : bool :=
  match e with
  | EvBind _ _ | EvUnmount => true
  | _ => false
  end.

(** A socket after [close()] may have been called on it: the same socket,
    closed only if it was. *)
Definition same_socket (s s1 : Socket) : Prop :=
  s_owner s1 = s_owner s ∧ s_url s1 = s_url s ∧ sent s1 = sent s
  ∧ (readyState s1 ≠ CLOSED ↔ readyState s ≠ CLOSED)
  ∧ (readyState s1 = readyState s ∨ readyState s1 = CLOSING).

(** What has been written to a socket: nothing before it opens, and the
    authentication frame of its effect run first. *)
Definition Frames (st : Hook) : Prop :=
  ∀ i s, sockets st !! i = Some s →
    (readyState s = CONNECTING → sent s = [])
    ∧ (readyState s = OPEN → sent s ≠ [])
    ∧ (sent s ≠ [] →
       ∃ cl, closures st !! s_owner s = Some cl
             ∧ head (sent s) = Some (JObj [("token", JStr (token cl))])).

(** ** The token cookie (lines 41-44 of the hook) *)

(** [s.split(sep)] for a separator that is not empty: [cur] is the piece
    being read, [skip] the characters of a separator just met that are still
    to be passed over. *)
Fixpoint split_go (sep : string) (skip : nat) (cur s : string) : list string :=
  match s with
  | EmptyString => [cur]
  | String a s' =>
      match skip with
      | S n => split_go sep n cur s'
      | O =>
          if String.prefix sep s
          then cur :: split_go sep (String.length sep - 1) "" s'
          else split_go sep 0 (cur +:+ String a "") s'
      end
  end.

Definition split (sep s : string) : list string := split_go sep 0 "" s.

(** [document.cookie.split("; ").find(row => row.startsWith("token="))
    ?.split("=")[1]]: the value [getToken] then decodes. *)
Definition tokenFromCookie (cookie : string) : option string :=
  match List.find (String.prefix "token=") (split "; " cookie) with
  | Some row => nth_error (split "=" row) 1
  | None => None
  end.

Fixpoint has_char (c : Ascii.ascii) (s : string) : bool :=
  match s with
  | EmptyString => false
  | String a s' => Ascii.eqb a c || has_char c s'
  end.

(** Cookie rows as [document.cookie] lists them, each followed by "; ". *)
Fixpoint cookie_rows (rows : list string) : string :=
  match rows with
  | [] => ""
  | row :: rows' => row +:+ "; " +:+ cookie_rows rows'
  end.

(** ** The chat view that uses the hook (create-channel-dialog.tsx) *)

(** What the merge effect needs of the current user: the value of
    [currentUser?.username], and whether
    [new RegExp("@" + username + "\\b", "i")] gives a pattern for that name
    or throws, as it does for a name that is not a well-formed pattern. *)
Record Viewer : Type := mkViewer {
  username : option string;
  mention_pattern_ok : bool
}.

(** What the merge effect does with the message state: the updater returns
    the next list, or it throws and the state is not updated; or some live
    message has an object or an array as identifier, which the Map finds by
    reference: values here carry no reference, and the model gives no
    answer. *)
Inductive Outcome : Type :=
| Returns (next : list json)
| Throws
| ByReference.

Definition is_null (v : json) : bool :=
  match v with
  | JNull => true
  | _ => false
  end.

(** A Map key compared by value. *)
Definition by_value (k : jsval) : bool :=
  match k with
  | Some (JArr _) | Some (JObj _) => false
  | _ => true
  end.

(** [isUserMentioned] (lines 371-376), as far as the merge depends on it:
    whether the call returns.  Its result only decides on a toast. *)
Definition isUserMentioned_returns (v : Viewer) (message : json) : bool :=
  match nonempty (username v) with
  | None => true
  | Some _ =>
      if truthy (prop message "content") then mention_pattern_ok v else true
  end.

(** ChatMessages' merge effect (lines 469-496) on the message state [prev].
    With no live message [setMessages] is not called.  Otherwise the
    updater reads [msg.id] of every entry of both lists, which throws on
    [null]; it keeps the live messages whose identifier is not among those
    of [prev], calls [isUserMentioned] on each of them, and appends them. *)
Definition merge_ws (v : Viewer) (wsMessages prev : list json) : Outcome :=
  match wsMessages with
  | [] => Returns prev
  | _ :: _ =>
      if existsb is_null prev || existsb is_null wsMessages then Throws
      else if negb (forallb (fun msg => by_value (prop msg "id")) wsMessages)
      then ByReference
      else
        let existingIds := map (fun msg => prop msg "id") prev in
        let uniqueNewMessages :=
          List.filter (fun msg => negb (set_has (prop msg "id") existingIds))
            wsMessages in
        match uniqueNewMessages with
        | [] => Returns prev
        | _ :: _ =>
            if forallb (isUserMentioned_returns v) uniqueNewMessages
            then Returns (prev ++ uniqueNewMessages)
            else Throws
        end
  end.

Definition viewer_ok : Viewer := mkViewer (Some "ann") true.

(** The chat view's [getFullMediaUrl] (lines 410-420). *)
Definition getFullMediaUrl (url : string) : string :=
  if String.eqb url "" then ""
  else if String.prefix "http" url then url
  else "https://api.loryx.lol" +:+ (if String.prefix "/" url then "" else "/") +:+ url.

(** * Properties *)

(** ** Backoff *)

Lemma backoff_delay_scaled (a : nat) :
  backoff_delay a = (1000 * Z.min (1 * 2 ^ Z.of_nat a) 30)%Z.
Proof. unfold backoff_delay. lia. Qed.

Lemma backoff_delay_mono (a b : nat) :
  a ≤ b → (backoff_delay a ≤ backoff_delay b)%Z.
Proof.
  intros Hab. unfold backoff_delay.
  assert (2 ^ Z.of_nat a ≤ 2 ^ Z.of_nat b)%Z
    by (apply Z.pow_le_mono_r; lia).
  lia.
Qed.

(** ** Closure events *)

Lemma schedules_reconnect_grows (st st' : Hook) :
  schedules_reconnect st st' → timers st' ≠ timers st.
Proof.
  intros (tm & Htm & _) Heq. rewrite Heq in Htm.
  apply (f_equal length) in Htm. rewrite length_app in Htm. simpl in Htm. lia.
Qed.

Lemma unauthorized_spec (code : Z) :
  unauthorized code = true ↔ code = 4001%Z ∨ code = 1008%Z.
Proof. unfold unauthorized. rewrite orb_true_iff, !Z.eqb_eq. tauto. Qed.

Lemma abnormal_not_unauthorized (code : Z) : abnormal code → unauthorized code = false.
Proof.
  intros (_ & H1 & H2). unfold unauthorized.
  apply Z.eqb_neq in H1, H2. by rewrite H1, H2.
Qed.

(** The four outcomes of [onclose]. *)
Lemma onclose_unauthorized (c : nat) (code : Z) (st : Hook) (cl : Closure) :
  closures st !! c = Some cl → unauthorized code = true →
  onclose c code st
  = Some (set_error (Some "Not authorized to access this channel")
            (set_isConnected false st)).
Proof. intros Hcl Hu. unfold onclose. rewrite Hcl. cbn [mbind option_bind]. by rewrite Hu. Qed.

Lemma onclose_retry (c : nat) (code : Z) (st : Hook) (cl : Closure) :
  closures st !! c = Some cl → unauthorized code = false →
  reconnectAttempts cl < maxReconnectAttempts → code ≠ 1000%Z →
  onclose c code st
  = Some (set_closures (alter (set_timeout (Some (length (timers st)))) c (closures st))
            (set_timers (timers st ++ [mkTimer c (backoff_delay (reconnectAttempts cl)) Pending])
               (set_isConnected false st))).
Proof.
  intros Hcl Hu Hlt Hc. unfold onclose. rewrite Hcl. cbn [mbind option_bind].
  rewrite Hu. apply Nat.ltb_lt in Hlt. apply Z.eqb_neq in Hc.
  by rewrite Hlt, Hc.
Qed.

Lemma onclose_exhausted (c : nat) (code : Z) (st : Hook) (cl : Closure) :
  closures st !! c = Some cl → unauthorized code = false →
  maxReconnectAttempts ≤ reconnectAttempts cl →
  onclose c code st
  = Some (set_error (Some "Could not reconnect to chat. Please refresh the page.")
            (set_isConnected false st)).
Proof.
  intros Hcl Hu Hge. unfold onclose. rewrite Hcl. cbn [mbind option_bind].
  rewrite Hu. pose proof Hge as Hge'. apply Nat.leb_le in Hge'.
  apply Nat.ltb_ge in Hge. by rewrite Hge, Hge'.
Qed.

Lemma onclose_clean (c : nat) (st : Hook) (cl : Closure) :
  closures st !! c = Some cl →
  reconnectAttempts cl < maxReconnectAttempts →
  onclose c 1000 st = Some (set_isConnected false st).
Proof.
  intros Hcl Hlt. unfold onclose. rewrite Hcl. cbn [mbind option_bind].
  change (unauthorized 1000) with false. cbv iota.
  pose proof Hlt as Hlt'. apply Nat.ltb_lt in Hlt'.
  apply Nat.leb_gt in Hlt. by rewrite Hlt, Hlt'.
Qed.

(** C4: the delay of an attempt is min(base * 2^attempt, ceiling) with base 1
    and ceiling 30 in units of 1000 ms, for attempts 0..5 the sequence is
    1, 2, 4, 8, 16, 30 of these units, the delay never decreases with the
    attempt number and never exceeds the ceiling; it is the delay of the
    timer an abnormal closure sets while the counter is below its ceiling. *)
Theorem backoff_delay_sequence (a b : nat) (Hab : a ≤ b) :
  backoff_delay b = (1000 * Z.min (1 * 2 ^ Z.of_nat b) 30)%Z
  ∧ map backoff_delay (seq 0 6)
    = [1000; 2000; 4000; 8000; 16000; 30000]%Z
  ∧ (backoff_delay a ≤ backoff_delay b)%Z
  ∧ (backoff_delay b ≤ 30000)%Z
  ∧ (∀ st c cl code,
       closures st !! c = Some cl → reconnectAttempts cl = b →
       b < maxReconnectAttempts → abnormal code →
       ∃ st', onclose c code st = Some st'
              ∧ last (timers st') = Some (mkTimer c (backoff_delay b) Pending)).
Proof.
  split; [apply backoff_delay_scaled|].
  split; [reflexivity|].
  split; [by apply backoff_delay_mono|].
  split; [unfold backoff_delay; lia|].
  intros st c cl code Hcl <- Hlt Hcode.
  pose proof Hcode as (Hc & _).
  rewrite (onclose_retry c code st cl Hcl (abnormal_not_unauthorized code Hcode) Hlt Hc).
  eexists. split; [reflexivity|]. cbn [timers set_closures set_timers].
  apply last_snoc.
Qed.

Lemma backoff_delay_sequence_witness :
  backoff_delay 5 = (1000 * Z.min (1 * 2 ^ Z.of_nat 5) 30)%Z
  ∧ map backoff_delay (seq 0 6)
    = [1000; 2000; 4000; 8000; 16000; 30000]%Z
  ∧ (backoff_delay 4 ≤ backoff_delay 5)%Z
  ∧ (backoff_delay 5 ≤ 30000)%Z.
Proof.
  destruct (backoff_delay_sequence 4 5 ltac:(lia)) as (H1 & H2 & H3 & H4 & _).
  by split_and!.
Defined.

Lemma step_close_eq (st : Hook) (i : nat) (s : Socket) (code : Z) :
  sockets st !! i = Some s → readyState s ≠ CLOSED →
  step (EvClose i code) st
  = onclose (s_owner s) code
      (set_sockets (alter (ws_set_state CLOSED) i (sockets st)) st).
Proof.
  intros Hs Hlive. unfold step. rewrite Hs. cbn [mbind option_bind].
  by rewrite bool_decide_eq_false_2.
Qed.

(** C3: at a closure event a reconnect is scheduled exactly when the code is
    not 1000, not one of the unauthorized codes 4001 and 1008, and the
    attempt counter is below the ceiling; an unauthorized code sets the
    "not authorized" error and schedules nothing, whatever the counter. *)
Theorem close_schedules_reconnect_iff
    (st : Hook) (i : nat) (s : Socket) (cl : Closure) (code : Z)
    (Hs : sockets st !! i = Some s)
    (Hlive : readyState s ≠ CLOSED)
    (Hcl : closures st !! s_owner s = Some cl) :
  ∃ st', step (EvClose i code) st = Some st'
    ∧ (schedules_reconnect st st'
       ↔ code ≠ 1000%Z ∧ code ≠ 4001%Z ∧ code ≠ 1008%Z
         ∧ reconnectAttempts cl < maxReconnectAttempts)
    ∧ (¬ schedules_reconnect st st' → timers st' = timers st)
    ∧ (code = 4001%Z ∨ code = 1008%Z →
       error st' = Some "Not authorized to access this channel"
       ∧ timers st' = timers st).
Proof.
  rewrite (step_close_eq st i s code Hs Hlive).
  set (st1 := set_sockets _ st).
  assert (Hcl1 : closures st1 !! s_owner s = Some cl) by exact Hcl.
  assert (Ht1 : timers st1 = timers st) by reflexivity.
  destruct (unauthorized code) eqn:Hu.
  - rewrite (onclose_unauthorized _ _ _ _ Hcl1 Hu).
    apply unauthorized_spec in Hu.
    eexists; split; [reflexivity|]. cbn [timers error set_error set_isConnected].
    rewrite Ht1. split; [|done].
    split; [intros H; by apply schedules_reconnect_grows in H|].
    intros (? & ? & ? & ?). lia.
  - assert (Hnu : code ≠ 4001%Z ∧ code ≠ 1008%Z)
      by (split; intros ->; discriminate Hu).
    assert (Hno : ¬ (code = 4001%Z ∨ code = 1008%Z)) by tauto.
    destruct (le_lt_dec maxReconnectAttempts (reconnectAttempts cl)) as [Hge|Hlt].
    + rewrite (onclose_exhausted _ _ _ _ Hcl1 Hu Hge).
      eexists; split; [reflexivity|]. cbn [timers error set_error set_isConnected].
      rewrite Ht1. split; [|done].
      split; [intros H; by apply schedules_reconnect_grows in H|].
      intros (? & ? & ? & ?). lia.
    + destruct (decide (code = 1000%Z)) as [->|Hc].
      * rewrite (onclose_clean _ _ _ Hcl1 Hlt).
        eexists; split; [reflexivity|]. cbn [timers set_isConnected].
        rewrite Ht1. split; [|done].
        split; [intros H; by apply schedules_reconnect_grows in H|tauto].
      * rewrite (onclose_retry _ _ _ _ Hcl1 Hu Hlt Hc).
        eexists; split; [reflexivity|].
        cbn [timers set_closures set_timers set_isConnected]. rewrite Ht1.
        assert (Hsch : schedules_reconnect st
                 (set_closures
                    (alter (set_timeout (Some (length (timers st)))) (s_owner s)
                       (closures (set_timers
                          (timers st ++ [mkTimer (s_owner s)
                             (backoff_delay (reconnectAttempts cl)) Pending])
                          (set_isConnected false st1))))
                    (set_timers
                       (timers st ++ [mkTimer (s_owner s)
                          (backoff_delay (reconnectAttempts cl)) Pending])
                       (set_isConnected false st1)))).
        { eexists. split; reflexivity. }
        split; [tauto|]. split; [done|tauto].
Qed.

Lemma close_schedules_reconnect_iff_witness :
  ∃ st', step (EvClose 0 1006)
           (mkHook [] false None (Some 0) []
              [mkSocket 0 (wsUrl "general") OPEN []] []
              [mkClosure "general" "tok" 0 None] (Some 0)) = Some st'
    ∧ timers st' = [mkTimer 0 1000 Pending].
Proof.
  destruct (close_schedules_reconnect_iff
              (mkHook [] false None (Some 0) []
                 [mkSocket 0 (wsUrl "general") OPEN []] []
                 [mkClosure "general" "tok" 0 None] (Some 0))
              0 (mkSocket 0 (wsUrl "general") OPEN [])
              (mkClosure "general" "tok" 0 None) 1006
              eq_refl ltac:(discriminate) eq_refl)
    as (st' & Hstep & _).
  exists st'. split; [exact Hstep|].
  vm_compute in Hstep. injection Hstep as <-. reflexivity.
Defined.

(** ** Outbound send *)

Lemma is_open_true (st : Hook) (i : nat) (s : Socket) :
  socketRef st = Some i → sockets st !! i = Some s → readyState s = OPEN →
  is_open st = true.
Proof.
  intros Hr Hs Ho. unfold is_open. rewrite Hr, Hs. by apply bool_decide_eq_true_2.
Qed.

Lemma is_open_false (st : Hook) :
  (socketRef st = None
   ∨ ∃ i s, socketRef st = Some i ∧ sockets st !! i = Some s ∧ readyState s ≠ OPEN) →
  is_open st = false.
Proof.
  unfold is_open. intros [->|(i & s & -> & -> & Hn)]; [done|].
  by apply bool_decide_eq_false_2.
Qed.

(** C5: when no socket exists or its ready state is not OPEN, [sendMessage]
    returns false, writes nothing and sets the "not connected" error; when
    the socket is OPEN and the payload serialises, exactly one frame is
    written to it (a string wrapped as an object with the one field content,
    an object as it is) and the result is true. *)
Theorem sendMessage_gateway (st : Hook) (content : Content) :
  ((socketRef st = None
    ∨ ∃ i s, socketRef st = Some i ∧ sockets st !! i = Some s ∧ readyState s ≠ OPEN) →
   fst (sendMessage content st) = false
   ∧ sockets (snd (sendMessage content st)) = sockets st
   ∧ error (snd (sendMessage content st)) = Some "WebSocket not connected")
  ∧ (∀ i s frame,
       socketRef st = Some i → sockets st !! i = Some s → readyState s = OPEN →
       stringify content = Some frame →
       fst (sendMessage content st) = true
       ∧ sockets (snd (sendMessage content st))
         = <[i := mkSocket (s_owner s) (s_url s) OPEN (sent s ++ [frame])]> (sockets st)
       ∧ error (snd (sendMessage content st)) = error st)
  ∧ (∀ text, stringify (ContentString text) = Some (JObj [("content", JStr text)]))
  ∧ (∀ o, stringify (ContentObject (Some o)) = Some o).
Proof.
  split; [|split; [|split; reflexivity]].
  - intros Hclosed. unfold sendMessage. by rewrite (is_open_false st Hclosed).
  - intros i s frame Hr Hs Ho Hf. unfold sendMessage.
    rewrite (is_open_true st i s Hr Hs Ho), Hf, Hr. cbn [negb fst snd sockets set_sockets error].
    split; [done|]. split; [|done].
    rewrite list_insert_alter. unfold ws_send. rewrite <- Ho.
    apply list_eq. intros j.
    destruct (decide (i = j)) as [->|Hne].
    + by rewrite !list_lookup_alter_eq, Hs.
    + by rewrite !list_lookup_alter_ne.
Qed.

Lemma sendMessage_gateway_witness :
  fst (sendMessage (ContentString "hi")
         (mkHook [] true None (Some 0) []
            [mkSocket 0 (wsUrl "general") OPEN [JObj [("token", JStr "tok")]]] []
            [mkClosure "general" "tok" 0 None] (Some 0))) = true
  ∧ fst (sendMessage (ContentString "hi") initial) = false.
Proof.
  split.
  - apply (proj1 (proj2 (sendMessage_gateway
             (mkHook [] true None (Some 0) []
                [mkSocket 0 (wsUrl "general") OPEN [JObj [("token", JStr "tok")]]] []
                [mkClosure "general" "tok" 0 None] (Some 0))
             (ContentString "hi")))
           0 (mkSocket 0 (wsUrl "general") OPEN [JObj [("token", JStr "tok")]])
           (JObj [("content", JStr "hi")]));
      reflexivity.
  - apply (proj1 (sendMessage_gateway initial (ContentString "hi"))).
    left. reflexivity.
Defined.

(** ** Binding *)


(** ** Well-formed states *)

Lemma WF_initial : WF initial.
Proof. split; [constructor|constructor|done]. Qed.

Lemma WF_frame (st st' : Hook) :
  sockets st' = sockets st → timers st' = timers st →
  length (closures st') = length (closures st) → cleanup st' = cleanup st →
  WF st → WF st'.
Proof.
  intros Hs Ht Hc Hk [H1 H2 H3]. split; rewrite ?Hs, ?Ht, ?Hc, ?Hk; done.
Qed.

Lemma WF_alter_socket (f : Socket → Socket) (i : nat) (st : Hook) :
  (∀ s, sockets st !! i = Some s →
        s_owner (f s) = s_owner s ∧ (readyState (f s) = CONNECTING → sent (f s) = [])) →
  WF st → WF (set_sockets (alter f i (sockets st)) st).
Proof.
  intros Hf [H1 H2 H3]. split; [|done|done]. cbn.
  apply Forall_alter; [done|]. intros s Hs [Ho _].
  destruct (Hf s Hs) as [Ho' Hc]. split; [|done]. by rewrite Ho'.
Qed.

Lemma WF_alter_timer (f : Timer → Timer) (t : nat) (st : Hook) :
  (∀ tm, t_owner (f tm) = t_owner tm) →
  WF st → WF (set_timers (alter f t (timers st)) st).
Proof.
  intros Hf [H1 H2 H3]. split; [done| |done]. cbn.
  apply Forall_alter; [done|]. intros tm _ Ho. unfold timer_ok. by rewrite Hf.
Qed.

Lemma WF_alter_closure (f : Closure → Closure) (c : nat) (st : Hook) :
  WF st → WF (set_closures (alter f c (closures st)) st).
Proof.
  intros [H1 H2 H3]. split; cbn; rewrite ?length_alter; done.
Qed.

Lemma WF_set_cleanup_None (st : Hook) : WF st → WF (set_cleanup None st).
Proof. intros [H1 H2 H3]. split; done. Qed.

Lemma WF_close_current (st : Hook) : WF st → WF (close_current st).
Proof.
  intros Hwf. unfold close_current. destruct (socketRef st) as [i|]; [|done].
  apply WF_alter_socket; [|done].
  intros s _. unfold ws_close.
  destruct (readyState s) eqn:E; cbn; (split; [done|congruence]).
Qed.

Lemma WF_clearTimeout (h : option nat) (st : Hook) : WF st → WF (clearTimeout h st).
Proof.
  intros Hwf. destruct h as [t|]; [|done]. cbn.
  apply WF_alter_timer; [|done].
  intros tm. unfold timer_clear. by destruct (t_state tm).
Qed.

Lemma WF_connectWebSocket (c : nat) (ok : bool) (st st' : Hook) :
  WF st → connectWebSocket c ok st = Some st' → WF st'.
Proof.
  intros Hwf Hc. unfold connectWebSocket in Hc.
  destruct (closures st !! c) as [cl|] eqn:Hcl; [|done]. cbn in Hc.
  apply lookup_lt_Some in Hcl.
  destruct ok; inversion Hc; subst; clear Hc.
  - destruct Hwf as [H1 H2 H3]. split; [|done|done]. cbn.
    apply Forall_app. split; [done|]. apply Forall_singleton. by split.
  - by eapply WF_frame; [..|exact Hwf].
Qed.

Lemma WF_run_cleanup (st st' : Hook) : WF st → run_cleanup st = Some st' → WF st'.
Proof.
  intros Hwf Hc. unfold run_cleanup in Hc.
  destruct (cleanup st) as [c|]; [|by inversion Hc; subst].
  destruct (closures st !! c) as [cl|]; [|done]. cbn in Hc.
  inversion Hc; subst.
  by apply WF_set_cleanup_None, WF_close_current, WF_clearTimeout.
Qed.

Lemma run_cleanup_total (st : Hook) : WF st → is_Some (run_cleanup st).
Proof.
  intros [_ _ H3]. unfold run_cleanup.
  destruct (cleanup st) as [c|] eqn:Hc; [|done].
  destruct (lookup_lt_is_Some_2 (closures st) c (H3 c eq_refl)) as [cl Hcl].
  rewrite Hcl. done.
Qed.

Lemma connectWebSocket_frame (c : nat) (ok : bool) (st st' : Hook) :
  connectWebSocket c ok st = Some st' →
  closures st' = closures st ∧ timers st' = timers st ∧ cleanup st' = cleanup st
  ∧ messages st' = messages st ∧ processedMessageIds st' = processedMessageIds st.
Proof.
  unfold connectWebSocket. destruct (closures st !! c); [|done]. cbn.
  destruct ok; intros [= <-]; done.
Qed.

Lemma WF_effect (channel : option string) (env : Env) (st st' : Hook) :
  WF st → effect channel env st = Some st' → WF st'.
Proof.
  intros Hwf He. unfold effect in He.
  assert (Hwf0 : WF (set_processedMessageIds [] (set_messages [] st)))
    by (by eapply WF_frame; [..|exact Hwf]).
  revert He. generalize (set_processedMessageIds [] (set_messages [] st)) Hwf0.
  clear st Hwf Hwf0. intros st Hwf He.
  destruct (nonempty channel) as [ch|].
  - destruct (String.eqb ch "undefined").
    + inversion He; subst. apply WF_set_cleanup_None.
      by eapply WF_frame; [..|exact Hwf].
    + destruct (getToken env) as [tok|].
      * destruct (connectWebSocket _ _ _) as [st1|] eqn:Hc; [|done].
        cbn in He. inversion He; subst; clear He.
        assert (Hwf1 : WF (set_closures
                  (closures (close_current st) ++ [mkClosure ch tok 0 None])
                  (close_current st))).
        { destruct (WF_close_current st Hwf) as [H1 H2 H3].
          split; cbn; rewrite length_app; cbn.
          - eapply Forall_impl; [exact H1|]. intros s [? ?]. split; [lia|done].
          - eapply Forall_impl; [exact H2|]. unfold timer_ok. intros; lia.
          - intros c Hk. specialize (H3 c Hk). lia. }
        destruct (connectWebSocket_frame _ _ _ _ Hc) as (Hcl & _ & _).
        destruct (WF_connectWebSocket _ _ _ _ Hwf1 Hc) as [H1 H2 H3].
        split; [done|done|]. cbn. intros c [= <-].
        rewrite Hcl. cbn. rewrite length_app. cbn. lia.
      * inversion He; subst. apply WF_set_cleanup_None.
        by eapply WF_frame; [..|exact Hwf].
  - inversion He; subst. apply WF_set_cleanup_None.
    by eapply WF_frame; [..|exact Hwf].
Qed.

Lemma effect_total (channel : option string) (env : Env) (st : Hook) :
  is_Some (effect channel env st).
Proof.
  unfold effect. destruct (nonempty channel) as [ch|]; [|done].
  destruct (String.eqb ch "undefined"); [done|].
  destruct (getToken env) as [tok|]; [|done].
  unfold connectWebSocket. cbn.
  rewrite lookup_app_r by done. rewrite Nat.sub_diag. cbn.
  destruct (ws_ok env); done.
Qed.

Lemma WF_onopen (i : nat) (st st' : Hook) :
  WF st →
  (∀ s, sockets st !! i = Some s → readyState s ≠ CONNECTING) →
  onopen i st = Some st' → WF st'.
Proof.
  intros Hwf Hi Ho. unfold onopen in Ho.
  destruct (sockets st !! i) as [s|] eqn:Hs; [|done]. cbn in Ho.
  destruct (closures st !! s_owner s) as [cl|]; [|done]. cbn in Ho.
  inversion Ho; subst; clear Ho.
  apply (WF_alter_closure _ _ (set_error None (set_isConnected true
           (set_sockets (alter (ws_send (JObj [("token", JStr (token cl))])) i (sockets st)) st)))).
  eapply WF_frame; [..|apply (WF_alter_socket (ws_send (JObj [("token", JStr (token cl))])) i st); [|exact Hwf]];
    try reflexivity.
  intros s' Hs'. split; [done|]. cbn. intros Hc.
  rewrite Hs in Hs'. by apply Hi in Hs'.
Qed.

Lemma WF_onclose (c : nat) (code : Z) (st st' : Hook) :
  WF st → onclose c code st = Some st' → WF st'.
Proof.
  intros Hwf Ho. unfold onclose in Ho.
  destruct (closures st !! c) as [cl|] eqn:Hcl; [|done]. cbn [mbind option_bind] in Ho.
  apply lookup_lt_Some in Hcl.
  destruct (unauthorized code).
  { inversion Ho; subst. by eapply WF_frame; [..|exact Hwf]. }
  destruct (_ && _).
  { inversion Ho; subst; clear Ho.
    apply (WF_alter_closure _ _ (set_timers _ (set_isConnected false st))).
    destruct Hwf as [H1 H2 H3]. split; [done| |done]. cbn.
    apply Forall_app. split; [done|]. by apply Forall_singleton. }
  destruct (_ <=? _); inversion Ho; subst; by eapply WF_frame; [..|exact Hwf].
Qed.

Lemma WF_ontimer (c : nat) (ok : bool) (st st' : Hook) :
  WF st → ontimer c ok st = Some st' → WF st'.
Proof.
  intros Hwf Ho. unfold ontimer in Ho.
  destruct (closures st !! c) as [cl|]; [|done]. cbn [mbind option_bind] in Ho.
  eapply WF_connectWebSocket; [|exact Ho]. by apply WF_alter_closure.
Qed.

Lemma WF_sendMessage (content : Content) (st : Hook) :
  WF st → WF (snd (sendMessage content st)).
Proof.
  intros Hwf. unfold sendMessage, is_open.
  destruct (socketRef st) as [i|] eqn:Hr; [|by eapply WF_frame; [..|exact Hwf]].
  destruct (sockets st !! i) as [s|] eqn:Hs; [|by eapply WF_frame; [..|exact Hwf]].
  destruct (bool_decide (readyState s = OPEN)) eqn:Ho;
    [|by eapply WF_frame; [..|exact Hwf]].
  apply bool_decide_eq_true_1 in Ho. cbn.
  destruct (stringify content) as [frame|]; [|by eapply WF_frame; [..|exact Hwf]].
  cbn. apply WF_alter_socket; [|done].
  intros s' Hs'. split; [done|]. cbn. congruence.
Qed.

Lemma WF_onmessage (raw : Parse) (st : Hook) : WF st → WF (onmessage raw st).
Proof.
  intros Hwf. unfold onmessage.
  destruct raw as [|data]; [done|].
  destruct data; try done;
    (destruct (is_chat _); [|done]; destruct (negb _); [|done];
     by eapply WF_frame; [..|exact Hwf]).
Qed.

Lemma WF_step (e : Event) (st st' : Hook) : WF st → step e st = Some st' → WF st'.
Proof.
  intros Hwf Hs. destruct e as [channel env| |i|i raw|i info|i code|t ok|content];
    cbn [step] in Hs.
  - destruct (run_cleanup st) as [st1|] eqn:Hc; [|done]. cbn in Hs.
    eapply WF_effect; [|exact Hs]. by eapply WF_run_cleanup.
  - by eapply WF_run_cleanup.
  - destruct (sockets st !! i) as [s|] eqn:Hi; [|done]. cbn in Hs.
    destruct (bool_decide _); [|done].
    eapply WF_onopen; [| |exact Hs].
    + apply WF_alter_socket; [|done]. intros s' _. by split.
    + cbn. intros s' Hs'. rewrite list_lookup_alter_eq, Hi in Hs'.
      by inversion Hs'.
  - destruct (sockets st !! i) as [s|]; [|done]. cbn in Hs.
    destruct (bool_decide _); [|done]. inversion Hs; subst.
    by apply WF_onmessage.
  - destruct (sockets st !! i) as [s|]; [|done]. cbn in Hs.
    destruct (bool_decide _); [done|]. inversion Hs; subst.
    by eapply WF_frame; [..|exact Hwf].
  - destruct (sockets st !! i) as [s|]; [|done]. cbn in Hs.
    destruct (bool_decide _); [done|].
    eapply WF_onclose; [|exact Hs].
    apply WF_alter_socket; [|done]. intros s' _. by split.
  - destruct (timers st !! t) as [tm|]; [|done]. cbn in Hs.
    destruct (bool_decide _); [|done].
    eapply WF_ontimer; [|exact Hs]. by apply WF_alter_timer.
  - inversion Hs; subst. by apply WF_sendMessage.
Qed.

Lemma WF_run (tr : list Event) (st st' : Hook) : WF st → run tr st = Some st' → WF st'.
Proof.
  revert st. induction tr as [|e tr IH]; intros st Hwf Hr; cbn in Hr.
  - by inversion Hr; subst.
  - destruct (step e st) as [st1|] eqn:Hs; [|done]. cbn in Hr.
    eapply IH; [|exact Hr]. by eapply WF_step.
Qed.

(** ** The dedup invariant *)

Lemma same_value_zero_eq (a b : jsval) : same_value_zero a b = true → a = b.
Proof.
  destruct a as [[| x | x | x | |]|], b as [[| y | y | y | |]|]; cbn; try done.
  - intros H. apply Bool.eqb_prop in H. by subst.
  - intros H. apply Z.eqb_eq in H. by subst.
  - intros H. apply String.eqb_eq in H. by subst.
Qed.

Lemma set_has_app (k : jsval) (s1 s2 : list jsval) :
  set_has k (s1 ++ s2) = set_has k s1 || set_has k s2.
Proof. apply existsb_app. Qed.

Lemma set_add_absent (k : jsval) (s : list jsval) :
  set_has k s = false → set_add k s = s ++ [k].
Proof. intros H. unfold set_add. by rewrite H. Qed.

Lemma assoc_set_other (k k' : string) (v : json) (ps : list (string * json)) :
  k ≠ k' → assoc k (assoc_set k' v ps) = assoc k ps.
Proof.
  intros Hne. induction ps as [|[k0 v0] ps IH]; cbn.
  - apply String.eqb_neq in Hne. by rewrite Hne.
  - destruct (String.eqb k' k0) eqn:E; cbn.
    + apply String.eqb_eq in E. subst k0.
      apply String.eqb_neq in Hne. by rewrite Hne.
    + by rewrite IH.
Qed.

Lemma normalize_id (data : json) : prop (normalize data) "id" = prop data "id".
Proof.
  unfold normalize. destruct (_ || _); [|done].
  destruct (truthy _); [|done].
  destruct data; try done. cbn. by apply assoc_set_other.
Qed.

Lemma count_id_app (k : jsval) (ms : list json) (e : json) :
  count_id k (ms ++ [e])
  = count_id k ms + (if same_value_zero (prop e "id") k then 1 else 0).
Proof.
  unfold count_id. rewrite List.filter_app, length_app. cbn.
  by destruct (same_value_zero _ _).
Qed.

Lemma count_id_zero (k : jsval) (ms : list json) :
  (∀ e, In e ms → same_value_zero (prop e "id") k = false) → count_id k ms = 0.
Proof.
  intros H. unfold count_id. induction ms as [|e ms IH]; [done|]. cbn.
  rewrite (H e) by (by left). apply IH. intros e' He'. apply H. by right.
Qed.

Lemma Dedup_frame (st st' : Hook) :
  messages st' = messages st → processedMessageIds st' = processedMessageIds st →
  Dedup st → Dedup st'.
Proof. intros Hm Hp [H1 H2]. split; rewrite ?Hm, ?Hp; done. Qed.

Lemma Dedup_empty (st : Hook) :
  messages st = [] → Dedup st.
Proof. intros Hm. split; rewrite Hm; [done|]. intros k. cbn. lia. Qed.

Lemma absent_not_shown (st : Hook) (k : jsval) :
  Dedup st → set_has k (processedMessageIds st) = false →
  count_id k (messages st) = 0.
Proof.
  intros [Hcov _] Hk. apply count_id_zero. intros e He.
  destruct (same_value_zero (prop e "id") k) eqn:E; [|done].
  apply same_value_zero_eq in E as Heq. subst k.
  by rewrite (Hcov e He E) in Hk.
Qed.

(** The two branches of the dedup test (lines 101-120). *)
Lemma onmessage_accept (data : json) (st : Hook) :
  is_chat data = true →
  set_has (prop data "id") (processedMessageIds st) = false →
  onmessage (Parsed data) st
  = set_messages (messages st ++ [normalize data])
      (set_processedMessageIds (processedMessageIds st ++ [prop data "id"]) st).
Proof.
  intros Hc Hh. unfold onmessage.
  destruct data; try done; rewrite Hc, Hh; cbn [negb];
    by rewrite set_add_absent.
Qed.

Lemma onmessage_drop (data : json) (st : Hook) :
  is_chat data = true →
  set_has (prop data "id") (processedMessageIds st) = true →
  onmessage (Parsed data) st = st.
Proof.
  intros Hc Hh. unfold onmessage. destruct data; try done; by rewrite Hc, Hh.
Qed.

Lemma onmessage_other (data : json) (st : Hook) :
  is_chat data = false → onmessage (Parsed data) st = st.
Proof. intros Hc. unfold onmessage. destruct data; try done; by rewrite Hc. Qed.

Lemma Dedup_onmessage (raw : Parse) (st : Hook) : Dedup st → Dedup (onmessage raw st).
Proof.
  intros Hd. destruct raw as [|data]; [done|].
  destruct (is_chat data) eqn:Hc; [|by rewrite onmessage_other].
  destruct (set_has (prop data "id") (processedMessageIds st)) eqn:Hh;
    [by rewrite onmessage_drop|].
  rewrite onmessage_accept by done.
  pose proof (absent_not_shown st _ Hd Hh) as Hzero.
  destruct Hd as [Hcov Honce].
  split; cbn [messages processedMessageIds set_messages set_processedMessageIds].
  - intros e He Hp. rewrite set_has_app. apply in_app_or in He as [He|[<-|[]]].
    + by rewrite Hcov.
    + rewrite normalize_id in *. cbn. rewrite Hp. apply orb_true_r.
  - intros k. rewrite count_id_app, normalize_id.
    destruct (same_value_zero (prop data "id") k) eqn:E; [|specialize (Honce k); lia].
    apply same_value_zero_eq in E. subst k. lia.
Qed.

Lemma view_eq (st st' : Hook) :
  view st' = view st ↔
  messages st' = messages st ∧ processedMessageIds st' = processedMessageIds st.
Proof. unfold view. split; [by intros [= -> ->]|by intros [-> ->]]. Qed.

Lemma run_cleanup_view (st st' : Hook) : run_cleanup st = Some st' → view st' = view st.
Proof.
  unfold run_cleanup. destruct (cleanup st) as [c|]; [|by intros [= <-]].
  destruct (closures st !! c) as [cl|]; [|done]. cbn. intros [= <-].
  unfold close_current, clearTimeout.
  destruct (reconnectTimeout cl); cbn; by destruct (socketRef st).
Qed.

Lemma effect_clears (channel : option string) (env : Env) (st st' : Hook) :
  effect channel env st = Some st' → view st' = ([], []).
Proof.
  unfold effect. destruct (nonempty channel) as [ch|]; [|by intros [= <-]].
  destruct (String.eqb ch "undefined"); [by intros [= <-]|].
  destruct (getToken env) as [tok|]; [|by intros [= <-]].
  destruct (connectWebSocket _ _ _) as [st1|] eqn:Hc; [|done]. cbn.
  intros [= <-]. apply connectWebSocket_frame in Hc as (_ & _ & _ & Hm & Hp).
  unfold view. cbn. rewrite Hm, Hp. unfold close_current.
  by destruct (socketRef _).
Qed.

Lemma onopen_view (i : nat) (st st' : Hook) : onopen i st = Some st' → view st' = view st.
Proof.
  unfold onopen. destruct (sockets st !! i) as [s|]; [|done]. cbn.
  destruct (closures st !! s_owner s); [|done]. cbn. by intros [= <-].
Qed.

Lemma onclose_view (c : nat) (code : Z) (st st' : Hook) :
  onclose c code st = Some st' → view st' = view st.
Proof.
  unfold onclose. destruct (closures st !! c); [|done]. cbn [mbind option_bind].
  destruct (unauthorized code); [by intros [= <-]|].
  destruct (_ && _); [by intros [= <-]|].
  destruct (_ <=? _); by intros [= <-].
Qed.

Lemma ontimer_view (c : nat) (ok : bool) (st st' : Hook) :
  ontimer c ok st = Some st' → view st' = view st.
Proof.
  unfold ontimer. destruct (closures st !! c); [|done]. cbn [mbind option_bind].
  intros H. apply connectWebSocket_frame in H as (_ & _ & _ & Hm & Hp).
  apply view_eq. by rewrite Hm, Hp.
Qed.

Lemma sendMessage_view (content : Content) (st : Hook) :
  view (snd (sendMessage content st)) = view st.
Proof.
  unfold sendMessage. destruct (negb (is_open st)); [done|].
  destruct (stringify content); [|done]. by destruct (socketRef st).
Qed.

(** Only a bind and an inbound frame change the list or the ledger. *)
Lemma step_view (e : Event) (st st' : Hook) :
  step e st = Some st' →
  match e with
  | EvBind _ _ => view st' = ([], [])
  | EvMessage _ raw => st' = onmessage raw st
  | _ => view st' = view st
  end.
Proof.
  intros Hs. destruct e as [channel env| |i|i raw|i info|i code|t ok|content];
    cbn [step] in Hs.
  - destruct (run_cleanup st) as [st1|]; [|done]. by eapply effect_clears.
  - by apply run_cleanup_view.
  - destruct (sockets st !! i); [|done]. cbn in Hs.
    destruct (bool_decide _); [|done]. by apply onopen_view in Hs.
  - destruct (sockets st !! i); [|done]. cbn in Hs.
    destruct (bool_decide _); [|done]. by inversion Hs.
  - destruct (sockets st !! i); [|done]. cbn in Hs.
    destruct (bool_decide _); [done|]. by inversion Hs.
  - destruct (sockets st !! i); [|done]. cbn in Hs.
    destruct (bool_decide _); [done|]. by apply onclose_view in Hs.
  - destruct (timers st !! t); [|done]. cbn in Hs.
    destruct (bool_decide _); [|done]. by apply ontimer_view in Hs.
  - inversion Hs. apply sendMessage_view.
Qed.

Lemma Dedup_step (e : Event) (st st' : Hook) : Dedup st → step e st = Some st' → Dedup st'.
Proof.
  intros Hd Hs. apply step_view in Hs.
  destruct e; try (apply view_eq in Hs as [Hm Hp]; by eapply Dedup_frame).
  - apply Dedup_empty. by inversion Hs.
  - subst st'. by apply Dedup_onmessage.
Qed.

Lemma Dedup_run (tr : list Event) (st st' : Hook) : Dedup st → run tr st = Some st' → Dedup st'.
Proof.
  revert st. induction tr as [|e tr IH]; intros st Hd Hr; cbn in Hr.
  - by inversion Hr; subst.
  - destruct (step e st) as [st1|] eqn:Hs; [|done]. cbn in Hr.
    eapply IH; [|exact Hr]. by eapply Dedup_step.
Qed.

Lemma step_message_eq (st : Hook) (i : nat) (s : Socket) (raw : Parse) :
  sockets st !! i = Some s → readyState s = OPEN →
  step (EvMessage i raw) st = Some (onmessage raw st).
Proof.
  intros Hs Ho. unfold step. rewrite Hs. cbn. by rewrite bool_decide_eq_true_2.
Qed.

Lemma opened_reachable :
  run [EvBind (Some "general") env_tok; EvOpen 0] initial = Some opened.
Proof. reflexivity. Qed.

(** C1: an envelope of kind message or media arriving on an open socket is
    recorded in the ledger and appended to the visible list when its
    identifier is not in the ledger, and is dropped without any change when
    it is; in every state the hook can reach, the visible list holds at most
    one entry for any identifier. *)
Theorem dedup_at_most_once
    (tr : list Event) (st : Hook) (i : nat) (s : Socket) (data : json) (k : jsval)
    (Hrun : run tr initial = Some st)
    (Hs : sockets st !! i = Some s) (Hopen : readyState s = OPEN)
    (Hchat : is_chat data = true) :
  (set_has (prop data "id") (processedMessageIds st) = false →
   step (EvMessage i (Parsed data)) st
   = Some (set_messages (messages st ++ [normalize data])
             (set_processedMessageIds (processedMessageIds st ++ [prop data "id"]) st)))
  ∧ (set_has (prop data "id") (processedMessageIds st) = true →
     step (EvMessage i (Parsed data)) st = Some st)
  ∧ prop (normalize data) "id" = prop data "id"
  ∧ count_id k (messages st) ≤ 1.
Proof.
  rewrite (step_message_eq st i s _ Hs Hopen).
  split_and!.
  - intros Hh. by rewrite onmessage_accept.
  - intros Hh. by rewrite onmessage_drop.
  - apply normalize_id.
  - apply (dd_once st). eapply Dedup_run; [|exact Hrun]. by apply Dedup_empty.
Qed.

Lemma dedup_at_most_once_witness :
  step (EvMessage 0 (Parsed envelope_m1))
    (set_messages [envelope_m1] (set_processedMessageIds [Some (JStr "m1")] opened))
  = Some (set_messages [envelope_m1] (set_processedMessageIds [Some (JStr "m1")] opened))
  ∧ count_id (Some (JStr "m1")) [envelope_m1] ≤ 1.
Proof.
  pose proof (dedup_at_most_once
                [EvBind (Some "general") env_tok; EvOpen 0;
                 EvMessage 0 (Parsed envelope_m1)]
                (set_messages [envelope_m1]
                   (set_processedMessageIds [Some (JStr "m1")] opened))
                0 (mkSocket 0 (wsUrl "general") OPEN [JObj [("token", JStr "tok")]])
                envelope_m1 (Some (JStr "m1"))
                eq_refl eq_refl eq_refl eq_refl) as (_ & Hdrop & _ & Hcount).
  split; [exact (Hdrop eq_refl)|exact Hcount].
Defined.

(** C6, as the code has it: an envelope without identifier whose kind is
    neither message nor media changes neither the ledger nor the visible
    list; one of kind message or media is deduplicated on its missing
    identifier: it is recorded and appended when [undefined] is not yet in
    the ledger, and dropped when it is. *)
Theorem idless_envelope_handling
    (st : Hook) (i : nat) (s : Socket) (data : json)
    (Hs : sockets st !! i = Some s) (Hopen : readyState s = OPEN)
    (Hid : prop data "id" = None) :
  (is_chat data = false → step (EvMessage i (Parsed data)) st = Some st)
  ∧ (is_chat data = true → set_has None (processedMessageIds st) = false →
     step (EvMessage i (Parsed data)) st
     = Some (set_messages (messages st ++ [normalize data])
               (set_processedMessageIds (processedMessageIds st ++ [None]) st)))
  ∧ (is_chat data = true → set_has None (processedMessageIds st) = true →
     step (EvMessage i (Parsed data)) st = Some st).
Proof.
  rewrite (step_message_eq st i s _ Hs Hopen). split_and!.
  - intros Hc. by rewrite onmessage_other.
  - intros Hc Hh. rewrite onmessage_accept; rewrite ?Hid; done.
  - intros Hc Hh. rewrite onmessage_drop; rewrite ?Hid; done.
Qed.

Lemma idless_envelope_handling_witness :
  step (EvMessage 0 (Parsed (JObj [("type", JStr "join"); ("message", JStr "bob joined")])))
    opened = Some opened.
Proof.
  apply (proj1 (idless_envelope_handling opened 0
                  (mkSocket 0 (wsUrl "general") OPEN [JObj [("token", JStr "tok")]])
                  (JObj [("type", JStr "join"); ("message", JStr "bob joined")])
                  eq_refl eq_refl eq_refl)).
  reflexivity.
Defined.

(** C6 as stated fails: a message envelope without identifier, received on
    a fresh subscription, is added to the visible list and enters the
    ledger. *)
Lemma idless_message_counterexample :
  prop envelope_noid "id" = None
  ∧ view <$> run [EvBind (Some "general") env_tok; EvOpen 0;
                  EvMessage 0 (Parsed envelope_noid)] initial
    = Some ([envelope_noid], [None]).
Proof. split; reflexivity. Qed.

(** Within one subscription a key stays in the ledger, and the number of
    entries shown for it does not change. *)
Lemma step_keeps_key (e : Event) (st st' : Hook) (k : jsval) :
  is_bind e = false →
  step e st = Some st' →
  set_has k (processedMessageIds st) = true →
  set_has k (processedMessageIds st') = true
  ∧ count_id k (messages st') = count_id k (messages st).
Proof.
  intros He Hs Hk. apply step_view in Hs.
  destruct e as [| | |i raw| | | |]; try done;
    try (apply view_eq in Hs as [-> ->]; done).
  subst st'. destruct raw as [|data]; [done|].
  destruct (is_chat data) eqn:Hc; [|by rewrite onmessage_other].
  destruct (set_has (prop data "id") (processedMessageIds st)) eqn:Hh;
    [by rewrite onmessage_drop|].
  rewrite onmessage_accept by done.
  cbn [messages processedMessageIds set_messages set_processedMessageIds].
  rewrite set_has_app, Hk, count_id_app, normalize_id. split; [done|].
  destruct (same_value_zero (prop data "id") k) eqn:E; [|lia].
  apply same_value_zero_eq in E. congruence.
Qed.

Lemma run_keeps_key (tr : list Event) (st st' : Hook) (k : jsval) :
  same_subscription tr → run tr st = Some st' →
  set_has k (processedMessageIds st) = true →
  set_has k (processedMessageIds st') = true
  ∧ count_id k (messages st') = count_id k (messages st).
Proof.
  revert st. induction tr as [|e tr IH]; intros st Hsub Hr Hk; cbn in Hr.
  - by inversion Hr; subst.
  - unfold same_subscription in Hsub. cbn [forallb] in Hsub.
    apply andb_true_iff in Hsub as [He Hsub]. apply negb_true_iff in He.
    destruct (step e st) as [st1|] eqn:Hs; [|done]. cbn in Hr.
    destruct (step_keeps_key e st st1 k He Hs Hk) as [Hk1 Hc1].
    destruct (IH st1 Hsub Hr Hk1) as [Hk' Hc']. split; [done|congruence].
Qed.

Lemma Dedup_reachable (tr : list Event) (st : Hook) :
  run tr initial = Some st → Dedup st.
Proof. intros Hr. eapply Dedup_run; [|exact Hr]. by apply Dedup_empty. Qed.

(** C10: once a message or media envelope without identifier has been
    accepted, [undefined] is in the ledger and stays there for the rest of
    the subscription, every later message or media envelope without
    identifier is dropped with no change, and the visible list holds exactly
    one entry without identifier; in any reachable state it holds at most
    one. *)
Theorem idless_envelope_once
    (tr tr' tr0 : list Event) (st st' st0 : Hook) (i j : nat) (s s' : Socket)
    (data data' : json)
    (Hrun : run tr initial = Some st)
    (Hs : sockets st !! i = Some s) (Hopen : readyState s = OPEN)
    (Hchat : is_chat data = true) (Hid : prop data "id" = None)
    (Hfresh : set_has None (processedMessageIds st) = false)
    (Hsub : same_subscription tr')
    (Hrun' : run (EvMessage i (Parsed data) :: tr') st = Some st')
    (Hs' : sockets st' !! j = Some s') (Hopen' : readyState s' = OPEN)
    (Hchat' : is_chat data' = true) (Hid' : prop data' "id" = None)
    (Hrun0 : run tr0 initial = Some st0) :
  set_has None (processedMessageIds st') = true
  ∧ step (EvMessage j (Parsed data')) st' = Some st'
  ∧ count_id None (messages st') = 1
  ∧ count_id None (messages st0) ≤ 1.
Proof.
  pose proof (Dedup_reachable tr st Hrun) as Hd.
  pose proof (absent_not_shown st None Hd Hfresh) as Hzero.
  cbn [run] in Hrun'.
  rewrite (step_message_eq st i s _ Hs Hopen) in Hrun'. cbn [mbind option_bind] in Hrun'.
  rewrite onmessage_accept in Hrun' by (rewrite ?Hid; done).
  rewrite Hid in Hrun'.
  destruct (run_keeps_key tr' _ st' None Hsub Hrun') as [Hk Hc].
  { cbn [processedMessageIds set_messages set_processedMessageIds].
    rewrite set_has_app. apply orb_true_r. }
  cbn [messages set_messages] in Hc.
  rewrite count_id_app, normalize_id, Hid, Hzero in Hc. cbn in Hc.
  split_and!; [done| |done|].
  - rewrite (step_message_eq st' j s' _ Hs' Hopen').
    rewrite onmessage_drop; rewrite ?Hid'; done.
  - apply (dd_once st0). by eapply Dedup_reachable.
Qed.

Lemma idless_envelope_once_witness :
  step (EvMessage 0 (Parsed envelope_noid))
    (set_messages [envelope_noid; envelope_m1]
       (set_processedMessageIds [None; Some (JStr "m1")] opened))
  = Some (set_messages [envelope_noid; envelope_m1]
            (set_processedMessageIds [None; Some (JStr "m1")] opened))
  ∧ count_id None [envelope_noid; envelope_m1] = 1.
Proof.
  pose proof (idless_envelope_once
                [EvBind (Some "general") env_tok; EvOpen 0]
                [EvMessage 0 (Parsed envelope_m1)]
                [EvBind (Some "general") env_tok; EvOpen 0]
                opened
                (set_messages [envelope_noid; envelope_m1]
                   (set_processedMessageIds [None; Some (JStr "m1")] opened))
                opened 0 0
                (mkSocket 0 (wsUrl "general") OPEN [JObj [("token", JStr "tok")]])
                (mkSocket 0 (wsUrl "general") OPEN [JObj [("token", JStr "tok")]])
                envelope_noid envelope_noid
                eq_refl eq_refl eq_refl eq_refl eq_refl eq_refl
                eq_refl
                eq_refl eq_refl eq_refl eq_refl eq_refl eq_refl)
    as (_ & Hdrop & Hcount & _).
  split; [exact Hdrop|exact Hcount].
Defined.

(** ** Rebinding *)

Lemma WF_reachable (tr : list Event) (st : Hook) : run tr initial = Some st → WF st.
Proof. intros Hr. eapply WF_run; [apply WF_initial|exact Hr]. Qed.

Lemma close_current_frame (st : Hook) :
  closures (close_current st) = closures st
  ∧ timers (close_current st) = timers st
  ∧ length (sockets (close_current st)) = length (sockets st).
Proof.
  unfold close_current. destruct (socketRef st); [|done].
  cbn. by rewrite length_alter.
Qed.

Lemma run_cleanup_frame (st st' : Hook) :
  run_cleanup st = Some st' →
  closures st' = closures st
  ∧ length (timers st') = length (timers st)
  ∧ length (sockets st') = length (sockets st).
Proof.
  unfold run_cleanup. destruct (cleanup st) as [c|]; [|by intros [= <-]].
  destruct (closures st !! c) as [cl|]; [|done]. cbn. intros [= <-].
  cbn. destruct (close_current_frame (clearTimeout (reconnectTimeout cl) st))
    as (-> & -> & ->).
  unfold clearTimeout. destruct (reconnectTimeout cl); [|done].
  cbn. by rewrite length_alter.
Qed.

(** The effect run that registers a cleanup is a new one, with a fresh
    attempt counter and no timer. *)
Lemma effect_controller (channel : option string) (env : Env) (st st' : Hook) (c : nat) :
  effect channel env st = Some st' → cleanup st' = Some c →
  c = length (closures st)
  ∧ ∃ ch tok, nonempty channel = Some ch ∧ getToken env = Some tok
      ∧ closures st' = closures st ++ [mkClosure ch tok 0 None].
Proof.
  unfold effect. destruct (nonempty channel) as [ch|]; [|by intros [= <-]].
  destruct (String.eqb ch "undefined"); [by intros [= <-]|].
  destruct (getToken env) as [tok|]; [|by intros [= <-]].
  destruct (connectWebSocket _ _ _) as [st1|] eqn:Hc; [|done]. cbn.
  intros [= <-]. cbn. intros [= <-].
  apply connectWebSocket_frame in Hc as (Hcl & _).
  destruct (close_current_frame (set_processedMessageIds [] (set_messages [] st)))
    as (Hcc & _).
  cbn in Hcl. rewrite Hcc in *. cbn in *. split; [done|]. by exists ch, tok.
Qed.

Lemma effect_accepts (ch tok : string) (env : Env) (st : Hook) :
  ch ≠ "" → ch ≠ "undefined" → getToken env = Some tok →
  ∃ st', effect (Some ch) env st = Some st'
         ∧ cleanup st' = Some (length (closures st)).
Proof.
  intros H1 H2 Ht. unfold effect. cbn [nonempty].
  apply String.eqb_neq in H1, H2. rewrite H1, H2, Ht.
  unfold connectWebSocket. cbn [closures set_closures].
  rewrite lookup_app_r by done. rewrite Nat.sub_diag. cbn [lookup list_lookup mbind option_bind].
  destruct (close_current_frame (set_processedMessageIds [] (set_messages [] st)))
    as (Hcc & _). cbn in Hcc.
  destruct (ws_ok env); cbn; eexists; (split; [reflexivity|]); cbn; by rewrite Hcc.
Qed.

(** C8: after any change of the bound channel identifier, in any reachable
    state, the ledger and the visible list are empty, and the effect run
    that now owns the subscription (there is one whenever the identifier is
    good and a token exists) starts with attempt counter 0. *)
Theorem rebind_resets
    (tr : list Event) (st : Hook) (channel : option string) (env : Env)
    (Hrun : run tr initial = Some st) :
  ∃ st', step (EvBind channel env) st = Some st'
    ∧ messages st' = [] ∧ processedMessageIds st' = []
    ∧ (∀ c, cleanup st' = Some c →
         ∃ cl, closures st' !! c = Some cl ∧ reconnectAttempts cl = 0)
    ∧ (∀ ch tok, channel = Some ch → ch ≠ "" → ch ≠ "undefined" →
         getToken env = Some tok → is_Some (cleanup st')).
Proof.
  pose proof (WF_reachable tr st Hrun) as Hwf.
  destruct (run_cleanup_total st Hwf) as [st1 Hc].
  destruct (effect_total channel env st1) as [st' He].
  exists st'. cbn [step]. rewrite Hc. cbn [mbind option_bind].
  split; [exact He|].
  pose proof (effect_clears _ _ _ _ He) as Hv.
  unfold view in Hv. injection Hv as Hm Hp.
  split; [exact Hm|]. split; [exact Hp|]. split.
  - intros c Hk. destruct (effect_controller _ _ _ _ c He Hk) as (-> & ch & tok & _ & _ & ->).
    eexists. split.
    + rewrite lookup_app_r by done. rewrite Nat.sub_diag. reflexivity.
    + reflexivity.
  - intros ch tok -> H1 H2 Ht.
    destruct (effect_accepts ch tok env st1 H1 H2 Ht) as (st2 & He2 & Hk).
    rewrite He in He2. inversion He2; subst. by rewrite Hk.
Qed.

Lemma rebind_resets_witness :
  ∃ st', step (EvBind (Some "random") env_tok)
           (set_messages [envelope_m1]
              (set_processedMessageIds [Some (JStr "m1")] opened)) = Some st'
    ∧ messages st' = [] ∧ processedMessageIds st' = [].
Proof.
  destruct (rebind_resets
              [EvBind (Some "general") env_tok; EvOpen 0; EvMessage 0 (Parsed envelope_m1)]
              (set_messages [envelope_m1]
                 (set_processedMessageIds [Some (JStr "m1")] opened))
              (Some "random") env_tok eq_refl)
    as (st' & Hs & Hm & Hp & _).
  exists st'. split; [exact Hs|]. split; [exact Hm|exact Hp].
Defined.

(** ** Binding a channel the effect rejects *)






(** ** Opening *)

(** C9: when a connecting socket opens, in any reachable state, its first
    outbound frame is the one authentication object with the single field
    token holding the credential of its effect run, the connected flag
    becomes true, the error is cleared and the attempt counter of that effect
    run is 0. *)
Theorem open_authenticates
    (tr : list Event) (st : Hook) (i : nat) (s : Socket)
    (Hrun : run tr initial = Some st)
    (Hs : sockets st !! i = Some s) (Hconn : readyState s = CONNECTING) :
  ∃ st' cl cl',
    closures st !! s_owner s = Some cl
    ∧ step (EvOpen i) st = Some st'
    ∧ sockets st' !! i
      = Some (mkSocket (s_owner s) (s_url s) OPEN [JObj [("token", JStr (token cl))]])
    ∧ isConnected st' = true ∧ error st' = None
    ∧ closures st' !! s_owner s = Some cl'
    ∧ reconnectAttempts cl' = 0 ∧ token cl' = token cl.
Proof.
  pose proof (WF_reachable tr st Hrun) as [Hsock _ _].
  destruct (Forall_lookup_1 _ _ _ _ Hsock Hs) as [Hown Hsent].
  destruct (lookup_lt_is_Some_2 _ _ Hown) as [cl Hcl].
  eexists _, cl, (set_attempts 0 cl). split; [exact Hcl|].
  cbn [step]. rewrite Hs. cbn [mbind option_bind].
  rewrite bool_decide_eq_true_2 by done.
  unfold onopen. cbn [sockets set_sockets closures].
  rewrite list_lookup_alter_eq, Hs. cbn [fmap option_fmap option_map mbind option_bind s_owner ws_set_state].
  rewrite Hcl. cbn [mbind option_bind].
  split; [reflexivity|].
  cbn [sockets closures isConnected error set_closures set_error set_isConnected set_sockets].
  rewrite !list_lookup_alter_eq, Hs, Hcl. cbn.
  unfold ws_send, ws_set_state. cbn. rewrite (Hsent Hconn). done.
Qed.

Lemma open_authenticates_witness :
  ∃ st', step (EvOpen 0)
           (mkHook [] false None (Some 0) []
              [mkSocket 0 (wsUrl "general") CONNECTING []] []
              [mkClosure "general" "tok" 0 None] (Some 0)) = Some st'
    ∧ sockets st' !! 0
      = Some (mkSocket 0 (wsUrl "general") OPEN [JObj [("token", JStr "tok")]])
    ∧ isConnected st' = true ∧ error st' = None.
Proof.
  destruct (open_authenticates
              [EvBind (Some "general") env_tok]
              (mkHook [] false None (Some 0) []
                 [mkSocket 0 (wsUrl "general") CONNECTING []] []
                 [mkClosure "general" "tok" 0 None] (Some 0))
              0 (mkSocket 0 (wsUrl "general") CONNECTING [])
              eq_refl eq_refl eq_refl)
    as (st' & cl & cl' & Hcl & Hstep & Hsock & Hc & He & _).
  exists st'. split; [exact Hstep|].
  cbn in Hcl. injection Hcl as <-.
  split; [exact Hsock|]. split; [exact Hc|exact He].
Defined.

(** ** Consecutive abnormal closures *)

Lemma existsb_false_Forall {A : Type} (f : A → bool) (l : list A) :
  Forall (fun x => f x = false) l → existsb f l = false.
Proof. induction 1 as [|x l Hx _ IH]; cbn; [done|]. by rewrite Hx, IH. Qed.

Lemma Retrying_observed (c a : nat) (st : Hook) :
  Retrying c a st → connecting c st = true ∧ failed c st = false.
Proof.
  intros [_ (ss & s & Hs & Ho & Hr & _) _].
  assert (Hc : connecting_of c s = true).
  { unfold connecting_of. by rewrite !bool_decide_eq_true_2. }
  assert (Hl : live_of c s = true).
  { unfold live_of. rewrite bool_decide_eq_true_2 by done.
    rewrite bool_decide_eq_false_2 by congruence. done. }
  split.
  - unfold connecting. rewrite Hs, existsb_app. cbn. rewrite Hc. apply orb_true_r.
  - unfold failed, live. rewrite Hs, existsb_app. cbn. rewrite Hl.
    rewrite orb_true_r. apply andb_false_r.
Qed.

Lemma Waiting_observed (c a : nat) (st : Hook) :
  Waiting c a st →
  reconnect_pending c st = true ∧ failed c st = false ∧ connecting c st = false
  ∧ last (timers st) = Some (mkTimer c (backoff_delay a) Pending).
Proof.
  intros [_ Hl (ts & Ht & _)].
  assert (Hp : reconnect_pending c st = true).
  { unfold reconnect_pending. rewrite Ht, existsb_app. cbn.
    unfold pending_of. cbn. rewrite !bool_decide_eq_true_2 by done.
    apply orb_true_r. }
  split_and!; [done| | |].
  - unfold failed. rewrite Hp. cbn. by rewrite andb_false_r.
  - unfold connecting. apply existsb_false_Forall.
    unfold live in Hl. apply Forall_forall. intros s Hin.
    destruct (connecting_of c s) eqn:E; [|done].
    unfold connecting_of in E. apply andb_true_iff in E as [E1 E2].
    apply bool_decide_eq_true_1 in E1, E2.
    assert (live_of c s = true).
    { unfold live_of. rewrite bool_decide_eq_true_2 by done.
      rewrite bool_decide_eq_false_2 by congruence. done. }
    assert (existsb (live_of c) (sockets st) = true); [|congruence].
    apply existsb_exists. exists s. split; [|done]. by apply list_elem_of_In.
  - rewrite Ht. apply last_snoc.
Qed.

Lemma last_index {A : Type} (l : list A) (x : A) :
  length (l ++ [x]) - 1 = length l ∧ (l ++ [x]) !! length l = Some x.
Proof.
  split.
  - rewrite length_app. cbn. lia.
  - rewrite lookup_app_r by done. by rewrite Nat.sub_diag.
Qed.

Lemma alter_last {A : Type} (f : A → A) (l : list A) (x : A) :
  alter f (length l) (l ++ [x]) = l ++ [f x].
Proof. rewrite alter_app_r_alt by done. by rewrite Nat.sub_diag. Qed.

(** An abnormal closure below the ceiling: the socket is gone and a timer
    with the backoff delay of the current attempt is pending. *)
Lemma close_retry (c a : nat) (st : Hook) (code : Z) :
  Retrying c a st → a < maxReconnectAttempts → abnormal code →
  ∃ st1, step (EvClose (length (sockets st) - 1) code) st = Some st1
    ∧ Waiting c a st1
    ∧ length (sockets st1) = length (sockets st)
    ∧ length (timers st1) = S (length (timers st))
    ∧ error st1 = error st.
Proof.
  intros [(cl & Hcl & Ha) (ss & s & Hss & Ho & Hr & Hlive) Hpend] Hlt Hab.
  destruct (last_index ss s) as [Hi Hs]. rewrite <- Hss in Hi, Hs. rewrite Hi.
  rewrite (step_close_eq st _ s code Hs) by congruence.
  subst c a. pose proof Hab as (Hc & _).
  erewrite onclose_retry;
    [|exact Hcl|by apply abnormal_not_unauthorized|done|done].
  eexists. split; [reflexivity|].
  cbn [sockets timers closures error set_closures set_timers set_isConnected set_sockets].
  split_and!; [|by rewrite length_alter|rewrite length_app; cbn; lia|done].
  split; cbn [sockets timers closures set_closures set_timers set_isConnected set_sockets].
  - exists (set_timeout (Some (length (timers st))) cl).
    by rewrite list_lookup_alter_eq, Hcl.
  - unfold live. cbn [sockets set_closures set_timers set_isConnected set_sockets].
    rewrite Hss, alter_last, existsb_app, Hlive. cbn.
    unfold live_of. cbn. by rewrite andb_false_r.
  - by exists (timers st).
Qed.

(** An abnormal closure at the ceiling: terminal failure. *)
Lemma close_exhausted (c a : nat) (st : Hook) (code : Z) :
  Retrying c a st → maxReconnectAttempts ≤ a → abnormal code →
  ∃ st1, step (EvClose (length (sockets st) - 1) code) st = Some st1
    ∧ failed c st1 = true ∧ reconnect_pending c st1 = false
    ∧ connecting c st1 = false
    ∧ error st1 = Some "Could not reconnect to chat. Please refresh the page."
    ∧ timers st1 = timers st.
Proof.
  intros [(cl & Hcl & Ha) (ss & s & Hss & Ho & Hr & Hlive) Hpend] Hge Hab.
  destruct (last_index ss s) as [Hi Hs]. rewrite <- Hss in Hi, Hs. rewrite Hi.
  rewrite (step_close_eq st _ s code Hs) by congruence.
  subst c a.
  erewrite onclose_exhausted;
    [|exact Hcl|by apply abnormal_not_unauthorized|done].
  eexists. split; [reflexivity|].
  assert (Hl : existsb (live_of (s_owner s))
                 (alter (ws_set_state CLOSED) (length ss) (sockets st)) = false).
  { rewrite Hss, alter_last, existsb_app, Hlive. cbn.
    unfold live_of. cbn. by rewrite andb_false_r. }
  split_and!; [| | |done|done].
  - unfold failed, terminal_error, live, reconnect_pending in *.
    cbn [sockets timers error set_error set_isConnected set_sockets].
    by rewrite Hpend, Hl.
  - exact Hpend.
  - unfold connecting. cbn [sockets set_error set_isConnected set_sockets].
    rewrite Hss, alter_last. apply existsb_false_Forall, Forall_app. split.
    + apply Forall_forall. intros s' Hin.
      destruct (connecting_of (s_owner s) s') eqn:E; [|done].
      unfold connecting_of in E. apply andb_true_iff in E as [E1 E2].
      apply bool_decide_eq_true_1 in E1, E2.
      assert (existsb (live_of (s_owner s)) ss = true); [|congruence].
      apply existsb_exists. exists s'. split; [by apply list_elem_of_In|].
      unfold live_of. rewrite bool_decide_eq_true_2 by done.
      by rewrite bool_decide_eq_false_2 by congruence.
    + apply Forall_singleton. unfold connecting_of. cbn. apply andb_false_r.
Qed.

(** The reconnect timer fires: one more attempt, one more socket. *)
Lemma timer_retry (c a : nat) (st : Hook) :
  Waiting c a st →
  ∃ st2, step (EvTimer (length (timers st) - 1) true) st = Some st2
    ∧ Retrying c (S a) st2
    ∧ length (sockets st2) = S (length (sockets st))
    ∧ length (timers st2) = length (timers st).
Proof.
  intros [(cl & Hcl & Ha) Hlive (ts & Hts & Hpend)].
  destruct (last_index ts (mkTimer c (backoff_delay a) Pending)) as [Hi Ht].
  rewrite <- Hts in Hi, Ht. rewrite Hi.
  cbn [step]. rewrite Ht. cbn [mbind option_bind t_state t_owner].
  rewrite bool_decide_eq_true_2 by done.
  unfold ontimer. cbn [closures set_timers]. rewrite Hcl. cbn [mbind option_bind].
  unfold connectWebSocket. cbn [closures set_closures].
  rewrite list_lookup_alter_eq, Hcl. cbn [fmap option_fmap option_map mbind option_bind].
  eexists. split; [reflexivity|].
  cbn [sockets timers set_socketRef set_sockets set_closures set_timers].
  split_and!; [|rewrite length_app; cbn; lia|by rewrite length_alter].
  split; cbn [sockets timers closures set_socketRef set_sockets set_closures set_timers].
  - exists (set_attempts (S (reconnectAttempts cl)) cl).
    rewrite list_lookup_alter_eq, Hcl. cbn. split; [done|]. by rewrite Ha.
  - eexists _, _. split; [reflexivity|]. by split_and!.
  - unfold reconnect_pending.
    cbn [timers set_socketRef set_sockets set_closures set_timers].
    rewrite Hts, alter_last, existsb_app, Hpend.
    cbn. unfold pending_of. cbn. by rewrite andb_false_r.
Qed.

Lemma WF_nothing_of_next (st : Hook) :
  WF st →
  existsb (live_of (length (closures st))) (sockets st) = false
  ∧ existsb (pending_of (length (closures st))) (timers st) = false.
Proof.
  intros [H1 H2 _]. split; apply existsb_false_Forall.
  - eapply Forall_impl; [exact H1|]. intros s [Ho _]. unfold live_of.
    rewrite bool_decide_eq_false_2 by lia. done.
  - eapply Forall_impl; [exact H2|]. unfold timer_ok, pending_of. intros tm Ho.
    rewrite bool_decide_eq_false_2 by lia. done.
Qed.

(** A bind with a good identifier and a token, when the socket can be
    made: a new effect run with its first socket connecting. *)
Lemma bind_fresh (st0 : Hook) (ch tok : string) (env : Env) :
  WF st0 → ch ≠ "" → ch ≠ "undefined" → getToken env = Some tok → ws_ok env = true →
  ∃ st1, step (EvBind (Some ch) env) st0 = Some st1
    ∧ Retrying (length (closures st0)) 0 st1
    ∧ length (sockets st1) = S (length (sockets st0))
    ∧ length (timers st1) = length (timers st0).
Proof.
  intros Hwf H1 H2 Htok Hok.
  destruct (run_cleanup_total st0 Hwf) as [st' Hc].
  pose proof (WF_run_cleanup _ _ Hwf Hc) as Hwf'.
  destruct (run_cleanup_frame _ _ Hc) as (Hcl & Hlt & Hls).
  cbn [step]. rewrite Hc. cbn [mbind option_bind].
  rewrite <- Hcl, <- Hlt, <- Hls. clear Hc Hcl Hlt Hls Hwf st0.
  assert (Hwf2 : WF (close_current (set_processedMessageIds [] (set_messages [] st')))).
  { apply WF_close_current. by eapply WF_frame; [..|exact Hwf']. }
  destruct (close_current_frame (set_processedMessageIds [] (set_messages [] st')))
    as (Hc1 & Hc2 & Hc3).
  destruct (WF_nothing_of_next _ Hwf2) as [Hl Hp].
  unfold effect. cbn [nonempty].
  apply String.eqb_neq in H1, H2. rewrite H1, H2, Htok, Hok.
  unfold connectWebSocket. cbn [closures set_closures].
  rewrite lookup_app_r by done. rewrite Nat.sub_diag.
  cbn [lookup list_lookup mbind option_bind].
  eexists. split; [reflexivity|].
  cbn [sockets timers set_cleanup set_socketRef set_sockets set_closures].
  rewrite Hc1 in Hl, Hp. cbn [closures set_processedMessageIds set_messages] in Hl, Hp.
  split_and!; [|rewrite length_app, Hc3; cbn; lia|by rewrite Hc2].
  split; cbn [sockets timers closures set_cleanup set_socketRef set_sockets set_closures].
  - eexists. rewrite Hc1. cbn [closures set_processedMessageIds set_messages].
    rewrite lookup_app_r by done. rewrite Nat.sub_diag. cbn. split; reflexivity.
  - eexists _, _. split; [reflexivity|].
    cbn [s_owner readyState]. rewrite Hc1. by split_and!.
  - exact Hp.
Qed.

Lemma closures_run (c : nat) (codes : list Z) :
  ∀ (a : nat) (st : Hook),
    Retrying c a st → Forall abnormal codes → codes ≠ [] →
    a + length codes ≤ S maxReconnectAttempts →
    ∃ st', run (closures_trace (length (sockets st) - 1) (length (timers st)) codes) st
           = Some st'
      ∧ (a + length codes ≤ maxReconnectAttempts →
         Waiting c (a + length codes - 1) st')
      ∧ (a + length codes = S maxReconnectAttempts →
         failed c st' = true ∧ reconnect_pending c st' = false
         ∧ connecting c st' = false
         ∧ error st' = Some "Could not reconnect to chat. Please refresh the page.").
Proof.
  induction codes as [|code rest IH]; intros a st Hrt Hab Hne Hlen; [done|].
  apply Forall_cons in Hab as [Hcode Hrest].
  destruct rest as [|code2 rest'].
  - cbn [closures_trace run length] in *.
    destruct (le_lt_dec maxReconnectAttempts a) as [Hge|Hlt].
    + destruct (close_exhausted c a st code Hrt Hge Hcode)
        as (st1 & Hs & Hf & Hp & Hc & He & _).
      exists st1. rewrite Hs. split; [done|]. split; [lia|done].
    + destruct (close_retry c a st code Hrt Hlt Hcode) as (st1 & Hs & Hw & _).
      exists st1. rewrite Hs. split; [done|]. split; [|lia].
      intros _. by replace (a + 1 - 1) with a by lia.
  - assert (Hlt : a < maxReconnectAttempts) by (cbn [length] in Hlen; lia).
    destruct (close_retry c a st code Hrt Hlt Hcode) as (st1 & Hs & Hw & Hl1 & Ht1 & _).
    destruct (timer_retry c a st1 Hw) as (st2 & Hs2 & Hr2 & Hl2 & Ht2).
    rewrite Ht1 in Hs2. cbn [Nat.sub] in Hs2. rewrite Nat.sub_0_r in Hs2.
    destruct (IH (S a) st2 Hr2 Hrest) as (st' & Hrun & Hwait & Hfail);
      [done|cbn [length] in *; lia|].
    assert (Hpos : 0 < length (sockets st)).
    { destruct Hrt as [_ (ss & s & -> & _) _]. rewrite length_app. cbn. lia. }
    exists st'. split.
    + change (closures_trace (length (sockets st) - 1) (length (timers st))
                (code :: code2 :: rest'))
        with (EvClose (length (sockets st) - 1) code
              :: EvTimer (length (timers st)) true
              :: closures_trace (S (length (sockets st) - 1)) (S (length (timers st)))
                   (code2 :: rest')).
      cbn [run]. rewrite Hs. cbn [mbind option_bind]. rewrite Hs2. cbn [mbind option_bind].
      rewrite Hl2, Hl1, Ht2, Ht1 in Hrun.
      replace (S (length (sockets st) - 1)) with (S (length (sockets st)) - 1) by lia.
      exact Hrun.
    + cbn [length] in *. split.
      * intros H. replace (a + S (S (length rest')) - 1)
          with (S a + S (length rest') - 1) by lia. apply Hwait. lia.
      * intros H. apply Hfail. lia.
Qed.

(** C2, as the code has it: from a fresh bind, after N abnormal closures in
    a row with no open in between, for N from 1 to 5 a reconnect timer with
    the delay of attempt N-1 is pending and the controller has not failed
    (for N = 0 the first socket is connecting); after the sixth closure, that
    of the fifth reconnect attempt, the controller has failed for good: the
    "could not reconnect" error is shown, no timer is pending and no socket
    is left. *)
Theorem abnormal_closures_outcome
    (tr : list Event) (st0 : Hook) (ch tok : string) (env : Env) (codes : list Z)
    (Hrun : run tr initial = Some st0)
    (Hch : ch ≠ "") (Hch' : ch ≠ "undefined")
    (Htok : getToken env = Some tok) (Hok : ws_ok env = true)
    (Hab : Forall abnormal codes)
    (Hlen : length codes ≤ 6) :
  ∃ st, run (EvBind (Some ch) env
             :: closures_trace (length (sockets st0)) (length (timers st0)) codes) st0
        = Some st
    ∧ (length codes = 0 →
       connecting (length (closures st0)) st = true
       ∧ failed (length (closures st0)) st = false)
    ∧ (1 ≤ length codes ≤ 5 →
       reconnect_pending (length (closures st0)) st = true
       ∧ failed (length (closures st0)) st = false
       ∧ last (timers st)
         = Some (mkTimer (length (closures st0)) (backoff_delay (length codes - 1)) Pending))
    ∧ (length codes = 6 →
       failed (length (closures st0)) st = true
       ∧ reconnect_pending (length (closures st0)) st = false
       ∧ connecting (length (closures st0)) st = false
       ∧ error st = Some "Could not reconnect to chat. Please refresh the page.").
Proof.
  pose proof (WF_reachable tr st0 Hrun) as Hwf.
  destruct (bind_fresh st0 ch tok env Hwf Hch Hch' Htok Hok)
    as (st1 & Hs & Hrt & Hl & Ht).
  cbn [run]. rewrite Hs. cbn [mbind option_bind].
  destruct codes as [|code rest].
  - exists st1. split; [done|].
    destruct (Retrying_observed _ _ _ Hrt) as [Hc Hf].
    split; [done|]. cbn [length]. split; intros; lia.
  - destruct (closures_run (length (closures st0)) (code :: rest) 0 st1 Hrt Hab)
      as (st & Hr & Hwait & Hfail); [done|cbn [length] in *; unfold maxReconnectAttempts; lia|].
    rewrite Hl, Ht in Hr. cbn [Nat.sub] in Hr. rewrite Nat.sub_0_r in Hr.
    exists st. split; [exact Hr|].
    cbn [length Nat.add] in *. unfold maxReconnectAttempts in *.
    split; [intros; lia|]. split.
    + intros H. destruct (Waiting_observed _ _ _ (Hwait ltac:(lia))) as (Hp & Hf & _ & Hlast).
      by split_and!.
    + intros H. apply Hfail. lia.
Qed.

Lemma abnormal_closures_outcome_witness :
  ∃ st, run (EvBind (Some "general") env_tok
             :: closures_trace 0 0 [1006; 1006; 1006; 1006; 1006; 1006]%Z) initial
        = Some st
    ∧ failed 0 st = true
    ∧ error st = Some "Could not reconnect to chat. Please refresh the page.".
Proof.
  destruct (abnormal_closures_outcome [] initial "general" "tok" env_tok
              [1006; 1006; 1006; 1006; 1006; 1006]%Z
              eq_refl ltac:(discriminate) ltac:(discriminate) eq_refl eq_refl
              ltac:(repeat constructor; discriminate) ltac:(cbn; lia))
    as (st & Hr & _ & _ & Hf).
  exists st. split; [exact Hr|].
  destruct (Hf eq_refl) as (H1 & _ & _ & H4). split; [exact H1|exact H4].
Defined.

(** C2 as stated fails at N = 5: after five abnormal closures in a row the
    fifth reconnect is scheduled, with a delay of 16000 ms, and the
    controller has not failed. *)
Lemma five_closures_counterexample :
  (fun st => (failed 0 st, reconnect_pending 0 st, last (timers st), error st))
    <$> run (EvBind (Some "general") env_tok
             :: closures_trace 0 0 [1006; 1006; 1006; 1006; 1006]%Z) initial
  = Some (false, true, Some (mkTimer 0 16000 Pending), None).
Proof. vm_compute. reflexivity. Qed.

(** * Further properties of the hook *)

(** ** The visible list and the ledger *)

Lemma assoc_set_same (k : string) (v : json) (ps : list (string * json)) :
  assoc k (assoc_set k v ps) = Some v.
Proof.
  induction ps as [|[k0 v0] ps IH]; cbn.
  - by rewrite String.eqb_refl.
  - destruct (String.eqb k k0) eqn:E; cbn; [by rewrite String.eqb_refl|].
    by rewrite E.
Qed.

Lemma is_chat_object (data : json) : is_chat data = true → ∃ ps, data = JObj ps.
Proof. destruct data; try done. by eexists. Qed.

Lemma normalize_shown (data : json) : is_chat data = true → shown_ok (normalize data).
Proof.
  intros Hc. destruct (is_chat_object data Hc) as [ps ->].
  unfold normalize, shown_ok.
  destruct (truthy (prop (JObj ps) "media_url")) eqn:Hm.
  - rewrite orb_true_r. unfold is_chat. cbn [set_prop prop].
    rewrite assoc_set_same. cbn. done.
  - rewrite orb_false_r. destruct (is_str _ "media"); by rewrite Hc, Hm.
Qed.

Lemma Mirror_step (e : Event) (st st' : Hook) : Mirror st → step e st = Some st' → Mirror st'.
Proof.
  unfold Mirror. intros Hm Hs. apply step_view in Hs.
  destruct e as [| | |i raw| | | |];
    try (apply view_eq in Hs as [-> ->]; done).
  - by injection Hs as -> ->.
  - subst st'. destruct raw as [|data]; [done|].
    destruct (is_chat data) eqn:Hc; [|by rewrite onmessage_other].
    destruct (set_has (prop data "id") (processedMessageIds st)) eqn:Hh;
      [by rewrite onmessage_drop|].
    rewrite onmessage_accept by done.
    cbn [messages processedMessageIds set_messages set_processedMessageIds].
    by rewrite map_app, Hm; cbn; rewrite normalize_id.
Qed.

Lemma Shown_step (e : Event) (st st' : Hook) :
  Forall shown_ok (messages st) → step e st = Some st' → Forall shown_ok (messages st').
Proof.
  intros Hm Hs. apply step_view in Hs.
  destruct e as [| | |i raw| | | |];
    try (apply view_eq in Hs as [-> _]; done).
  - injection Hs as -> _. constructor.
  - subst st'. destruct raw as [|data]; [done|].
    destruct (is_chat data) eqn:Hc; [|by rewrite onmessage_other].
    destruct (set_has (prop data "id") (processedMessageIds st)) eqn:Hh;
      [by rewrite onmessage_drop|].
    rewrite onmessage_accept by done. cbn [messages set_messages].
    apply Forall_app. split; [done|]. apply Forall_singleton.
    by apply normalize_shown.
Qed.

Lemma run_invariant (P : Hook → Prop) :
  (∀ e st st', P st → step e st = Some st' → P st') →
  ∀ tr st st', P st → run tr st = Some st' → P st'.
Proof.
  intros Hstep tr. induction tr as [|e tr IH]; intros st st' HP Hr; cbn in Hr.
  - by inversion Hr; subst.
  - destruct (step e st) as [st1|] eqn:Hs; [|done]. cbn in Hr.
    eapply IH; [|exact Hr]. by eapply Hstep.
Qed.

(** X1: in every reachable state the ledger is exactly the list of the
    identifiers of the visible entries, in the same order. *)
Theorem ledger_mirrors_list (tr : list Event) (st : Hook)
    (Hrun : run tr initial = Some st) :
  processedMessageIds st = map (fun e => prop e "id") (messages st)
  ∧ length (processedMessageIds st) = length (messages st).
Proof.
  assert (Hm : Mirror st).
  { eapply (run_invariant Mirror); [apply Mirror_step| |exact Hrun]. done. }
  split; [exact Hm|]. rewrite Hm. apply length_map.
Qed.

Lemma ledger_mirrors_list_witness :
  [Some (JStr "m1"); None] = map (fun e => prop e "id") [envelope_m1; envelope_noid].
Proof.
  exact (proj1 (ledger_mirrors_list
                  [EvBind (Some "general") env_tok; EvOpen 0;
                   EvMessage 0 (Parsed envelope_m1); EvMessage 0 (Parsed envelope_noid)]
                  (set_messages [envelope_m1; envelope_noid]
                     (set_processedMessageIds [Some (JStr "m1"); None] opened))
                  eq_refl)).
Defined.

(** X2: every entry of the visible list, in every reachable state, has kind
    message or media, and kind media whenever it carries a media reference:
    notices of other kinds are never shown. *)
Theorem shown_entries_are_chat (tr : list Event) (st : Hook) (e : json)
    (Hrun : run tr initial = Some st) (Hin : In e (messages st)) :
  (is_str (prop e "type") "message" = true ∨ is_str (prop e "type") "media" = true)
  ∧ (truthy (prop e "media_url") = true → prop e "type" = Some (JStr "media")).
Proof.
  assert (Hm : Forall shown_ok (messages st)).
  { eapply (run_invariant (fun st => Forall shown_ok (messages st)));
      [apply Shown_step| |exact Hrun]. constructor. }
  rewrite Forall_forall in Hm. apply list_elem_of_In in Hin.
  destruct (Hm e Hin) as [Hc Hmedia]. split.
  - unfold is_chat in Hc. by apply orb_true_iff in Hc.
  - intros Ht. specialize (Hmedia Ht). unfold is_str in Hmedia.
    destruct (prop e "type") as [[| | |x| |]|]; try done.
    apply String.eqb_eq in Hmedia. by subst.
Qed.

Lemma shown_entries_are_chat_witness :
  is_str (prop envelope_m1 "type") "message" = true
  ∨ is_str (prop envelope_m1 "type") "media" = true.
Proof.
  exact (proj1 (shown_entries_are_chat
                  [EvBind (Some "general") env_tok; EvOpen 0;
                   EvMessage 0 (Parsed envelope_m1)]
                  (set_messages [envelope_m1]
                     (set_processedMessageIds [Some (JStr "m1")] opened))
                  envelope_m1 eq_refl (or_introl eq_refl))).
Defined.

Local Ltac nothing_added :=
  exists []; rewrite !app_nil_r; cbn; split_and!; [lia|done|done].

Lemma step_appends (e : Event) (st st' : Hook) :
  is_bind e = false → step e st = Some st' →
  ∃ more, length more ≤ 1 ∧ messages st' = messages st ++ more
          ∧ processedMessageIds st'
            = processedMessageIds st ++ map (fun e => prop e "id") more.
Proof.
  intros He Hs. apply step_view in Hs.
  destruct e as [| | |i raw| | | |]; try done;
    try (apply view_eq in Hs as [-> ->]; nothing_added).
  subst st'. destruct raw as [|data]; [nothing_added|].
  destruct (is_chat data) eqn:Hc;
    [|rewrite onmessage_other by done; nothing_added].
  destruct (set_has (prop data "id") (processedMessageIds st)) eqn:Hh;
    [rewrite onmessage_drop by done; nothing_added|].
  rewrite onmessage_accept by done. exists [normalize data].
  cbn. by rewrite normalize_id.
Qed.

(** X3: within one subscription the visible list only grows at its end:
    what was shown stays shown, in the same order, and the ledger grows by
    the identifiers of the entries added. *)
Theorem list_append_only (tr : list Event) (st st' : Hook)
    (Hsub : same_subscription tr) (Hrun : run tr st = Some st') :
  ∃ more, messages st' = messages st ++ more
          ∧ processedMessageIds st'
            = processedMessageIds st ++ map (fun e => prop e "id") more
          ∧ length more ≤ length tr.
Proof.
  revert st Hsub Hrun. induction tr as [|e tr IH]; intros st Hsub Hr; cbn in Hr.
  - inversion Hr; subst. exists []. by rewrite !app_nil_r.
  - unfold same_subscription in Hsub. cbn [forallb] in Hsub.
    apply andb_true_iff in Hsub as [He Hsub]. apply negb_true_iff in He.
    destruct (step e st) as [st1|] eqn:Hs; [|done]. cbn in Hr.
    destruct (step_appends e st st1 He Hs) as (m1 & Hl1 & Hm1 & Hp1).
    destruct (IH st1 Hsub Hr) as (m2 & Hm2 & Hp2 & Hl2).
    exists (m1 ++ m2). rewrite Hm2, Hp2, Hm1, Hp1, map_app, !app_assoc.
    split_and!; [done|done|]. rewrite length_app. cbn. lia.
Qed.

Lemma list_append_only_witness :
  ∃ more, [envelope_m1] = [] ++ more.
Proof.
  destruct (list_append_only
              [EvMessage 0 (Parsed envelope_m1); EvMessage 0 (Parsed envelope_m1)]
              opened
              (set_messages [envelope_m1]
                 (set_processedMessageIds [Some (JStr "m1")] opened))
              eq_refl eq_refl) as (more & Hm & _).
  exists more. exact Hm.
Defined.

(** ** Sockets, timers and effect runs *)

Lemma lookup_alter_inv {A : Type} (f : A → A) (l : list A) (i j : nat) (y : A) :
  alter f i l !! j = Some y →
  ∃ x, l !! j = Some x ∧ ((i ≠ j ∧ y = x) ∨ (i = j ∧ y = f x)).
Proof.
  rewrite list_lookup_alter. case_decide as Hij.
  - subst j. destruct (l !! i) as [x|]; [|done]. cbn. intros [= <-]. eauto.
  - intros Hy. eauto.
Qed.

Lemma Lifecycle_frame (st st' : Hook) :
  sockets st' = sockets st → timers st' = timers st → closures st' = closures st →
  Lifecycle st → Lifecycle st'.
Proof. intros Hs Ht Hc [H1 H2 H3 H4 H5 H6 H7]. split; rewrite ?Hs, ?Ht, ?Hc; done. Qed.

Lemma no_live_frame (c : nat) (st st' : Hook) :
  sockets st' = sockets st → no_live c st → no_live c st'.
Proof. unfold no_live. by intros ->. Qed.

Lemma no_pending_frame (c : nat) (st st' : Hook) :
  timers st' = timers st → no_pending c st → no_pending c st'.
Proof. unfold no_pending. by intros ->. Qed.

(** A socket changed in place, staying with its effect run and not coming
    back from the closed state. *)
Lemma Lifecycle_alter_socket (f : Socket → Socket) (i : nat) (st : Hook) :
  (∀ s, sockets st !! i = Some s →
        s_owner (f s) = s_owner s ∧ s_url (f s) = s_url s
        ∧ (readyState (f s) ≠ CLOSED → readyState s ≠ CLOSED)) →
  Lifecycle st → Lifecycle (set_sockets (alter f i (sockets st)) st).
Proof.
  intros Hf [H1 H2 H3 H4 H5 H6 H7].
  assert (Hinv : ∀ j y, alter f i (sockets st) !! j = Some y →
            ∃ x, sockets st !! j = Some x ∧ s_owner y = s_owner x ∧ s_url y = s_url x
                 ∧ (readyState y ≠ CLOSED → readyState x ≠ CLOSED)).
  { intros j y Hy. apply lookup_alter_inv in Hy as (x & Hx & [[_ ->]|[<- ->]]);
      exists x; [done|]. destruct (Hf x Hx) as (? & ? & ?). done. }
  split; cbn [sockets timers closures set_sockets]; try done.
  - intros j k s s' Hs Hs' Ho Hl Hl'.
    apply Hinv in Hs as (x & Hx & Hox & _ & Hlx).
    apply Hinv in Hs' as (x' & Hx' & Hox' & _ & Hlx').
    apply (H2 j k x x'); [done|done|congruence|auto|auto].
  - intros j s t tm Hs Ht Hl Hp.
    apply Hinv in Hs as (x & Hx & Hox & _ & Hlx). rewrite Hox.
    by apply (H3 j x t tm); auto.
  - intros j s Hs. apply Hinv in Hs as (x & Hx & Hox & Hux & _).
    rewrite Hox, Hux. by apply (H6 j).
Qed.

Lemma no_live_alter_socket (f : Socket → Socket) (c i : nat) (st : Hook) :
  (∀ s, sockets st !! i = Some s →
        s_owner (f s) = s_owner s ∧ (readyState (f s) ≠ CLOSED → readyState s ≠ CLOSED)) →
  no_live c st → no_live c (set_sockets (alter f i (sockets st)) st).
Proof.
  intros Hf Hn j y Hy Hl. cbn in Hy.
  apply lookup_alter_inv in Hy as (x & Hx & [[_ ->]|[<- ->]]); [by eapply Hn|].
  destruct (Hf x Hx) as [-> Hlx]. eapply Hn; [exact Hx|auto].
Qed.

(** A timer changed in place, staying with its effect run and not becoming
    pending again. *)
Lemma Lifecycle_alter_timer (f : Timer → Timer) (t : nat) (st : Hook) :
  (∀ tm, timers st !! t = Some tm →
         t_owner (f tm) = t_owner tm ∧ t_delay (f tm) = t_delay tm
         ∧ (t_state (f tm) = Pending → f tm = tm)) →
  Lifecycle st → Lifecycle (set_timers (alter f t (timers st)) st).
Proof.
  intros Hf [H1 H2 H3 H4 H5 H6 H7].
  assert (Hinv : ∀ j y, alter f t (timers st) !! j = Some y →
            ∃ x, timers st !! j = Some x ∧ t_owner y = t_owner x ∧ t_delay y = t_delay x
                 ∧ (t_state y = Pending → y = x)).
  { intros j y Hy. apply lookup_alter_inv in Hy as (x & Hx & [[_ ->]|[<- ->]]);
      exists x; [done|]. destruct (Hf x Hx) as (? & ? & ?). done. }
  split; cbn [sockets timers closures set_timers]; try done.
  - intros j tm Ht Hp. apply Hinv in Ht as (x & Hx & _ & _ & Heq).
    assert (tm = x) as -> by auto. by apply H1.
  - intros j s k tm Hs Ht Hl Hp. apply Hinv in Ht as (x & Hx & _ & _ & Heq).
    assert (tm = x) as -> by auto. by apply (H3 j s k x).
  - intros j tm Ht. apply Hinv in Ht as (x & Hx & _ & -> & _). by apply (H5 j).
Qed.

Lemma no_pending_alter_timer (f : Timer → Timer) (c t : nat) (st : Hook) :
  (∀ tm, t_state (f tm) = Pending → f tm = tm) →
  no_pending c st → no_pending c (set_timers (alter f t (timers st)) st).
Proof.
  intros Hf Hn j y Hy Hp. cbn in Hy.
  apply lookup_alter_inv in Hy as (x & Hx & [[_ ->]|[_ ->]]); [by eapply Hn|].
  rewrite (Hf x Hp) in Hp |- *. by eapply Hn.
Qed.

(** The attempt counter of a run with no pending timer is set. *)
Lemma Lifecycle_set_attempts (c n : nat) (st : Hook) :
  n ≤ maxReconnectAttempts → no_pending c st →
  Lifecycle st →
  Lifecycle (set_closures (alter (set_attempts n) c (closures st)) st).
Proof.
  intros Hn Hnp [H1 H2 H3 H4 H5 H6 H7].
  assert (Hinv : ∀ k cl, closures st !! k = Some cl →
            ∃ cl', alter (set_attempts n) c (closures st) !! k = Some cl'
                   ∧ channelId cl' = channelId cl ∧ token cl' = token cl
                   ∧ reconnectTimeout cl' = reconnectTimeout cl
                   ∧ (k ≠ c → cl' = cl)).
  { intros k cl Hk. rewrite list_lookup_alter. case_decide as Hck.
    - subst k. rewrite Hk. cbn. eexists. split; [done|]. by split_and!.
    - exists cl. by split_and!. }
  split; cbn [sockets timers closures set_closures]; try done.
  - intros t tm Ht Hp. destruct (H1 t tm Ht Hp) as (cl & Hcl & Hh & Ha & Hd).
    destruct (Hinv _ _ Hcl) as (cl' & Hcl' & _ & _ & _ & Heq).
    rewrite (Heq (Hnp t tm Ht Hp)) in Hcl'. by exists cl.
  - intros k cl' Hk. apply lookup_alter_inv in Hk as (cl & Hcl & [[_ ->]|[_ ->]]);
      [by eapply H4|done].
  - intros i s Hs. destruct (H6 i s Hs) as (cl & Hcl & Hu).
    destruct (Hinv _ _ Hcl) as (cl' & Hcl' & Hch & _). exists cl'. by rewrite Hch.
  - intros k cl' Hk. apply lookup_alter_inv in Hk as (cl & Hcl & [[_ ->]|[_ ->]]);
      cbn; by eapply H7.
Qed.

(** [onclose] schedules a reconnect for a run that has nothing left. *)
Lemma Lifecycle_schedule (c : nat) (cl : Closure) (st : Hook) :
  closures st !! c = Some cl →
  reconnectAttempts cl < maxReconnectAttempts →
  no_live c st → no_pending c st →
  Lifecycle st →
  Lifecycle
    (set_closures (alter (set_timeout (Some (length (timers st)))) c (closures st))
       (set_timers (timers st ++ [mkTimer c (backoff_delay (reconnectAttempts cl)) Pending])
          st)).
Proof.
  intros Hc Ha Hnl Hnp [H1 H2 H3 H4 H5 H6 H7].
  assert (Hinv : ∀ k cl0, closures st !! k = Some cl0 →
            ∃ cl', alter (set_timeout (Some (length (timers st)))) c (closures st) !! k
                   = Some cl'
                   ∧ channelId cl' = channelId cl0 ∧ token cl' = token cl0
                   ∧ reconnectAttempts cl' = reconnectAttempts cl0
                   ∧ (k ≠ c → cl' = cl0)
                   ∧ (k = c → reconnectTimeout cl' = Some (length (timers st)))).
  { intros k cl0 Hk. rewrite list_lookup_alter. case_decide as Hck.
    - subst k. rewrite Hk. cbn. eexists. split; [done|]. by split_and!.
    - exists cl0. by split_and!. }
  split; cbn [sockets timers closures set_closures set_timers]; try done.
  - intros t tm Ht Hp. apply lookup_snoc_Some in Ht as [[Hlt Ht]|[-> <-]].
    + destruct (H1 t tm Ht Hp) as (cl0 & Hcl0 & Hh & Ha0 & Hd).
      destruct (Hinv _ _ Hcl0) as (cl' & Hcl' & _ & _ & _ & Heq & _).
      rewrite (Heq (Hnp t tm Ht Hp)) in Hcl'. by exists cl0.
    + cbn. destruct (Hinv _ _ Hc) as (cl' & Hcl' & _ & _ & Hat & _ & Hh).
      exists cl'. rewrite Hat. by split_and!; [|apply Hh|..].
  - intros i s t tm Hs Ht Hl Hp. apply lookup_snoc_Some in Ht as [[Hlt Ht]|[-> <-]].
    + by apply (H3 i s t tm).
    + cbn. by eapply Hnl.
  - intros k cl' Hk. apply lookup_alter_inv in Hk as (cl0 & Hcl0 & [[_ ->]|[_ ->]]);
      cbn; by eapply H4.
  - intros t tm Ht. apply lookup_snoc_Some in Ht as [[Hlt Ht]|[-> <-]].
    + by apply (H5 t).
    + by exists (reconnectAttempts cl).
  - intros i s Hs. destruct (H6 i s Hs) as (cl0 & Hcl0 & Hu).
    destruct (Hinv _ _ Hcl0) as (cl' & Hcl' & Hch & _). exists cl'. by rewrite Hch.
  - intros k cl' Hk. apply lookup_alter_inv in Hk as (cl0 & Hcl0 & [[_ ->]|[_ ->]]);
      cbn; by eapply H7.
Qed.

(** A new socket for a run that has nothing left. *)
Lemma Lifecycle_connect (c : nat) (cl : Closure) (st : Hook) :
  closures st !! c = Some cl → no_live c st → no_pending c st →
  Lifecycle st →
  Lifecycle (set_sockets (sockets st ++ [mkSocket c (wsUrl (channelId cl)) CONNECTING []]) st).
Proof.
  intros Hc Hnl Hnp [H1 H2 H3 H4 H5 H6 H7].
  split; cbn [sockets timers closures set_sockets]; try done.
  - intros i j s s' Hs Hs' Ho Hl Hl'.
    apply lookup_snoc_Some in Hs as [[Hlt Hs]|[-> <-]];
      apply lookup_snoc_Some in Hs' as [[Hlt' Hs']|[-> <-]].
    + by apply (H2 i j s s').
    + cbn in Ho. by destruct (Hnl i s Hs Hl).
    + cbn in Ho. by destruct (Hnl j s' Hs' Hl').
    + done.
  - intros i s t tm Hs Ht Hl Hp. apply lookup_snoc_Some in Hs as [[Hlt Hs]|[-> <-]].
    + by apply (H3 i s t tm).
    + cbn. intros Heq. by destruct (Hnp t tm Ht Hp).
  - intros i s Hs. apply lookup_snoc_Some in Hs as [[Hlt Hs]|[-> <-]].
    + by apply (H6 i).
    + by exists cl.
Qed.

(** A new effect run. *)
Lemma Lifecycle_new_closure (ch tok : string) (st : Hook) :
  ch ≠ "" → ch ≠ "undefined" → tok ≠ "" →
  Lifecycle st →
  Lifecycle (set_closures (closures st ++ [mkClosure ch tok 0 None]) st).
Proof.
  intros Hch Hch' Htok [H1 H2 H3 H4 H5 H6 H7].
  split; cbn [sockets timers closures set_closures]; try done.
  - intros t tm Ht Hp. destruct (H1 t tm Ht Hp) as (cl & Hcl & Hrest).
    exists cl. split; [by apply lookup_app_l_Some|done].
  - intros k cl Hk. apply lookup_snoc_Some in Hk as [[_ Hk]|[_ <-]]; [by eapply H4|].
    cbn. unfold maxReconnectAttempts. lia.
  - intros i s Hs. destruct (H6 i s Hs) as (cl & Hcl & Hu).
    exists cl. split; [by apply lookup_app_l_Some|done].
  - intros k cl Hk. apply lookup_snoc_Some in Hk as [[_ Hk]|[_ <-]]; [by eapply H7|].
    done.
Qed.

Lemma nonempty_Some (o : option string) (s : string) :
  nonempty o = Some s → o = Some s ∧ s ≠ "".
Proof.
  destruct o as [x|]; [|done]. cbn. destruct (String.eqb x "") eqn:E; [done|].
  intros [= <-]. apply String.eqb_neq in E. done.
Qed.

Lemma getToken_nonempty (env : Env) (tok : string) : getToken env = Some tok → tok ≠ "".
Proof.
  unfold getToken. destruct (nonempty (storage_token env)) as [x|] eqn:E.
  - intros [= <-]. by apply nonempty_Some in E as [_ ?].
  - intros H. by apply nonempty_Some in H as [_ ?].
Qed.

Lemma WF_fresh_run (st : Hook) :
  WF st → no_live (length (closures st)) st ∧ no_pending (length (closures st)) st.
Proof.
  intros [H1 H2 _]. split.
  - intros i s Hs _. destruct (Forall_lookup_1 _ _ _ _ H1 Hs) as [Ho _]. lia.
  - intros t tm Ht _. pose proof (Forall_lookup_1 _ _ _ _ H2 Ht) as Ho.
    unfold timer_ok in Ho. lia.
Qed.

Lemma ws_close_keeps (s : Socket) :
  s_owner (ws_close s) = s_owner s ∧ s_url (ws_close s) = s_url s
  ∧ sent (ws_close s) = sent s
  ∧ (readyState (ws_close s) ≠ CLOSED ↔ readyState s ≠ CLOSED)
  ∧ readyState (ws_close s) ≠ OPEN ∧ readyState (ws_close s) ≠ CONNECTING.
Proof. unfold ws_close. destruct (readyState s) eqn:E; cbn; rewrite ?E; by split_and!. Qed.

Lemma timer_clear_keeps (tm : Timer) :
  t_owner (timer_clear tm) = t_owner tm ∧ t_delay (timer_clear tm) = t_delay tm
  ∧ (t_state (timer_clear tm) = Pending → timer_clear tm = tm)
  ∧ t_state (timer_clear tm) ≠ Pending.
Proof. unfold timer_clear. destruct (t_state tm) eqn:E; cbn; rewrite ?E; by split_and!. Qed.

Lemma Lifecycle_close_current (st : Hook) : Lifecycle st → Lifecycle (close_current st).
Proof.
  intros Hl. unfold close_current. destruct (socketRef st) as [i|]; [|done].
  apply Lifecycle_alter_socket; [|done]. intros s _.
  destruct (ws_close_keeps s) as (? & ? & _ & [? _] & _). done.
Qed.

Lemma Lifecycle_clearTimeout (h : option nat) (st : Hook) :
  Lifecycle st → Lifecycle (clearTimeout h st).
Proof.
  intros Hl. destruct h as [t|]; [|done]. cbn.
  apply Lifecycle_alter_timer; [|done]. intros tm _.
  destruct (timer_clear_keeps tm) as (? & ? & ? & _). done.
Qed.

Lemma Lifecycle_run_cleanup (st st' : Hook) :
  Lifecycle st → run_cleanup st = Some st' → Lifecycle st'.
Proof.
  intros Hl. unfold run_cleanup. destruct (cleanup st) as [c|]; [|by intros [= <-]].
  destruct (closures st !! c) as [cl|]; [|done]. cbn. intros [= <-].
  eapply (Lifecycle_frame (close_current (clearTimeout (reconnectTimeout cl) st)));
    [done..|].
  by apply Lifecycle_close_current, Lifecycle_clearTimeout.
Qed.

Lemma Lifecycle_connectWebSocket (c : nat) (ok : bool) (st st' : Hook) :
  no_live c st → no_pending c st → Lifecycle st →
  connectWebSocket c ok st = Some st' → Lifecycle st'.
Proof.
  intros Hnl Hnp Hl. unfold connectWebSocket.
  destruct (closures st !! c) as [cl|] eqn:Hc; [|done]. cbn.
  destruct ok; intros [= <-].
  - eapply (Lifecycle_frame (set_sockets _ st)); [done..|].
    by apply Lifecycle_connect.
  - by eapply Lifecycle_frame; [..|exact Hl].
Qed.

Lemma Lifecycle_effect (channel : option string) (env : Env) (st st' : Hook) :
  WF st → Lifecycle st → effect channel env st = Some st' → Lifecycle st'.
Proof.
  intros Hwf Hl. unfold effect.
  assert (Hwf0 : WF (set_processedMessageIds [] (set_messages [] st)))
    by (by eapply WF_frame; [..|exact Hwf]).
  assert (Hl0 : Lifecycle (set_processedMessageIds [] (set_messages [] st)))
    by (by eapply Lifecycle_frame; [..|exact Hl]).
  revert Hwf0 Hl0. generalize (set_processedMessageIds [] (set_messages [] st)).
  clear st Hwf Hl. intros st Hwf Hl.
  destruct (nonempty channel) as [ch|] eqn:Hch;
    [|intros [= <-]; by eapply Lifecycle_frame; [..|exact Hl]].
  apply nonempty_Some in Hch as [_ Hne].
  destruct (String.eqb ch "undefined") eqn:Hu;
    [intros [= <-]; by eapply Lifecycle_frame; [..|exact Hl]|].
  apply String.eqb_neq in Hu.
  destruct (getToken env) as [tok|] eqn:Htok;
    [|intros [= <-]; by eapply Lifecycle_frame; [..|exact Hl]].
  apply getToken_nonempty in Htok.
  destruct (connectWebSocket _ _ _) as [st1|] eqn:Hc; [|done]. cbn. intros [= <-].
  eapply (Lifecycle_frame st1); [done..|].
  pose proof (WF_close_current st Hwf) as Hwf2.
  destruct (WF_fresh_run _ Hwf2) as [Hnl Hnp].
  eapply Lifecycle_connectWebSocket; [| | |exact Hc].
  - eapply no_live_frame; [|exact Hnl]. done.
  - eapply no_pending_frame; [|exact Hnp]. done.
  - apply Lifecycle_new_closure; [done..|]. by apply Lifecycle_close_current.
Qed.

Lemma Lifecycle_onopen (i : nat) (s : Socket) (st st' : Hook) :
  sockets st !! i = Some s → readyState s ≠ CLOSED →
  Lifecycle st → onopen i st = Some st' → Lifecycle st'.
Proof.
  intros Hs Hlive Hl. unfold onopen. rewrite Hs. cbn.
  destruct (closures st !! s_owner s) as [cl|]; [|done]. cbn. intros [= <-].
  set (st1 := set_sockets _ st).
  assert (Hl1 : Lifecycle st1).
  { apply Lifecycle_alter_socket; [|done]. intros s0 _. by split_and!. }
  eapply (Lifecycle_frame (set_closures (alter (set_attempts 0) (s_owner s) (closures st1)) st1));
    [done..|].
  apply Lifecycle_set_attempts; [unfold maxReconnectAttempts; lia| |done].
  intros t tm Ht Hp Heq. by apply (lc_excl st Hl i s t tm).
Qed.

Lemma Lifecycle_onclose (c : nat) (code : Z) (st st' : Hook) :
  no_live c st → no_pending c st → Lifecycle st →
  onclose c code st = Some st' → Lifecycle st'.
Proof.
  intros Hnl Hnp Hl. unfold onclose.
  destruct (closures st !! c) as [cl|] eqn:Hc; [|done]. cbn [mbind option_bind].
  destruct (unauthorized code);
    [intros [= <-]; by eapply Lifecycle_frame; [..|exact Hl]|].
  destruct (reconnectAttempts cl <? maxReconnectAttempts) eqn:Hlt; cbn [andb].
  - destruct (negb (code =? 1000)%Z).
    + intros [= <-]. apply Nat.ltb_lt in Hlt.
      apply (Lifecycle_schedule c cl (set_isConnected false st)); try done.
      by eapply Lifecycle_frame; [..|exact Hl].
    + destruct (_ <=? _); intros [= <-]; by eapply Lifecycle_frame; [..|exact Hl].
  - destruct (_ <=? _); intros [= <-]; by eapply Lifecycle_frame; [..|exact Hl].
Qed.

Lemma Lifecycle_ontimer (c : nat) (ok : bool) (cl : Closure) (st st' : Hook) :
  closures st !! c = Some cl → reconnectAttempts cl < maxReconnectAttempts →
  no_live c st → no_pending c st → Lifecycle st →
  ontimer c ok st = Some st' → Lifecycle st'.
Proof.
  intros Hc Ha Hnl Hnp Hl. unfold ontimer. rewrite Hc. cbn [mbind option_bind].
  apply Lifecycle_connectWebSocket.
  - eapply no_live_frame; [|exact Hnl]. done.
  - eapply no_pending_frame; [|exact Hnp]. done.
  - apply Lifecycle_set_attempts; [lia|done|done].
Qed.

Lemma Lifecycle_sendMessage (content : Content) (st : Hook) :
  Lifecycle st → Lifecycle (snd (sendMessage content st)).
Proof.
  intros Hl. unfold sendMessage. destruct (negb (is_open st));
    [by eapply Lifecycle_frame; [..|exact Hl]|].
  destruct (stringify content) as [frame|];
    [|by eapply Lifecycle_frame; [..|exact Hl]].
  destruct (socketRef st) as [i|]; [|by eapply Lifecycle_frame; [..|exact Hl]].
  cbn. apply Lifecycle_alter_socket; [|done]. intros s _. by split_and!.
Qed.

Lemma Lifecycle_step (e : Event) (st st' : Hook) :
  WF st → Lifecycle st → step e st = Some st' → Lifecycle st'.
Proof.
  intros Hwf Hl Hs. destruct e as [channel env| |i|i raw|i info|i code|t ok|content];
    cbn [step] in Hs.
  - destruct (run_cleanup st) as [st1|] eqn:Hc; [|done]. cbn in Hs.
    eapply Lifecycle_effect; [| |exact Hs].
    + by eapply WF_run_cleanup.
    + by eapply Lifecycle_run_cleanup.
  - by eapply Lifecycle_run_cleanup.
  - destruct (sockets st !! i) as [s|] eqn:Hi; [|done]. cbn in Hs.
    destruct (bool_decide (readyState s = CONNECTING)) eqn:Hb; [|done].
    apply bool_decide_eq_true_1 in Hb.
    eapply (Lifecycle_onopen i (ws_set_state OPEN s)); [| | |exact Hs].
    + cbn. by rewrite list_lookup_alter_eq, Hi.
    + done.
    + apply Lifecycle_alter_socket; [|done]. intros s0 Hs0.
      rewrite Hi in Hs0. injection Hs0 as <-. split_and!; [done|done|].
      intros _. congruence.
  - destruct (sockets st !! i) as [s|]; [|done]. cbn in Hs.
    destruct (bool_decide _); [|done]. injection Hs as <-.
    unfold onmessage. destruct raw as [|data]; [done|].
    destruct data; try done;
      (destruct (is_chat _); [|done]; destruct (negb _); [|done];
       by eapply Lifecycle_frame; [..|exact Hl]).
  - destruct (sockets st !! i) as [s|]; [|done]. cbn in Hs.
    destruct (bool_decide _); [done|]. injection Hs as <-.
    by eapply Lifecycle_frame; [..|exact Hl].
  - destruct (sockets st !! i) as [s|] eqn:Hi; [|done]. cbn in Hs.
    destruct (bool_decide (readyState s = CLOSED)) eqn:Hb; [done|].
    apply bool_decide_eq_false_1 in Hb.
    eapply Lifecycle_onclose; [| | |exact Hs].
    + intros j y Hy Hlive. cbn in Hy.
      apply lookup_alter_inv in Hy as (x & Hx & [[Hne ->]|[_ ->]]); [|done].
      intros Heq. apply Hne. by apply (lc_socket st Hl i j s x).
    + intros t tm Ht Hp Heq. cbn in Ht. by apply (lc_excl st Hl i s t tm).
    + apply Lifecycle_alter_socket; [|done]. intros s0 _. by split_and!.
  - destruct (timers st !! t) as [tm|] eqn:Ht; [|done]. cbn in Hs.
    destruct (bool_decide (t_state tm = Pending)) eqn:Hb; [|done].
    apply bool_decide_eq_true_1 in Hb.
    destruct (lc_handle st Hl t tm Ht Hb) as (cl & Hcl & Hh & Ha & _).
    eapply (Lifecycle_ontimer (t_owner tm) ok cl (set_timers _ st));
      [exact Hcl|exact Ha| | | |exact Hs].
    + intros j y Hy Hlive Heq. cbn in Hy. by apply (lc_excl st Hl j y t tm).
    + intros j y Hy Hp Heq. cbn in Hy.
      apply lookup_alter_inv in Hy as (x & Hx & [[Hne ->]|[_ ->]]); [|done].
      destruct (lc_handle st Hl j x Hx Hp) as (cl' & Hcl' & Hh' & _).
      rewrite Heq, Hcl in Hcl'. injection Hcl' as <-. congruence.
    + apply Lifecycle_alter_timer; [|done]. intros tm0 _. by split_and!.
  - injection Hs as <-. by apply Lifecycle_sendMessage.
Qed.

Lemma Lifecycle_initial : Lifecycle initial.
Proof. split; intros *; cbn; by rewrite ?lookup_nil. Qed.

Lemma Lifecycle_reachable (tr : list Event) (st : Hook) :
  run tr initial = Some st → WF st ∧ Lifecycle st.
Proof.
  apply (run_invariant (fun st => WF st ∧ Lifecycle st)).
  - intros e st0 st1 [Hwf Hl] Hs. split; [by eapply WF_step|by eapply Lifecycle_step].
  - split; [apply WF_initial|apply Lifecycle_initial].
Qed.

(** X4: every reconnect timer the hook ever sets has a delay of 1000, 2000,
    4000, 8000 or 16000 ms: the 30000 ms cap of the delay expression is never
    the delay of a timer. *)
Theorem scheduled_delays (tr : list Event) (st : Hook) (t : nat) (tm : Timer)
    (Hrun : run tr initial = Some st) (Ht : timers st !! t = Some tm) :
  In (t_delay tm) [1000; 2000; 4000; 8000; 16000]%Z ∧ (t_delay tm < 30000)%Z.
Proof.
  destruct (Lifecycle_reachable tr st Hrun) as [_ Hl].
  destruct (lc_delay st Hl t tm Ht) as (a & Ha & ->).
  unfold maxReconnectAttempts in Ha.
  destruct a as [|[|[|[|[|a]]]]]; [| | | | |lia];
    (split; [vm_compute; tauto|vm_compute; reflexivity]).
Qed.

Lemma scheduled_delays_witness :
  In 1000%Z [1000; 2000; 4000; 8000; 16000]%Z ∧ (1000 < 30000)%Z.
Proof.
  exact (scheduled_delays
           [EvBind (Some "general") env_tok; EvClose 0 1006]
           (mkHook [] false None (Some 0) []
              [mkSocket 0 (wsUrl "general") CLOSED []]
              [mkTimer 0 1000 Pending]
              [mkClosure "general" "tok" 0 (Some 0)] (Some 0))
           0 (mkTimer 0 1000 Pending) eq_refl eq_refl).
Defined.

Lemma filter_none {A : Type} (p : A → bool) (l : list A) :
  (∀ i x, l !! i = Some x → p x = false) → List.filter p l = [].
Proof.
  induction l as [|x l IH]; intros H; [done|]. cbn.
  rewrite (H 0 x eq_refl). apply IH. intros i y Hy. by apply (H (S i)).
Qed.

Lemma filter_some {A : Type} (p : A → bool) (l : list A) :
  List.filter p l ≠ [] → ∃ i x, l !! i = Some x ∧ p x = true.
Proof.
  induction l as [|x l IH]; [done|]. cbn. destruct (p x) eqn:Hx.
  - intros _. by exists 0, x.
  - intros H. destruct (IH H) as (i & y & Hy & Hp). by exists (S i), y.
Qed.

Lemma filter_at_most_one {A : Type} (p : A → bool) (l : list A) :
  (∀ i j x y, l !! i = Some x → l !! j = Some y → p x = true → p y = true → i = j) →
  length (List.filter p l) ≤ 1.
Proof.
  induction l as [|x l IH]; intros H; [cbn; lia|]. cbn. destruct (p x) eqn:Hx.
  - rewrite (filter_none p l); [cbn; lia|].
    intros i y Hy. destruct (p y) eqn:Hp; [|done].
    by specialize (H 0 (S i) x y eq_refl Hy Hx Hp).
  - apply IH. intros i j y z Hy Hz Hpy Hpz.
    specialize (H (S i) (S j) y z Hy Hz Hpy Hpz). lia.
Qed.

Lemma live_of_true (c : nat) (s : Socket) :
  live_of c s = true ↔ s_owner s = c ∧ readyState s ≠ CLOSED.
Proof.
  unfold live_of. rewrite andb_true_iff, negb_true_iff.
  rewrite bool_decide_eq_true, bool_decide_eq_false. done.
Qed.

Lemma pending_of_true (c : nat) (tm : Timer) :
  pending_of c tm = true ↔ t_owner tm = c ∧ t_state tm = Pending.
Proof. unfold pending_of. rewrite andb_true_iff, !bool_decide_eq_true. done. Qed.

(** X5: in every reachable state, for every effect run, the number of its
    sockets that are not closed plus the number of its pending reconnect
    timers is at most one: a run never holds two connections, two timers,
    or a connection and a timer at once. *)
Theorem one_connection_per_run
    (tr : list Event) (st : Hook) (c : nat) (Hrun : run tr initial = Some st) :
  live_count c st + pending_count c st ≤ 1.
Proof.
  destruct (Lifecycle_reachable tr st Hrun) as [_ Hl].
  unfold live_count, pending_count.
  assert (H1 : length (List.filter (live_of c) (sockets st)) ≤ 1).
  { apply filter_at_most_one. intros i j s s' Hs Hs' Hp Hp'.
    apply live_of_true in Hp as [Ho Hlv], Hp' as [Ho' Hlv'].
    apply (lc_socket st Hl i j s s'); congruence. }
  assert (H2 : length (List.filter (pending_of c) (timers st)) ≤ 1).
  { apply filter_at_most_one. intros t t' tm tm' Ht Ht' Hp Hp'.
    apply pending_of_true in Hp as [Ho Hpd], Hp' as [Ho' Hpd'].
    destruct (lc_handle st Hl t tm Ht Hpd) as (cl & Hcl & Hh & _).
    destruct (lc_handle st Hl t' tm' Ht' Hpd') as (cl' & Hcl' & Hh' & _).
    rewrite Ho in Hcl. rewrite Ho', Hcl in Hcl'. injection Hcl' as <-. congruence. }
  destruct (List.filter (live_of c) (sockets st)) as [|s0 ls] eqn:Hfl; [cbn; lia|].
  rewrite (filter_none (pending_of c) (timers st)); [cbn in *; lia|].
  intros t tm Ht. destruct (pending_of c tm) eqn:Hp; [|done].
  apply pending_of_true in Hp as [Ho Hpd].
  destruct (filter_some (live_of c) (sockets st)) as (i & s & Hs & Hlv);
    [by rewrite Hfl|].
  apply live_of_true in Hlv as [Hos Hlv].
  destruct (lc_excl st Hl i s t tm Hs Ht Hlv Hpd). congruence.
Qed.

Lemma one_connection_per_run_witness :
  live_count 0 opened + pending_count 0 opened ≤ 1.
Proof.
  exact (one_connection_per_run
           [EvBind (Some "general") env_tok; EvOpen 0] opened 0 eq_refl).
Defined.

(** X6: the attempt counter of an effect run never exceeds 5, and while a
    reconnect timer of the run is pending it is below 5 and the timer's delay
    is the backoff delay of the counter. *)
Theorem attempts_bounded
    (tr : list Event) (st : Hook) (c : nat) (cl : Closure)
    (Hrun : run tr initial = Some st) (Hcl : closures st !! c = Some cl) :
  reconnectAttempts cl ≤ 5
  ∧ (∀ t tm, timers st !! t = Some tm → t_owner tm = c → t_state tm = Pending →
       reconnectAttempts cl < 5 ∧ t_delay tm = backoff_delay (reconnectAttempts cl)).
Proof.
  destruct (Lifecycle_reachable tr st Hrun) as [_ Hl]. split.
  - apply (lc_attempts st Hl c cl Hcl).
  - intros t tm Ht Ho Hp.
    destruct (lc_handle st Hl t tm Ht Hp) as (cl' & Hcl' & _ & Ha & Hd).
    rewrite Ho, Hcl in Hcl'. injection Hcl' as <-. done.
Qed.

Lemma attempts_bounded_witness : reconnectAttempts (mkClosure "general" "tok" 0 None) ≤ 5.
Proof.
  exact (proj1 (attempts_bounded
                  [EvBind (Some "general") env_tok; EvOpen 0] opened 0
                  (mkClosure "general" "tok" 0 None) eq_refl eq_refl)).
Defined.

(** X7: every socket the hook ever makes, reconnects included, is addressed
    to the channel of the effect run that made it, and that run was bound
    with a channel identifier that is neither empty nor "undefined" and with
    a non-empty token. *)
Theorem socket_url_of_run
    (tr : list Event) (st : Hook) (i : nat) (s : Socket)
    (Hrun : run tr initial = Some st) (Hs : sockets st !! i = Some s) :
  ∃ cl, closures st !! s_owner s = Some cl
    ∧ s_url s = "wss://api.loryx.lol/chat/channels/" +:+ channelId cl +:+ "/ws"
    ∧ channelId cl ≠ "" ∧ channelId cl ≠ "undefined" ∧ token cl ≠ "".
Proof.
  destruct (Lifecycle_reachable tr st Hrun) as [_ Hl].
  destruct (lc_url st Hl i s Hs) as (cl & Hcl & Hu).
  exists cl. split; [done|]. split; [exact Hu|]. by apply (lc_closure st Hl (s_owner s)).
Qed.

Lemma socket_url_of_run_witness :
  ∃ cl, closures opened !! 0 = Some cl
    ∧ "wss://api.loryx.lol/chat/channels/general/ws"
      = "wss://api.loryx.lol/chat/channels/" +:+ channelId cl +:+ "/ws"
    ∧ channelId cl ≠ "" ∧ channelId cl ≠ "undefined" ∧ token cl ≠ "".
Proof.
  exact (socket_url_of_run
           [EvBind (Some "general") env_tok; EvOpen 0] opened 0
           (mkSocket 0 (wsUrl "general") OPEN [JObj [("token", JStr "tok")]])
           eq_refl eq_refl).
Defined.

(** ** Effect runs that have nothing left *)

Lemma no_live_iff (c : nat) (st : Hook) : no_live c st ↔ live c st = false.
Proof.
  unfold no_live, live. split.
  - intros H. apply existsb_false_Forall, Forall_lookup. intros i s Hs.
    destruct (live_of c s) eqn:E; [|done].
    apply live_of_true in E as [Ho Hl]. by destruct (H i s Hs Hl).
  - intros H i s Hs Hl Ho.
    assert (existsb (live_of c) (sockets st) = true); [|congruence].
    apply existsb_exists. exists s. split.
    + apply list_elem_of_In. by eapply list_elem_of_lookup_2.
    + by apply live_of_true.
Qed.

Lemma no_pending_iff (c : nat) (st : Hook) : no_pending c st ↔ reconnect_pending c st = false.
Proof.
  unfold no_pending, reconnect_pending. split.
  - intros H. apply existsb_false_Forall, Forall_lookup. intros t tm Ht.
    destruct (pending_of c tm) eqn:E; [|done].
    apply pending_of_true in E as [Ho Hp]. by destruct (H t tm Ht Hp).
  - intros H t tm Ht Hp Ho.
    assert (existsb (pending_of c) (timers st) = true); [|congruence].
    apply existsb_exists. exists tm. split.
    + apply list_elem_of_In. by eapply list_elem_of_lookup_2.
    + by apply pending_of_true.
Qed.

Lemma owned_alter (f : Socket → Socket) (c i : nat) (l : list Socket) :
  (∀ s, s_owner (f s) = s_owner s) →
  length (List.filter (fun s => bool_decide (s_owner s = c)) (alter f i l))
  = length (List.filter (fun s => bool_decide (s_owner s = c)) l).
Proof.
  intros Hf. revert i. induction l as [|x l IH]; intros [|i]; cbn; try done.
  - rewrite Hf. by destruct (bool_decide (s_owner x = c)).
  - destruct (bool_decide (s_owner x = c)); cbn; by rewrite IH.
Qed.

Lemma owned_add (c : nat) (s : Socket) (l : list Socket) :
  s_owner s ≠ c →
  length (List.filter (fun s => bool_decide (s_owner s = c)) (l ++ [s]))
  = length (List.filter (fun s => bool_decide (s_owner s = c)) l).
Proof.
  intros Hne. rewrite List.filter_app, length_app. cbn.
  rewrite bool_decide_eq_false_2 by done. cbn. lia.
Qed.

Lemma Gone_frame (c : nat) (st st' : Hook) :
  sockets st' = sockets st → timers st' = timers st →
  length (closures st) ≤ length (closures st') →
  Gone c st → Gone c st' ∧ owned c st' = owned c st.
Proof.
  intros Hs Ht Hc (Hlt & Hnl & Hnp). unfold Gone, owned, no_live, no_pending.
  rewrite Hs, Ht. split_and!; [lia|done|done|done].
Qed.

Lemma Gone_alter_socket (f : Socket → Socket) (c i : nat) (st : Hook) :
  (∀ s, s_owner (f s) = s_owner s) →
  (∀ s, sockets st !! i = Some s → readyState (f s) ≠ CLOSED → readyState s ≠ CLOSED) →
  Gone c st →
  Gone c (set_sockets (alter f i (sockets st)) st)
  ∧ owned c (set_sockets (alter f i (sockets st)) st) = owned c st.
Proof.
  intros Hf Hl (Hlt & Hnl & Hnp). split; [split_and!; [done| |done]|].
  - apply no_live_alter_socket; [|done]. intros s Hs. split; [apply Hf|by apply Hl].
  - unfold owned. cbn. by apply owned_alter.
Qed.

Lemma Gone_alter_timer (f : Timer → Timer) (c t : nat) (st : Hook) :
  (∀ tm, t_state (f tm) = Pending → f tm = tm) →
  Gone c st →
  Gone c (set_timers (alter f t (timers st)) st)
  ∧ owned c (set_timers (alter f t (timers st)) st) = owned c st.
Proof.
  intros Hf (Hlt & Hnl & Hnp). split; [split_and!; [done|done|]|done].
  by apply no_pending_alter_timer.
Qed.

Lemma Gone_add_socket (c : nat) (s : Socket) (st : Hook) :
  s_owner s ≠ c → Gone c st →
  Gone c (set_sockets (sockets st ++ [s]) st)
  ∧ owned c (set_sockets (sockets st ++ [s]) st) = owned c st.
Proof.
  intros Hne (Hlt & Hnl & Hnp). split; [split_and!; [done| |done]|].
  - intros i y Hy Hl. cbn in Hy. apply lookup_snoc_Some in Hy as [[_ Hy]|[_ <-]];
      [by eapply Hnl|done].
  - unfold owned. cbn. by apply owned_add.
Qed.

Lemma Gone_add_timer (c : nat) (tm : Timer) (st : Hook) :
  t_owner tm ≠ c → Gone c st →
  Gone c (set_timers (timers st ++ [tm]) st)
  ∧ owned c (set_timers (timers st ++ [tm]) st) = owned c st.
Proof.
  intros Hne (Hlt & Hnl & Hnp). split; [split_and!; [done|done|]|done].
  intros t y Hy Hp. cbn in Hy. apply lookup_snoc_Some in Hy as [[_ Hy]|[_ <-]];
    [by eapply Hnp|done].
Qed.

Lemma Gone_close_current (c : nat) (st : Hook) :
  Gone c st → Gone c (close_current st) ∧ owned c (close_current st) = owned c st.
Proof.
  intros Hg. unfold close_current. destruct (socketRef st) as [i|]; [|done].
  apply Gone_alter_socket; [| |done].
  - intros s. by destruct (ws_close_keeps s) as (? & _).
  - intros s _. by destruct (ws_close_keeps s) as (_ & _ & _ & [? _] & _).
Qed.

Lemma Gone_clearTimeout (c : nat) (h : option nat) (st : Hook) :
  Gone c st → Gone c (clearTimeout h st) ∧ owned c (clearTimeout h st) = owned c st.
Proof.
  intros Hg. destruct h as [t|]; [|done]. cbn.
  apply Gone_alter_timer; [|done].
  intros tm. by destruct (timer_clear_keeps tm) as (_ & _ & ? & _).
Qed.

Lemma Gone_run_cleanup (c : nat) (st st' : Hook) :
  Gone c st → run_cleanup st = Some st' → Gone c st' ∧ owned c st' = owned c st.
Proof.
  intros Hg. unfold run_cleanup. destruct (cleanup st) as [k|]; [|by intros [= <-]].
  destruct (closures st !! k) as [cl|]; [|done]. cbn. intros [= <-].
  destruct (Gone_clearTimeout c (reconnectTimeout cl) st Hg) as [Hg1 Ho1].
  destruct (Gone_close_current c _ Hg1) as [Hg2 Ho2].
  destruct (Gone_frame c (close_current (clearTimeout (reconnectTimeout cl) st))
              (set_cleanup None (close_current (clearTimeout (reconnectTimeout cl) st)))
              eq_refl eq_refl (le_n _) Hg2) as [Hg3 Ho3].
  split; [done|congruence].
Qed.

Lemma Gone_connectWebSocket (c k : nat) (ok : bool) (st st' : Hook) :
  k ≠ c → Gone c st → connectWebSocket k ok st = Some st' →
  Gone c st' ∧ owned c st' = owned c st.
Proof.
  intros Hne Hg. unfold connectWebSocket.
  destruct (closures st !! k) as [cl|]; [|done]. cbn.
  destruct ok; intros [= <-].
  - destruct (Gone_add_socket c (mkSocket k (wsUrl (channelId cl)) CONNECTING []) st
                Hne Hg) as [Hg1 Ho1].
    destruct (Gone_frame c
                (set_sockets (sockets st ++ [mkSocket k (wsUrl (channelId cl)) CONNECTING []]) st)
                (set_socketRef (Some (length (sockets st)))
                   (set_sockets (sockets st ++ [mkSocket k (wsUrl (channelId cl)) CONNECTING []]) st))
                eq_refl eq_refl (le_n _) Hg1) as [Hg2 Ho2].
    split; [done|congruence].
  - by apply Gone_frame.
Qed.

Lemma Gone_effect (c : nat) (channel : option string) (env : Env) (st st' : Hook) :
  Gone c st → effect channel env st = Some st' → Gone c st' ∧ owned c st' = owned c st.
Proof.
  intros Hg. unfold effect.
  destruct (Gone_frame c st (set_processedMessageIds [] (set_messages [] st))
              eq_refl eq_refl (le_n _) Hg) as [Hg0 Ho0].
  revert Hg0 Ho0. generalize (set_processedMessageIds [] (set_messages [] st)).
  intros st0 Hg0 Ho0.
  destruct (nonempty channel) as [ch|];
    [|intros [= <-]; destruct (Gone_frame c st0 (set_cleanup None (set_isConnected false st0))
                                 eq_refl eq_refl (le_n _) Hg0); split; [done|congruence]].
  destruct (String.eqb ch "undefined");
    [intros [= <-];
     destruct (Gone_frame c st0
                 (set_cleanup None (set_isConnected false
                    (set_error (Some "Invalid channel ID") st0)))
                 eq_refl eq_refl (le_n _) Hg0); split; [done|congruence]|].
  destruct (getToken env) as [tok|];
    [|intros [= <-];
      destruct (Gone_frame c st0 (set_cleanup None (set_error (Some "Not authenticated") st0))
                  eq_refl eq_refl (le_n _) Hg0); split; [done|congruence]].
  destruct (connectWebSocket _ _ _) as [st1|] eqn:Hc; [|done]. cbn. intros [= <-].
  destruct (Gone_close_current c st0 Hg0) as [Hg1 Ho1].
  destruct (Gone_frame c (close_current st0)
              (set_closures (closures (close_current st0) ++ [mkClosure ch tok 0 None])
                 (close_current st0)) eq_refl eq_refl) as [Hg2 Ho2]; [|done|].
  { cbn. rewrite length_app. lia. }
  destruct Hg1 as (Hlt & _).
  assert (Hne : length (closures (close_current st0)) ≠ c) by lia.
  destruct (Gone_connectWebSocket c _ _ _ st1 Hne Hg2 Hc) as [Hg3 Ho3].
  destruct (Gone_frame c st1 (set_cleanup (Some (length (closures (close_current st0)))) st1)
              eq_refl eq_refl (le_n _) Hg3) as [Hg4 Ho4].
  split; [done|congruence].
Qed.

Lemma Gone_alter_closure (f : Closure → Closure) (c k : nat) (st : Hook) :
  Gone c st →
  Gone c (set_closures (alter f k (closures st)) st)
  ∧ owned c (set_closures (alter f k (closures st)) st) = owned c st.
Proof. intros Hg. apply Gone_frame; [done|done| |done]. cbn. by rewrite length_alter. Qed.

Lemma Gone_onopen (c i : nat) (st st' : Hook) :
  Gone c st → onopen i st = Some st' → Gone c st' ∧ owned c st' = owned c st.
Proof.
  intros Hg. unfold onopen. destruct (sockets st !! i) as [s|]; [|done]. cbn.
  destruct (closures st !! s_owner s) as [cl|]; [|done]. cbn. intros [= <-].
  destruct (Gone_alter_socket (ws_send (JObj [("token", JStr (token cl))])) c i st)
    as [Hg1 Ho1]; [done|done|done|].
  set (st1 := set_sockets _ st) in *.
  destruct (Gone_frame c st1 (set_error None (set_isConnected true st1))
              eq_refl eq_refl (le_n _) Hg1) as [Hg2 Ho2].
  destruct (Gone_alter_closure (set_attempts 0) c (s_owner s) _ Hg2) as [Hg3 Ho3].
  split; [exact Hg3|]. rewrite <- Ho1, <- Ho2. exact Ho3.
Qed.

Lemma Gone_onclose (c k : nat) (code : Z) (st st' : Hook) :
  k ≠ c → Gone c st → onclose k code st = Some st' →
  Gone c st' ∧ owned c st' = owned c st.
Proof.
  intros Hne Hg. unfold onclose.
  destruct (closures st !! k) as [cl|]; [|done]. cbn [mbind option_bind].
  destruct (unauthorized code); [intros [= <-]; by apply Gone_frame|].
  destruct (_ && _).
  - intros [= <-].
    destruct (Gone_frame c st (set_isConnected false st) eq_refl eq_refl (le_n _) Hg)
      as [Hg1 Ho1].
    destruct (Gone_add_timer c (mkTimer k (backoff_delay (reconnectAttempts cl)) Pending)
                _ Hne Hg1) as [Hg2 Ho2].
    destruct (Gone_alter_closure (set_timeout (Some (length (timers st)))) c k _ Hg2)
      as [Hg3 Ho3].
    split; [exact Hg3|]. rewrite <- Ho1, <- Ho2. exact Ho3.
  - destruct (_ <=? _); intros [= <-]; by apply Gone_frame.
Qed.

Lemma Gone_ontimer (c k : nat) (ok : bool) (st st' : Hook) :
  k ≠ c → Gone c st → ontimer k ok st = Some st' →
  Gone c st' ∧ owned c st' = owned c st.
Proof.
  intros Hne Hg. unfold ontimer.
  destruct (closures st !! k) as [cl|]; [|done]. cbn [mbind option_bind]. intros Hc.
  destruct (Gone_alter_closure (set_attempts (S (reconnectAttempts cl))) c k st Hg)
    as [Hg1 Ho1].
  destruct (Gone_connectWebSocket c k ok _ st' Hne Hg1 Hc) as [Hg2 Ho2].
  split; [done|congruence].
Qed.

Lemma Gone_sendMessage (c : nat) (content : Content) (st : Hook) :
  Gone c st →
  Gone c (snd (sendMessage content st))
  ∧ owned c (snd (sendMessage content st)) = owned c st.
Proof.
  intros Hg. unfold sendMessage. destruct (negb (is_open st)); [by apply Gone_frame|].
  destruct (stringify content) as [frame|]; [|by apply Gone_frame].
  destruct (socketRef st) as [i|]; [|by apply Gone_frame].
  cbn. by apply Gone_alter_socket.
Qed.

Lemma Gone_onmessage (c : nat) (raw : Parse) (st : Hook) :
  Gone c st → Gone c (onmessage raw st) ∧ owned c (onmessage raw st) = owned c st.
Proof.
  intros Hg. unfold onmessage. destruct raw as [|data]; [done|].
  destruct data; try done;
    (destruct (is_chat _); [|done]; destruct (negb _); [|done]; by apply Gone_frame).
Qed.

Lemma Gone_step (c : nat) (e : Event) (st st' : Hook) :
  Gone c st → step e st = Some st' → Gone c st' ∧ owned c st' = owned c st.
Proof.
  intros Hg Hs. destruct e as [channel env| |i|i raw|i info|i code|t ok|content];
    cbn [step] in Hs.
  - destruct (run_cleanup st) as [st1|] eqn:Hc; [|done]. cbn in Hs.
    destruct (Gone_run_cleanup c st st1 Hg Hc) as [Hg1 Ho1].
    destruct (Gone_effect c _ _ st1 st' Hg1 Hs) as [Hg2 Ho2].
    split; [done|congruence].
  - by apply Gone_run_cleanup.
  - destruct (sockets st !! i) as [s|] eqn:Hi; [|done]. cbn in Hs.
    destruct (bool_decide (readyState s = CONNECTING)) eqn:Hb; [|done].
    apply bool_decide_eq_true_1 in Hb.
    destruct (Gone_alter_socket (ws_set_state OPEN) c i st) as [Hg1 Ho1]; [done| |done|].
    { intros s0 Hs0 _. rewrite Hi in Hs0. injection Hs0 as <-. congruence. }
    destruct (Gone_onopen c i _ st' Hg1 Hs) as [Hg2 Ho2].
    split; [done|congruence].
  - destruct (sockets st !! i) as [s|]; [|done]. cbn in Hs.
    destruct (bool_decide _); [|done]. injection Hs as <-. by apply Gone_onmessage.
  - destruct (sockets st !! i) as [s|]; [|done]. cbn in Hs.
    destruct (bool_decide _); [done|]. injection Hs as <-. by apply Gone_frame.
  - destruct (sockets st !! i) as [s|] eqn:Hi; [|done]. cbn in Hs.
    destruct (bool_decide (readyState s = CLOSED)) eqn:Hb; [done|].
    apply bool_decide_eq_false_1 in Hb.
    pose proof Hg as (_ & Hnl & _).
    destruct (Gone_alter_socket (ws_set_state CLOSED) c i st) as [Hg1 Ho1];
      [done|done|done|].
    destruct (Gone_onclose c (s_owner s) code _ st' (Hnl i s Hi Hb) Hg1 Hs) as [Hg2 Ho2].
    split; [done|congruence].
  - destruct (timers st !! t) as [tm|] eqn:Ht; [|done]. cbn in Hs.
    destruct (bool_decide (t_state tm = Pending)) eqn:Hb; [|done].
    apply bool_decide_eq_true_1 in Hb.
    pose proof Hg as (_ & _ & Hnp).
    destruct (Gone_alter_timer
                (fun tm => mkTimer (t_owner tm) (t_delay tm) Fired) c t st) as [Hg1 Ho1];
      [done|done|].
    destruct (Gone_ontimer c (t_owner tm) ok _ st' (Hnp t tm Ht Hb) Hg1 Hs) as [Hg2 Ho2].
    split; [done|congruence].
  - injection Hs as <-. by apply Gone_sendMessage.
Qed.

Lemma Gone_run (c : nat) (tr : list Event) (st st' : Hook) :
  Gone c st → run tr st = Some st' → Gone c st' ∧ owned c st' = owned c st.
Proof.
  revert st. induction tr as [|e tr IH]; intros st Hg Hr; cbn in Hr.
  - by inversion Hr; subst.
  - destruct (step e st) as [st1|] eqn:Hs; [|done]. cbn in Hr.
    destruct (Gone_step c e st st1 Hg Hs) as [Hg1 Ho1].
    destruct (IH st1 Hg1 Hr) as [Hg2 Ho2]. split; [done|congruence].
Qed.

(** X8: an effect run that has no socket left that is not closed and no
    pending timer stays that way whatever happens next, rebinds included: no
    socket is ever made for it again.  So the failed state, and the states
    after an unauthorized or a clean closure, are final for the run. *)
Theorem finished_run_stays_finished
    (c : nat) (tr : list Event) (st st' : Hook)
    (Hc : c < length (closures st))
    (Hlive : live c st = false) (Hpending : reconnect_pending c st = false)
    (Hrun : run tr st = Some st') :
  live c st' = false ∧ reconnect_pending c st' = false
  ∧ connecting c st' = false ∧ owned c st' = owned c st.
Proof.
  assert (Hg : Gone c st).
  { split_and!; [done|by apply no_live_iff|by apply no_pending_iff]. }
  destruct (Gone_run c tr st st' Hg Hrun) as [(_ & Hnl & Hnp) Ho].
  split_and!; [by apply no_live_iff|by apply no_pending_iff| |done].
  unfold connecting. apply existsb_false_Forall, Forall_lookup. intros i s Hs.
  destruct (connecting_of c s) eqn:E; [|done].
  unfold connecting_of in E. apply andb_true_iff in E as [E1 E2].
  apply bool_decide_eq_true_1 in E1, E2.
  destruct (Hnl i s Hs); [congruence|done].
Qed.

Lemma finished_run_stays_finished_witness :
  ∃ st', run [EvBind (Some "general") env_tok; EvSend (ContentString "hi")]
           (mkHook [] false (Some "Not authorized to access this channel") (Some 0) []
              [mkSocket 0 (wsUrl "general") CLOSED [JObj [("token", JStr "tok")]]] []
              [mkClosure "general" "tok" 0 None] (Some 0)) = Some st'
    ∧ live 0 st' = false ∧ owned 0 st' = 1.
Proof.
  eexists. split; [vm_compute; reflexivity|].
  destruct (finished_run_stays_finished 0
              [EvBind (Some "general") env_tok; EvSend (ContentString "hi")]
              (mkHook [] false (Some "Not authorized to access this channel") (Some 0) []
                 [mkSocket 0 (wsUrl "general") CLOSED [JObj [("token", JStr "tok")]]] []
                 [mkClosure "general" "tok" 0 None] (Some 0))
              _ ltac:(cbn; lia) eq_refl eq_refl eq_refl) as (H1 & _ & _ & H4).
  split; [exact H1|exact H4].
Defined.

Lemma Gone_observed (c : nat) (st : Hook) :
  Gone c st →
  live c st = false ∧ reconnect_pending c st = false ∧ connecting c st = false.
Proof.
  intros (_ & Hnl & Hnp).
  split_and!; [by apply no_live_iff|by apply no_pending_iff|].
  unfold connecting. apply existsb_false_Forall, Forall_lookup. intros i s Hs.
  destruct (connecting_of c s) eqn:E; [|done].
  unfold connecting_of in E. apply andb_true_iff in E as [E1 E2].
  apply bool_decide_eq_true_1 in E1, E2.
  destruct (Hnl i s Hs); [congruence|done].
Qed.

(** The cleanup of a run that has no socket left clears its only timer. *)
Lemma cleanup_Gone (c : nat) (st st' : Hook) :
  WF st → Lifecycle st → cleanup st = Some c → no_live c st →
  run_cleanup st = Some st' → Gone c st' ∧ owned c st' = owned c st.
Proof.
  intros Hwf Hl Hc Hnl. unfold run_cleanup. rewrite Hc.
  destruct (closures st !! c) as [cl|] eqn:Hcl; [|done]. cbn. intros [= <-].
  assert (Hg : Gone c (clearTimeout (reconnectTimeout cl) st)).
  { split_and!.
    - apply lookup_lt_Some in Hcl. by destruct (reconnectTimeout cl).
    - eapply no_live_frame; [|exact Hnl]. by destruct (reconnectTimeout cl).
    - intros t tm Ht Hp Ho.
      destruct (reconnectTimeout cl) as [h|] eqn:Hh; cbn in Ht.
      + apply lookup_alter_inv in Ht as (x & Hx & [[Hne ->]|[_ ->]]).
        * destruct (lc_handle st Hl t x Hx Hp) as (cl' & Hcl' & Hh' & _).
          rewrite Ho, Hcl in Hcl'. injection Hcl' as <-. congruence.
        * by destruct (timer_clear_keeps x) as (_ & _ & _ & ?).
      + destruct (lc_handle st Hl t tm Ht Hp) as (cl' & Hcl' & Hh' & _).
        rewrite Ho, Hcl in Hcl'. injection Hcl' as <-. congruence. }
  assert (Ho : owned c (clearTimeout (reconnectTimeout cl) st) = owned c st)
    by (by destruct (reconnectTimeout cl)).
  destruct (Gone_close_current c _ Hg) as [Hg2 Ho2].
  destruct (Gone_frame c (close_current (clearTimeout (reconnectTimeout cl) st))
              (set_cleanup None (close_current (clearTimeout (reconnectTimeout cl) st)))
              eq_refl eq_refl (le_n _) Hg2) as [Hg3 Ho3].
  split; [done|congruence].
Qed.

(** X9: when the channel changes or the component unmounts while the
    current effect run has no socket left (it waits for its reconnect timer,
    or has failed), the pending reconnect is cancelled for good: whatever
    happens afterwards, no socket is made for that run and none of its timers
    is pending. *)
Theorem unbind_cancels_reconnect
    (tr tr' : list Event) (st st' : Hook) (c : nat) (e : Event)
    (Hrun : run tr initial = Some st)
    (Hc : cleanup st = Some c) (Hlive : live c st = false)
    (He : is_unbind e = true)
    (Hrun' : run (e :: tr') st = Some st') :
  live c st' = false ∧ reconnect_pending c st' = false
  ∧ connecting c st' = false ∧ owned c st' = owned c st.
Proof.
  destruct (Lifecycle_reachable tr st Hrun) as [Hwf Hl].
  apply no_live_iff in Hlive.
  cbn [run] in Hrun'. destruct (step e st) as [st1|] eqn:Hs; [|done].
  cbn [mbind option_bind] in Hrun'.
  assert (Hg1 : Gone c st1 ∧ owned c st1 = owned c st).
  { destruct e; try done; cbn [step] in Hs.
    - destruct (run_cleanup st) as [st0|] eqn:Hcl; [|done]. cbn in Hs.
      destruct (cleanup_Gone c st st0 Hwf Hl Hc Hlive Hcl) as [Hg0 Ho0].
      destruct (Gone_effect c _ _ st0 st1 Hg0 Hs) as [Hg1 Ho1].
      split; [done|congruence].
    - by apply cleanup_Gone. }
  destruct Hg1 as [Hg1 Ho1].
  destruct (Gone_run c tr' st1 st' Hg1 Hrun') as [Hg2 Ho2].
  destruct (Gone_observed c st' Hg2) as (H1 & H2 & H3).
  split_and!; [done|done|done|congruence].
Qed.

Lemma unbind_cancels_reconnect_witness :
  ∃ st', run [EvUnmount; EvBind (Some "random") env_tok]
           (mkHook [] false None (Some 0) []
              [mkSocket 0 (wsUrl "general") CLOSED []]
              [mkTimer 0 1000 Pending]
              [mkClosure "general" "tok" 0 (Some 0)] (Some 0)) = Some st'
    ∧ reconnect_pending 0 st' = false ∧ owned 0 st' = 1.
Proof.
  eexists. split; [vm_compute; reflexivity|].
  destruct (unbind_cancels_reconnect
              [EvBind (Some "general") env_tok; EvClose 0 1006]
              [EvBind (Some "random") env_tok]
              (mkHook [] false None (Some 0) []
                 [mkSocket 0 (wsUrl "general") CLOSED []]
                 [mkTimer 0 1000 Pending]
                 [mkClosure "general" "tok" 0 (Some 0)] (Some 0))
              _ 0 EvUnmount eq_refl eq_refl eq_refl eq_refl eq_refl)
    as (_ & H2 & _ & H4).
  split; [exact H2|exact H4].
Defined.

(** ** What a rebind leaves behind *)

Lemma same_socket_refl (s : Socket) : same_socket s s.
Proof. unfold same_socket. by split_and!; [..|left]. Qed.

Lemma same_socket_close (s : Socket) : same_socket s (ws_close s).
Proof.
  unfold same_socket, ws_close.
  destruct (readyState s) eqn:E; cbn; rewrite ?E; split_and!; try done; auto.
Qed.

Lemma same_socket_trans (s s1 s2 : Socket) :
  same_socket s s1 → same_socket s1 s2 → same_socket s s2.
Proof.
  unfold same_socket. intros (H1 & H2 & H3 & H4 & H5) (K1 & K2 & K3 & K4 & K5).
  split_and!; try congruence; [tauto|].
  destruct K5 as [K5|K5]; [|by right]. rewrite K5. exact H5.
Qed.

Lemma close_current_lookup (st : Hook) (i : nat) (s : Socket) :
  sockets st !! i = Some s →
  ∃ s1, sockets (close_current st) !! i = Some s1 ∧ same_socket s s1.
Proof.
  intros Hs. unfold close_current. destruct (socketRef st) as [k|];
    [|exists s; split; [done|apply same_socket_refl]].
  cbn. rewrite list_lookup_alter. case_decide as Hk.
  - subst k. rewrite Hs. cbn. eexists. split; [done|apply same_socket_close].
  - exists s. split; [done|apply same_socket_refl].
Qed.

Lemma run_cleanup_lookup (st st' : Hook) (i : nat) (s : Socket) :
  run_cleanup st = Some st' → sockets st !! i = Some s →
  ∃ s1, sockets st' !! i = Some s1 ∧ same_socket s s1.
Proof.
  unfold run_cleanup. destruct (cleanup st) as [c|];
    [|intros [= <-] Hs; exists s; split; [done|apply same_socket_refl]].
  destruct (closures st !! c) as [cl|]; [|done]. cbn. intros [= <-] Hs. cbn.
  apply close_current_lookup. by destruct (reconnectTimeout cl).
Qed.

Lemma effect_lookup (channel : option string) (env : Env) (st st' : Hook)
    (i : nat) (s : Socket) :
  effect channel env st = Some st' → sockets st !! i = Some s →
  ∃ s1, sockets st' !! i = Some s1 ∧ same_socket s s1.
Proof.
  unfold effect. intros He Hs.
  destruct (nonempty channel) as [ch|];
    [|injection He as <-; exists s; split; [done|apply same_socket_refl]].
  destruct (String.eqb ch "undefined");
    [injection He as <-; exists s; split; [done|apply same_socket_refl]|].
  destruct (getToken env) as [tok|];
    [|injection He as <-; exists s; split; [done|apply same_socket_refl]].
  destruct (close_current_lookup (set_processedMessageIds [] (set_messages [] st)) i s Hs)
    as (s1 & Hs1 & Hsame).
  unfold connectWebSocket in He. cbn [closures set_closures] in He.
  rewrite lookup_app_r in He by done. rewrite Nat.sub_diag in He.
  cbn [lookup list_lookup mbind option_bind] in He.
  exists s1. split; [|done].
  destruct (ws_ok env); injection He as <-; cbn; [by apply lookup_app_l_Some|done].
Qed.

Lemma effect_frame (channel : option string) (env : Env) (st st' : Hook) :
  effect channel env st = Some st' →
  timers st' = timers st
  ∧ (∀ k cl, closures st !! k = Some cl → closures st' !! k = Some cl)
  ∧ (∀ k, cleanup st' = Some k → length (closures st) ≤ k).
Proof.
  unfold effect. intros He.
  destruct (nonempty channel) as [ch|]; [|by injection He as <-].
  destruct (String.eqb ch "undefined"); [by injection He as <-|].
  destruct (getToken env) as [tok|]; [|by injection He as <-].
  unfold connectWebSocket in He. cbn [closures set_closures] in He.
  rewrite lookup_app_r in He by done. rewrite Nat.sub_diag in He.
  cbn [lookup list_lookup mbind option_bind] in He.
  destruct (close_current_frame (set_processedMessageIds [] (set_messages [] st)))
    as (Hc & Ht & _). cbn in Hc, Ht.
  destruct (ws_ok env); injection He as <-; cbn; rewrite Hc, Ht;
    (split_and!; [done|by intros; apply lookup_app_l_Some|by intros k [= <-]]).
Qed.

Lemma bind_keeps (channel : option string) (env : Env) (st st' : Hook) :
  step (EvBind channel env) st = Some st' →
  (∀ i s, sockets st !! i = Some s → ∃ s1, sockets st' !! i = Some s1 ∧ same_socket s s1)
  ∧ (∀ k cl, closures st !! k = Some cl → closures st' !! k = Some cl)
  ∧ length (timers st') = length (timers st)
  ∧ (∀ k, cleanup st' = Some k → length (closures st) ≤ k).
Proof.
  cbn [step]. destruct (run_cleanup st) as [st0|] eqn:Hc; [|done]. cbn. intros He.
  destruct (run_cleanup_frame st st0 Hc) as (Hcl & Ht & _).
  destruct (effect_frame _ _ _ _ He) as (Ht' & Hcl' & Hk).
  split_and!.
  - intros i s Hs. destruct (run_cleanup_lookup st st0 i s Hc Hs) as (s0 & Hs0 & H0).
    destruct (effect_lookup _ _ _ _ i s0 He Hs0) as (s1 & Hs1 & H1).
    exists s1. split; [done|]. by eapply same_socket_trans.
  - intros k cl Hkc. apply Hcl'. by rewrite Hcl.
  - by rewrite Ht', Ht.
  - intros k Hkk. rewrite <- Hcl. by apply Hk.
Qed.

(** X10: a rebind does not disarm the handlers of the socket it closes.  If
    a socket of the run being left is not closed yet and then reports an
    abnormal closure while that run's counter is below 5, a reconnect is
    scheduled for the old run, and when its timer fires the new socket,
    addressed to the old channel, becomes [socketRef.current], although the
    cleanup registered then is not that of the old run. *)
Theorem stale_socket_reconnects
    (tr : list Event) (st : Hook) (c i : nat) (s : Socket) (cl : Closure)
    (channel : option string) (env : Env) (code : Z)
    (Hrun : run tr initial = Some st)
    (Hc : cleanup st = Some c)
    (Hs : sockets st !! i = Some s) (Ho : s_owner s = c)
    (Hlive : readyState s ≠ CLOSED)
    (Hcl : closures st !! c = Some cl)
    (Ha : reconnectAttempts cl < maxReconnectAttempts)
    (Hab : abnormal code) :
  ∃ st', run [EvBind channel env; EvClose i code; EvTimer (length (timers st)) true] st
         = Some st'
    ∧ socketRef st' = Some (length (sockets st') - 1)
    ∧ last (sockets st') = Some (mkSocket c (wsUrl (channelId cl)) CONNECTING [])
    ∧ cleanup st' ≠ Some c.
Proof.
  destruct (Lifecycle_reachable tr st Hrun) as [Hwf _].
  destruct (run_cleanup_total st Hwf) as [st0 Hc0].
  destruct (effect_total channel env st0) as [st1 He].
  assert (Hs1 : step (EvBind channel env) st = Some st1).
  { cbn [step]. by rewrite Hc0. }
  destruct (bind_keeps _ _ _ _ Hs1) as (Hsock & Hclos & Htim & Hk).
  destruct (Hsock i s Hs) as (s1 & Hi1 & Hown1 & _ & _ & [_ Hl1] & _).
  specialize (Hclos c cl Hcl).
  cbn [run]. rewrite Hs1. cbn [mbind option_bind].
  rewrite (step_close_eq st1 i s1 code Hi1) by auto.
  pose proof Hab as (Hcode & _).
  erewrite onclose_retry;
    [|rewrite Hown1, Ho; exact Hclos|by apply abnormal_not_unauthorized|done|done].
  cbn [mbind option_bind step].
  cbn [timers set_closures set_timers set_isConnected set_sockets].
  rewrite Hown1, Ho, <- Htim.
  rewrite lookup_app_r by done. rewrite Nat.sub_diag.
  cbn [lookup list_lookup mbind option_bind t_state t_owner].
  rewrite bool_decide_eq_true_2 by done.
  unfold ontimer. cbn [closures set_timers set_closures set_isConnected set_sockets].
  rewrite list_lookup_alter_eq, Hclos. cbn [fmap option_fmap option_map mbind option_bind].
  unfold connectWebSocket. cbn [closures set_closures].
  rewrite !list_lookup_alter_eq, Hclos.
  cbn [fmap option_fmap option_map mbind option_bind].
  eexists. split; [reflexivity|].
  cbn [socketRef sockets cleanup set_socketRef set_sockets set_closures set_timers
       set_isConnected].
  split_and!.
  - rewrite length_app. cbn. f_equal. lia.
  - apply last_snoc.
  - intros Hkc. apply Hk in Hkc. apply lookup_lt_Some in Hcl. lia.
Qed.

Lemma stale_socket_reconnects_witness :
  ∃ st', run [EvBind (Some "random") env_tok; EvClose 0 1006; EvTimer 0 true] opened
         = Some st'
    ∧ socketRef st' = Some (length (sockets st') - 1)
    ∧ last (sockets st') = Some (mkSocket 0 (wsUrl "general") CONNECTING []).
Proof.
  destruct (stale_socket_reconnects
              [EvBind (Some "general") env_tok; EvOpen 0] opened 0 0
              (mkSocket 0 (wsUrl "general") OPEN [JObj [("token", JStr "tok")]])
              (mkClosure "general" "tok" 0 None) (Some "random") env_tok 1006
              eq_refl eq_refl eq_refl eq_refl ltac:(discriminate) eq_refl
              ltac:(unfold maxReconnectAttempts; cbn; lia)
              ltac:(repeat split; discriminate))
    as (st' & Hr & H1 & H2 & _).
  exists st'. split; [exact Hr|]. split; [exact H1|exact H2].
Defined.

(** ** The connected flag *)

Lemma Flag_false (st : Hook) : isConnected st = false → Flag st.
Proof. unfold Flag. by intros ->. Qed.

Lemma Flag_frame (st st' : Hook) :
  isConnected st' = isConnected st → sockets st' = sockets st → Flag st → Flag st'.
Proof. unfold Flag. by intros -> ->. Qed.

Lemma Flag_alter (f : Socket → Socket) (i : nat) (st : Hook) :
  (∀ s, authenticated s → authenticated (f s)) →
  Flag st → Flag (set_sockets (alter f i (sockets st)) st).
Proof.
  intros Hf Hfl Hc. destruct (Hfl Hc) as (j & s & Hs & Ha).
  cbn. destruct (decide (i = j)) as [->|Hne].
  - exists j, (f s). rewrite list_lookup_alter_eq, Hs. split; [done|by apply Hf].
  - exists j, s. by rewrite list_lookup_alter_ne.
Qed.

Lemma Flag_add (s : Socket) (st : Hook) :
  Flag st → Flag (set_sockets (sockets st ++ [s]) st).
Proof.
  intros Hfl Hc. destruct (Hfl Hc) as (j & s0 & Hs & Ha).
  exists j, s0. split; [by apply lookup_app_l_Some|done].
Qed.

Lemma authenticated_close (s : Socket) : authenticated s → authenticated (ws_close s).
Proof.
  unfold authenticated. intros (H1 & H2 & H3).
  destruct (ws_close_keeps s) as (_ & _ & -> & [_ K] & _ & K2). auto.
Qed.

Lemma authenticated_send (frame : json) (s : Socket) :
  authenticated s → authenticated (ws_send frame s).
Proof.
  unfold authenticated. intros (H1 & H2 & H3). cbn. split_and!; [done|done|].
  by destruct (sent s).
Qed.

Lemma Flag_close_current (st : Hook) : Flag st → Flag (close_current st).
Proof.
  intros Hfl. unfold close_current. destruct (socketRef st); [|done].
  apply Flag_alter; [apply authenticated_close|done].
Qed.

Lemma Flag_run_cleanup (st st' : Hook) : Flag st → run_cleanup st = Some st' → Flag st'.
Proof.
  intros Hfl. unfold run_cleanup. destruct (cleanup st) as [c|]; [|by intros [= <-]].
  destruct (closures st !! c) as [cl|]; [|done]. cbn. intros [= <-].
  apply (Flag_frame (close_current (clearTimeout (reconnectTimeout cl) st))); [done..|].
  apply Flag_close_current. apply (Flag_frame st); [|by destruct (reconnectTimeout cl)|done].
  by destruct (reconnectTimeout cl).
Qed.

Lemma Flag_connectWebSocket (c : nat) (ok : bool) (st st' : Hook) :
  Flag st → connectWebSocket c ok st = Some st' → Flag st'.
Proof.
  intros Hfl. unfold connectWebSocket. destruct (closures st !! c) as [cl|]; [|done].
  cbn. destruct ok; intros [= <-]; [|by apply Flag_false].
  apply (Flag_frame (set_sockets (sockets st ++ [mkSocket c (wsUrl (channelId cl)) CONNECTING []]) st));
    [done..|].
  by apply Flag_add.
Qed.

Lemma Flag_effect (channel : option string) (env : Env) (st st' : Hook) :
  Flag st → effect channel env st = Some st' → Flag st'.
Proof.
  intros Hfl. unfold effect.
  destruct (nonempty channel) as [ch|]; [|intros [= <-]; by apply Flag_false].
  destruct (String.eqb ch "undefined"); [intros [= <-]; by apply Flag_false|].
  destruct (getToken env) as [tok|];
    [|intros [= <-]; by apply (Flag_frame st)].
  destruct (connectWebSocket _ _ _) as [st1|] eqn:Hc; [|done]. cbn. intros [= <-].
  apply (Flag_frame st1); [done..|].
  eapply Flag_connectWebSocket; [|exact Hc].
  apply (Flag_frame (close_current (set_processedMessageIds [] (set_messages [] st))));
    [done..|].
  apply Flag_close_current. by apply (Flag_frame st).
Qed.

Lemma onclose_flag (c : nat) (code : Z) (st st' : Hook) :
  onclose c code st = Some st' → isConnected st' = false.
Proof.
  unfold onclose. destruct (closures st !! c); [|done]. cbn [mbind option_bind].
  destruct (unauthorized code); [by intros [= <-]|].
  destruct (_ && _); [by intros [= <-]|].
  destruct (_ <=? _); by intros [= <-].
Qed.

Lemma Flag_step (e : Event) (st st' : Hook) : Flag st → step e st = Some st' → Flag st'.
Proof.
  intros Hfl Hs. destruct e as [channel env| |i|i raw|i info|i code|t ok|content];
    cbn [step] in Hs.
  - destruct (run_cleanup st) as [st1|] eqn:Hc; [|done]. cbn in Hs.
    eapply Flag_effect; [|exact Hs]. by eapply Flag_run_cleanup.
  - by eapply Flag_run_cleanup.
  - destruct (sockets st !! i) as [s|] eqn:Hi; [|done]. cbn in Hs.
    destruct (bool_decide _); [|done]. unfold onopen in Hs. cbn in Hs.
    rewrite list_lookup_alter_eq, Hi in Hs. cbn in Hs.
    destruct (closures st !! s_owner s) as [cl|]; [|done]. cbn in Hs.
    injection Hs as <-. intros _. cbn.
    exists i. eexists. rewrite !list_lookup_alter_eq, Hi. cbn. split; [done|].
    unfold authenticated. cbn. split_and!; [done|done|]. by destruct (sent s).
  - destruct (sockets st !! i) as [s|]; [|done]. cbn in Hs.
    destruct (bool_decide _); [|done]. injection Hs as <-.
    apply (Flag_frame st); [| |done]; unfold onmessage; destruct raw as [|data]; try done;
      destruct data; try done;
      (destruct (is_chat _); [|done]; by destruct (negb _)).
  - destruct (sockets st !! i) as [s|]; [|done]. cbn in Hs.
    destruct (bool_decide _); [done|]. injection Hs as <-. by apply Flag_false.
  - destruct (sockets st !! i) as [s|]; [|done]. cbn in Hs.
    destruct (bool_decide _); [done|]. apply Flag_false. by eapply onclose_flag.
  - destruct (timers st !! t) as [tm|]; [|done]. cbn in Hs.
    destruct (bool_decide _); [|done]. unfold ontimer in Hs. cbn in Hs.
    destruct (closures st !! t_owner tm) as [cl|]; [|done]. cbn in Hs.
    eapply Flag_connectWebSocket; [|exact Hs]. by apply (Flag_frame st).
  - injection Hs as <-. unfold sendMessage.
    destruct (negb (is_open st)); [by apply (Flag_frame st)|].
    destruct (stringify content) as [frame|]; [|by apply (Flag_frame st)].
    destruct (socketRef st) as [i|]; [|by apply (Flag_frame st)].
    cbn. apply Flag_alter; [apply authenticated_send|done].
Qed.

(** X11: whenever the connected flag is true, some socket has opened and
    sent its authentication frame, and no closure of it has been reported:
    its ready state is OPEN or CLOSING. *)
Theorem connected_flag_has_socket (tr : list Event) (st : Hook)
    (Hrun : run tr initial = Some st) (Hflag : isConnected st = true) :
  ∃ i s, sockets st !! i = Some s
    ∧ (readyState s = OPEN ∨ readyState s = CLOSING) ∧ sent s ≠ [].
Proof.
  assert (Hfl : Flag st).
  { eapply (run_invariant Flag); [apply Flag_step| |exact Hrun]. by apply Flag_false. }
  destruct (Hfl Hflag) as (i & s & Hs & H1 & H2 & H3).
  exists i, s. split; [done|]. split; [|done]. by destruct (readyState s); auto.
Qed.

Lemma connected_flag_has_socket_witness :
  ∃ i s, sockets opened !! i = Some s
    ∧ (readyState s = OPEN ∨ readyState s = CLOSING) ∧ sent s ≠ [].
Proof.
  exact (connected_flag_has_socket
           [EvBind (Some "general") env_tok; EvOpen 0] opened eq_refl eq_refl).
Defined.

(** ** Sending around a rebind *)

Lemma is_open_frame (st st' : Hook) :
  socketRef st' = socketRef st → sockets st' = sockets st → is_open st' = is_open st.
Proof. unfold is_open. by intros -> ->. Qed.

Lemma is_open_close_current (st : Hook) : is_open (close_current st) = false.
Proof.
  unfold close_current, is_open. destruct (socketRef st) as [i|] eqn:Hr; [|by rewrite Hr].
  cbn. rewrite Hr, list_lookup_alter_eq. destruct (sockets st !! i) as [s|]; [|done]. cbn.
  apply bool_decide_eq_false_2. by destruct (ws_close_keeps s) as (_ & _ & _ & _ & ? & _).
Qed.

Lemma is_open_connectWebSocket (c : nat) (ok : bool) (st st' : Hook) :
  is_open st = false → connectWebSocket c ok st = Some st' → is_open st' = false.
Proof.
  intros Ho. unfold connectWebSocket. destruct (closures st !! c) as [cl|]; [|done].
  cbn. destruct ok; intros [= <-]; [|done].
  unfold is_open. cbn. rewrite lookup_app_r by done. by rewrite Nat.sub_diag.
Qed.

Lemma is_open_effect (channel : option string) (env : Env) (st st' : Hook) :
  (is_open st = false
   ∨ ∃ ch tok, nonempty channel = Some ch ∧ ch ≠ "undefined" ∧ getToken env = Some tok) →
  effect channel env st = Some st' → is_open st' = false.
Proof.
  intros Hb. unfold effect.
  destruct (nonempty channel) as [ch|] eqn:Hch.
  - destruct (String.eqb ch "undefined") eqn:Hu.
    + apply String.eqb_eq in Hu. intros [= <-].
      destruct Hb as [Ho|(ch' & tok & [= <-] & Hne & _)]; [done|congruence].
    + destruct (getToken env) as [tok|] eqn:Htok.
      * destruct (connectWebSocket _ _ _) as [st1|] eqn:Hc; [|done]. cbn.
        intros [= <-].
        apply is_open_connectWebSocket in Hc; [done|].
        apply (is_open_close_current (set_processedMessageIds [] (set_messages [] st))).
      * intros [= <-]. destruct Hb as [Ho|(ch' & tok & _ & _ & ?)]; [done|done].
  - intros [= <-]. destruct Hb as [Ho|(ch' & tok & ? & _)]; [done|done].
Qed.

(** X12: right after a change of channel nothing can be sent: if the run
    being left had registered a cleanup, or the new binding is accepted,
    [sendMessage] returns false and writes no frame until the new socket
    opens, so no frame goes to the socket of the channel left. *)
Theorem rebind_blocks_send
    (st st' : Hook) (channel : option string) (env : Env) (content : Content)
    (Hbound : is_Some (cleanup st)
              ∨ ∃ ch tok, nonempty channel = Some ch ∧ ch ≠ "undefined"
                          ∧ getToken env = Some tok)
    (Hstep : step (EvBind channel env) st = Some st') :
  fst (sendMessage content st') = false
  ∧ sockets (snd (sendMessage content st')) = sockets st'
  ∧ error (snd (sendMessage content st')) = Some "WebSocket not connected".
Proof.
  assert (Ho : is_open st' = false).
  { cbn [step] in Hstep. destruct (run_cleanup st) as [st0|] eqn:Hc; [|done].
    cbn in Hstep. eapply is_open_effect; [|exact Hstep].
    destruct Hbound as [[c Hk]|Hv]; [left|by right].
    unfold run_cleanup in Hc. rewrite Hk in Hc.
    destruct (closures st !! c) as [cl|]; [|done]. cbn in Hc. injection Hc as <-.
    rewrite (is_open_frame (close_current (clearTimeout (reconnectTimeout cl) st)));
      [apply is_open_close_current|done|done]. }
  unfold sendMessage. by rewrite Ho.
Qed.

Lemma rebind_blocks_send_witness :
  ∃ st', step (EvBind (Some "random") env_tok) opened = Some st'
    ∧ fst (sendMessage (ContentString "hi") st') = false.
Proof.
  eexists. split; [vm_compute; reflexivity|].
  exact (proj1 (rebind_blocks_send opened _ (Some "random") env_tok (ContentString "hi")
                  (or_introl (ex_intro _ 0 eq_refl)) eq_refl)).
Defined.

(** The state a successful bind produces. *)
Lemma bind_connects (st0 : Hook) (ch tok : string) (env : Env) :
  WF st0 → ch ≠ "" → ch ≠ "undefined" → getToken env = Some tok → ws_ok env = true →
  ∃ st1 ss, step (EvBind (Some ch) env) st0 = Some st1
    ∧ sockets st1 = ss ++ [mkSocket (length (closures st0)) (wsUrl ch) CONNECTING []]
    ∧ length ss = length (sockets st0)
    ∧ closures st1 = closures st0 ++ [mkClosure ch tok 0 None]
    ∧ socketRef st1 = Some (length (sockets st0))
    ∧ cleanup st1 = Some (length (closures st0)).
Proof.
  intros Hwf H1 H2 Htok Hok.
  destruct (run_cleanup_total st0 Hwf) as [st' Hc].
  destruct (run_cleanup_frame _ _ Hc) as (Hcl & _ & Hls).
  cbn [step]. rewrite Hc. cbn [mbind option_bind].
  rewrite <- Hcl, <- Hls. clear Hc Hcl Hls Hwf st0.
  destruct (close_current_frame (set_processedMessageIds [] (set_messages [] st')))
    as (Hc1 & _ & Hc3). cbn in Hc1, Hc3.
  unfold effect. cbn [nonempty].
  apply String.eqb_neq in H1, H2. rewrite H1, H2, Htok, Hok.
  unfold connectWebSocket. cbn [closures set_closures].
  rewrite lookup_app_r by done. rewrite Nat.sub_diag.
  cbn [lookup list_lookup mbind option_bind channelId].
  eexists _, _. split; [reflexivity|].
  cbn [sockets closures socketRef cleanup set_cleanup set_socketRef set_sockets set_closures].
  rewrite Hc1, Hc3. by split_and!.
Qed.

(** X13: a bind with a good channel identifier, followed by the opening of
    the socket it made and a send of a string, leaves on that socket exactly
    two frames: the authentication object holding the token found at bind
    time, which is the localStorage token whenever that is non-empty and the
    cookie token otherwise, then the string wrapped as content. The send
    returns true. *)
Theorem bind_open_send
    (tr : list Event) (st0 : Hook) (ch tok text : string) (env : Env)
    (Hrun : run tr initial = Some st0)
    (Hch : ch ≠ "") (Hch' : ch ≠ "undefined")
    (Htok : getToken env = Some tok) (Hok : ws_ok env = true) :
  ∃ st2,
    run [EvBind (Some ch) env; EvOpen (length (sockets st0))] st0 = Some st2
    ∧ fst (sendMessage (ContentString text) st2) = true
    ∧ sockets (snd (sendMessage (ContentString text) st2)) !! length (sockets st0)
      = Some (mkSocket (length (closures st0))
                ("wss://api.loryx.lol/chat/channels/" +:+ ch +:+ "/ws") OPEN
                [JObj [("token", JStr tok)]; JObj [("content", JStr text)]])
    ∧ (∀ t, storage_token env = Some t → t ≠ "" → tok = t)
    ∧ (nonempty (storage_token env) = None → cookie_token env = Some tok).
Proof.
  pose proof (WF_reachable tr st0 Hrun) as Hwf.
  destruct (bind_connects st0 ch tok env Hwf Hch Hch' Htok Hok)
    as (st1 & ss & Hs1 & Hsock & Hlen & Hclos & Href & _).
  cbn [run]. rewrite Hs1. cbn [mbind option_bind step].
  assert (Hi : sockets st1 !! length (sockets st0)
               = Some (mkSocket (length (closures st0)) (wsUrl ch) CONNECTING [])).
  { rewrite Hsock, <- Hlen. by destruct (last_index ss
      (mkSocket (length (closures st0)) (wsUrl ch) CONNECTING [])). }
  rewrite Hi. cbn [mbind option_bind readyState].
  rewrite bool_decide_eq_true_2 by done.
  unfold onopen. cbn [sockets closures set_sockets].
  rewrite list_lookup_alter_eq, Hi.
  cbn [fmap option_fmap option_map mbind option_bind s_owner ws_set_state].
  rewrite Hclos, lookup_app_r by done. rewrite Nat.sub_diag.
  cbn [lookup list_lookup mbind option_bind token].
  eexists. split; [reflexivity|].
  set (st2 := set_closures _ _).
  assert (Hr2 : socketRef st2 = Some (length (sockets st0))) by exact Href.
  assert (Hi2 : sockets st2 !! length (sockets st0)
                = Some (mkSocket (length (closures st0)) (wsUrl ch) OPEN
                          [JObj [("token", JStr tok)]])).
  { unfold st2. cbn [sockets set_closures set_error set_isConnected set_sockets].
    by rewrite !list_lookup_alter_eq, Hi. }
  unfold sendMessage. rewrite (is_open_true st2 _ _ Hr2 Hi2 eq_refl), Hr2.
  cbn [negb stringify fst snd sockets set_sockets].
  split; [done|]. split.
  - by rewrite list_lookup_alter_eq, Hi2.
  - unfold getToken in Htok. split.
    + intros t Ht Hne. rewrite Ht in Htok. cbn in Htok.
      apply String.eqb_neq in Hne. rewrite Hne in Htok. by injection Htok.
    + intros Hn. rewrite Hn in Htok. by apply nonempty_Some in Htok as [? _].
Qed.

Lemma bind_open_send_witness :
  ∃ st2, run [EvBind (Some "general") (mkEnv (Some "s-tok") (Some "c-tok") true); EvOpen 0]
             initial = Some st2
    ∧ fst (sendMessage (ContentString "hi") st2) = true
    ∧ sockets (snd (sendMessage (ContentString "hi") st2)) !! 0
      = Some (mkSocket 0 "wss://api.loryx.lol/chat/channels/general/ws" OPEN
                [JObj [("token", JStr "s-tok")]; JObj [("content", JStr "hi")]]).
Proof.
  destruct (bind_open_send [] initial "general" "s-tok" "hi"
              (mkEnv (Some "s-tok") (Some "c-tok") true)
              eq_refl ltac:(discriminate) ltac:(discriminate) eq_refl eq_refl)
    as (st2 & Hr & H1 & H2 & _).
  exists st2. split; [exact Hr|]. split; [exact H1|exact H2].
Defined.

(** ** Closures that schedule nothing *)

Lemma onclose_quiet (c : nat) (code : Z) (st : Hook) (cl : Closure) :
  closures st !! c = Some cl →
  code = 4001%Z ∨ code = 1008%Z ∨ code = 1000%Z
  ∨ maxReconnectAttempts ≤ reconnectAttempts cl →
  ∃ st', onclose c code st = Some st'
    ∧ sockets st' = sockets st ∧ timers st' = timers st ∧ closures st' = closures st
    ∧ isConnected st' = false
    ∧ (code = 4001%Z ∨ code = 1008%Z →
       error st' = Some "Not authorized to access this channel").
Proof.
  intros Hcl Hq. destruct (unauthorized code) eqn:Hu.
  - rewrite (onclose_unauthorized _ _ _ _ Hcl Hu). eexists. by split_and!.
  - assert (Hnu : ¬ (code = 4001%Z ∨ code = 1008%Z)).
    { intros H. apply unauthorized_spec in H. congruence. }
    destruct (le_lt_dec maxReconnectAttempts (reconnectAttempts cl)) as [Hge|Hlt].
    + rewrite (onclose_exhausted _ _ _ _ Hcl Hu Hge). eexists. by split_and!.
    + assert (code = 1000%Z) as -> by (destruct Hq as [?|[?|[?|?]]]; [tauto|tauto|done|lia]).
      rewrite (onclose_clean _ _ _ Hcl Hlt). eexists. by split_and!.
Qed.

(** X14: a closure that schedules no reconnect is final for its effect run.
    When a socket reports an unauthorized code (4001 or 1008), the clean
    code 1000, or any code once the run's counter has reached 5, then from
    that moment on, whatever else happens, the run has no socket that is not
    closed and no pending timer, and no socket is ever made for it again; an
    unauthorized code shows the "not authorized" error at that moment. *)
Theorem quiet_closure_is_final
    (tr tr' : list Event) (st st' : Hook) (i : nat) (s : Socket) (cl : Closure)
    (code : Z)
    (Hrun : run tr initial = Some st)
    (Hs : sockets st !! i = Some s) (Hlive : readyState s ≠ CLOSED)
    (Hcl : closures st !! s_owner s = Some cl)
    (Hquiet : code = 4001%Z ∨ code = 1008%Z ∨ code = 1000%Z
              ∨ maxReconnectAttempts ≤ reconnectAttempts cl)
    (Hrun' : run (EvClose i code :: tr') st = Some st') :
  live (s_owner s) st' = false ∧ reconnect_pending (s_owner s) st' = false
  ∧ connecting (s_owner s) st' = false
  ∧ owned (s_owner s) st' = owned (s_owner s) st
  ∧ (code = 4001%Z ∨ code = 1008%Z →
     error <$> step (EvClose i code) st
     = Some (Some "Not authorized to access this channel")).
Proof.
  destruct (Lifecycle_reachable tr st Hrun) as [_ Hl].
  cbn [run] in Hrun'. rewrite (step_close_eq st i s code Hs Hlive) in Hrun' |- *.
  set (st0 := set_sockets _ st) in *.
  destruct (onclose_quiet (s_owner s) code st0 cl Hcl Hquiet)
    as (st1 & Ho & Hsock & Htim & Hclos & _ & Herr).
  rewrite Ho in Hrun' |- *. cbn [mbind option_bind] in Hrun'.
  assert (Hg : Gone (s_owner s) st1).
  { split_and!.
    - rewrite Hclos. by apply lookup_lt_Some in Hcl.
    - intros j y Hy Hlv. rewrite Hsock in Hy. cbn in Hy.
      apply lookup_alter_inv in Hy as (x & Hx & [[Hne ->]|[_ ->]]); [|done].
      intros Heq. apply Hne. by apply (lc_socket st Hl i j s x).
    - intros t tm Ht Hp Heq. rewrite Htim in Ht. cbn in Ht.
      by apply (lc_excl st Hl i s t tm). }
  assert (Hown : owned (s_owner s) st1 = owned (s_owner s) st).
  { unfold owned. rewrite Hsock. cbn. by apply owned_alter. }
  destruct (Gone_run _ tr' st1 st' Hg Hrun') as [Hg' Ho'].
  destruct (Gone_observed _ st' Hg') as (H1 & H2 & H3).
  split_and!; [done|done|done|congruence|].
  intros Hc. cbn. by rewrite (Herr Hc).
Qed.

Lemma quiet_closure_is_final_witness :
  ∃ st', run [EvClose 0 1008; EvSend (ContentString "hi")] opened = Some st'
    ∧ live 0 st' = false ∧ reconnect_pending 0 st' = false.
Proof.
  eexists. split; [vm_compute; reflexivity|].
  destruct (quiet_closure_is_final
              [EvBind (Some "general") env_tok; EvOpen 0]
              [EvSend (ContentString "hi")] opened _ 0
              (mkSocket 0 (wsUrl "general") OPEN [JObj [("token", JStr "tok")]])
              (mkClosure "general" "tok" 0 None) 1008
              eq_refl eq_refl ltac:(discriminate) eq_refl
              (or_intror (or_introl eq_refl)) eq_refl)
    as (H1 & H2 & _).
  split; [exact H1|exact H2].
Defined.

(** ** Frames written to a socket *)

Lemma Frames_frame (st st' : Hook) :
  sockets st' = sockets st → closures st' = closures st → Frames st → Frames st'.
Proof. unfold Frames. by intros -> ->. Qed.

(** A socket changed in place without touching what was sent, and not
    brought back to the connecting or open state. *)
Lemma Frames_alter_state (f : Socket → Socket) (i : nat) (st : Hook) :
  (∀ s, sockets st !! i = Some s →
        s_owner (f s) = s_owner s ∧ sent (f s) = sent s
        ∧ (readyState (f s) = CONNECTING → readyState s = CONNECTING)
        ∧ (readyState (f s) = OPEN → readyState s = OPEN)) →
  Frames st → Frames (set_sockets (alter f i (sockets st)) st).
Proof.
  intros Hf Hfr j y Hy. cbn in Hy.
  apply lookup_alter_inv in Hy as (x & Hx & [[_ ->]|[<- ->]]); [by apply (Hfr _ _ Hx)|].
  destruct (Hf x Hx) as (Ho & Hs & Hc & Hop). destruct (Hfr i x Hx) as (H1 & H2 & H3).
  rewrite Ho, Hs. cbn. split_and!; auto.
Qed.

Lemma Frames_closures (f : Closure → Closure) (c : nat) (st : Hook) :
  (∀ cl, token (f cl) = token cl) →
  Frames st → Frames (set_closures (alter f c (closures st)) st).
Proof.
  intros Hf Hfr i s Hs. cbn in Hs. destruct (Hfr i s Hs) as (H1 & H2 & H3).
  split_and!; [done|done|]. intros Hne. destruct (H3 Hne) as (cl & Hcl & Hh).
  cbn. rewrite list_lookup_alter. case_decide as Hc.
  - subst c. rewrite Hcl. cbn. eexists. split; [done|]. by rewrite Hf.
  - by exists cl.
Qed.

Lemma Frames_add (c : nat) (url : string) (st : Hook) :
  Frames st → Frames (set_sockets (sockets st ++ [mkSocket c url CONNECTING []]) st).
Proof.
  intros Hfr i s Hs. cbn in Hs. apply lookup_snoc_Some in Hs as [[_ Hs]|[_ <-]];
    [by apply (Hfr _ _ Hs)|]. cbn. by split_and!.
Qed.

Lemma Frames_new_closure (cl : Closure) (st : Hook) :
  Frames st → Frames (set_closures (closures st ++ [cl]) st).
Proof.
  intros Hfr i s Hs. cbn in Hs. destruct (Hfr i s Hs) as (H1 & H2 & H3).
  split_and!; [done|done|]. intros Hne. destruct (H3 Hne) as (cl0 & Hcl & Hh).
  exists cl0. split; [by apply lookup_app_l_Some|done].
Qed.

Lemma Frames_close_current (st : Hook) : Frames st → Frames (close_current st).
Proof.
  intros Hfr. unfold close_current. destruct (socketRef st); [|done].
  apply Frames_alter_state; [|done]. intros s _.
  destruct (ws_close_keeps s) as (Ho & _ & Hs & _ & Hop & Hc). by split_and!.
Qed.

Lemma Frames_run_cleanup (st st' : Hook) : Frames st → run_cleanup st = Some st' → Frames st'.
Proof.
  intros Hfr. unfold run_cleanup. destruct (cleanup st) as [c|]; [|by intros [= <-]].
  destruct (closures st !! c) as [cl|]; [|done]. cbn. intros [= <-].
  apply (Frames_frame (close_current (clearTimeout (reconnectTimeout cl) st))); [done..|].
  apply Frames_close_current.
  apply (Frames_frame st); [by destruct (reconnectTimeout cl)..|done].
Qed.

Lemma Frames_connectWebSocket (c : nat) (ok : bool) (st st' : Hook) :
  Frames st → connectWebSocket c ok st = Some st' → Frames st'.
Proof.
  intros Hfr. unfold connectWebSocket. destruct (closures st !! c) as [cl|]; [|done].
  cbn. destruct ok; intros [= <-]; [|by apply (Frames_frame st)].
  apply (Frames_frame (set_sockets (sockets st ++ [mkSocket c (wsUrl (channelId cl)) CONNECTING []]) st));
    [done..|].
  by apply Frames_add.
Qed.

Lemma Frames_effect (channel : option string) (env : Env) (st st' : Hook) :
  Frames st → effect channel env st = Some st' → Frames st'.
Proof.
  intros Hfr. unfold effect.
  destruct (nonempty channel) as [ch|]; [|intros [= <-]; by apply (Frames_frame st)].
  destruct (String.eqb ch "undefined"); [intros [= <-]; by apply (Frames_frame st)|].
  destruct (getToken env) as [tok|]; [|intros [= <-]; by apply (Frames_frame st)].
  destruct (connectWebSocket _ _ _) as [st1|] eqn:Hc; [|done]. cbn. intros [= <-].
  apply (Frames_frame st1); [done..|].
  eapply Frames_connectWebSocket; [|exact Hc].
  apply Frames_new_closure, Frames_close_current. by apply (Frames_frame st).
Qed.

Lemma Frames_step (e : Event) (st st' : Hook) : Frames st → step e st = Some st' → Frames st'.
Proof.
  intros Hfr Hs. destruct e as [channel env| |i|i raw|i info|i code|t ok|content];
    cbn [step] in Hs.
  - destruct (run_cleanup st) as [st1|] eqn:Hc; [|done]. cbn in Hs.
    eapply Frames_effect; [|exact Hs]. by eapply Frames_run_cleanup.
  - by eapply Frames_run_cleanup.
  - destruct (sockets st !! i) as [s|] eqn:Hi; [|done]. cbn in Hs.
    destruct (bool_decide (readyState s = CONNECTING)) eqn:Hb; [|done].
    apply bool_decide_eq_true_1 in Hb.
    unfold onopen in Hs. cbn in Hs. rewrite list_lookup_alter_eq, Hi in Hs. cbn in Hs.
    destruct (closures st !! s_owner s) as [cl|] eqn:Hcl; [|done]. cbn in Hs.
    injection Hs as <-.
    apply (Frames_closures (set_attempts 0) (s_owner s)
             (set_error None (set_isConnected true (set_sockets _ st)))); [done|].
    apply (Frames_frame (set_sockets
             (alter (ws_send (JObj [("token", JStr (token cl))])) i
                (alter (ws_set_state OPEN) i (sockets st))) st)); [done..|].
    intros j y Hy. cbn in Hy. rewrite list_alter_alter_eq in Hy.
    apply lookup_alter_inv in Hy as (x & Hx & [[_ ->]|[<- ->]]); [by apply (Hfr _ _ Hx)|].
    rewrite Hi in Hx. injection Hx as <-.
    destruct (Hfr i s Hi) as (H1 & _ & _). cbn. rewrite (H1 Hb). cbn.
    split_and!; [done|done|]. intros _. by exists cl.
  - destruct (sockets st !! i) as [s|]; [|done]. cbn in Hs.
    destruct (bool_decide _); [|done]. injection Hs as <-.
    apply (Frames_frame st); [| |done]; unfold onmessage; destruct raw as [|data]; try done;
      destruct data; try done;
      (destruct (is_chat _); [|done]; by destruct (negb _)).
  - destruct (sockets st !! i) as [s|]; [|done]. cbn in Hs.
    destruct (bool_decide _); [done|]. injection Hs as <-. by apply (Frames_frame st).
  - destruct (sockets st !! i) as [s|] eqn:Hi; [|done]. cbn in Hs.
    destruct (bool_decide _); [done|].
    assert (Hfr1 : Frames (set_sockets (alter (ws_set_state CLOSED) i (sockets st)) st)).
    { apply Frames_alter_state; [|done]. intros s0 _. by split_and!. }
    revert Hs Hfr1. generalize (set_sockets (alter (ws_set_state CLOSED) i (sockets st)) st).
    intros st1 Hs Hfr1. unfold onclose in Hs.
    destruct (closures st1 !! s_owner s) as [cl|]; [|done]. cbn [mbind option_bind] in Hs.
    destruct (unauthorized code); [injection Hs as <-; by apply (Frames_frame st1)|].
    destruct (_ && _).
    + injection Hs as <-.
      apply (Frames_closures (set_timeout (Some (length (timers st1)))) (s_owner s)
               (set_timers _ (set_isConnected false st1))); [done|].
      by apply (Frames_frame st1).
    + destruct (_ <=? _); injection Hs as <-; by apply (Frames_frame st1).
  - destruct (timers st !! t) as [tm|]; [|done]. cbn in Hs.
    destruct (bool_decide _); [|done]. unfold ontimer in Hs. cbn in Hs.
    destruct (closures st !! t_owner tm) as [cl|]; [|done]. cbn in Hs.
    eapply Frames_connectWebSocket; [|exact Hs].
    apply (Frames_closures (set_attempts (S (reconnectAttempts cl))) (t_owner tm)
             (set_timers _ st)); [done|].
    by apply (Frames_frame st).
  - injection Hs as <-. unfold sendMessage, is_open.
    destruct (socketRef st) as [i|] eqn:Hr; [|by apply (Frames_frame st)].
    destruct (sockets st !! i) as [s|] eqn:Hi; [|by apply (Frames_frame st)].
    destruct (bool_decide (readyState s = OPEN)) eqn:Hb; [|by apply (Frames_frame st)].
    apply bool_decide_eq_true_1 in Hb. cbn [negb].
    destruct (stringify content) as [frame|]; [|by apply (Frames_frame st)].
    cbn. intros j y Hy. cbn in Hy.
    apply lookup_alter_inv in Hy as (x & Hx & [[_ ->]|[<- ->]]); [by apply (Hfr _ _ Hx)|].
    rewrite Hi in Hx. injection Hx as <-.
    destruct (Hfr i s Hi) as (_ & H2 & H3). specialize (H2 Hb).
    destruct (H3 H2) as (cl & Hcl & Hh). cbn.
    split_and!; [congruence|by destruct (sent s)|].
    intros _. exists cl. split; [done|]. by destruct (sent s).
Qed.

(** X20: on every socket, at any time, nothing has been written while it is
    connecting, and whatever has been written starts with the authentication
    frame holding the token of the socket's effect run: no frame of the
    application ever goes out before it. *)
Theorem auth_frame_first (tr : list Event) (st : Hook) (i : nat) (s : Socket)
    (Hrun : run tr initial = Some st) (Hs : sockets st !! i = Some s) :
  (readyState s = CONNECTING → sent s = [])
  ∧ (readyState s = OPEN → sent s ≠ [])
  ∧ (sent s ≠ [] →
     ∃ cl, closures st !! s_owner s = Some cl
           ∧ head (sent s) = Some (JObj [("token", JStr (token cl))])).
Proof.
  assert (Hfr : Frames st).
  { eapply (run_invariant Frames); [apply Frames_step| |exact Hrun].
    intros j y Hy. cbn in Hy. by rewrite lookup_nil in Hy. }
  by apply (Hfr i s).
Qed.

Lemma auth_frame_first_witness :
  ∃ cl, closures opened !! 0 = Some cl
        ∧ head [JObj [("token", JStr "tok")]] = Some (JObj [("token", JStr (token cl))]).
Proof.
  apply (proj2 (proj2 (auth_frame_first
           [EvBind (Some "general") env_tok; EvOpen 0] opened 0
           (mkSocket 0 (wsUrl "general") OPEN [JObj [("token", JStr "tok")]])
           eq_refl eq_refl))).
  discriminate.
Defined.

(** ** Opening resets the backoff *)

Lemma step_open_eq (st : Hook) (i : nat) (s : Socket) (cl : Closure) :
  sockets st !! i = Some s → readyState s = CONNECTING →
  closures st !! s_owner s = Some cl →
  step (EvOpen i) st
  = Some (set_closures (alter (set_attempts 0) (s_owner s) (closures st))
            (set_error None (set_isConnected true
               (set_sockets
                  (alter (ws_send (JObj [("token", JStr (token cl))])) i
                     (alter (ws_set_state OPEN) i (sockets st))) st)))).
Proof.
  intros Hs Hc Hcl. cbn [step]. rewrite Hs. cbn [mbind option_bind].
  rewrite bool_decide_eq_true_2 by done.
  unfold onopen. cbn [sockets closures set_sockets].
  rewrite list_lookup_alter_eq, Hs.
  cbn [fmap option_fmap option_map mbind option_bind s_owner ws_set_state].
  by rewrite Hcl.
Qed.

(** X21: however many reconnect attempts a run has made, once its socket
    opens the next abnormal closure is retried after 1000 ms again: the open
    puts the counter back to 0, so the closure always schedules a reconnect,
    with the first delay of the backoff sequence. *)
Theorem open_resets_backoff
    (tr : list Event) (st : Hook) (i : nat) (s : Socket) (code : Z)
    (Hrun : run tr initial = Some st)
    (Hs : sockets st !! i = Some s) (Hconn : readyState s = CONNECTING)
    (Hab : abnormal code) :
  ∃ st', run [EvOpen i; EvClose i code] st = Some st'
    ∧ last (timers st') = Some (mkTimer (s_owner s) 1000 Pending)
    ∧ length (timers st') = S (length (timers st))
    ∧ ∃ cl, closures st' !! s_owner s = Some cl ∧ reconnectAttempts cl = 0.
Proof.
  pose proof (WF_reachable tr st Hrun) as [Hsock _ _].
  destruct (Forall_lookup_1 _ _ _ _ Hsock Hs) as [Hown _].
  destruct (lookup_lt_is_Some_2 _ _ Hown) as [cl Hcl].
  cbn [run]. rewrite (step_open_eq st i s cl Hs Hconn Hcl). cbn [mbind option_bind].
  set (st1 := set_closures _ _).
  assert (Hi1 : sockets st1 !! i
                = Some (ws_send (JObj [("token", JStr (token cl))]) (ws_set_state OPEN s))).
  { unfold st1. cbn. by rewrite !list_lookup_alter_eq, Hs. }
  assert (Hcl1 : closures st1 !! s_owner s = Some (set_attempts 0 cl)).
  { unfold st1. cbn. by rewrite list_lookup_alter_eq, Hcl. }
  rewrite (step_close_eq st1 i _ code Hi1) by done.
  pose proof Hab as (Hcode & _).
  erewrite onclose_retry;
    [|exact Hcl1|by apply abnormal_not_unauthorized
     |cbn; unfold maxReconnectAttempts; lia|done].
  cbn [mbind option_bind]. eexists. split; [reflexivity|].
  cbn [timers closures set_closures set_timers set_isConnected set_sockets
       s_owner ws_send ws_set_state reconnectAttempts set_attempts].
  split_and!.
  - rewrite last_snoc. reflexivity.
  - rewrite length_app. cbn. unfold st1. cbn. lia.
  - eexists. rewrite list_lookup_alter_eq.
    change (closures st1) with (alter (set_attempts 0) (s_owner s) (closures st)).
    rewrite list_lookup_alter_eq, Hcl. cbn. split; reflexivity.
Qed.

Lemma open_resets_backoff_witness :
  ∃ st', run [EvOpen 3; EvClose 3 1006]
           (mkHook [] false None (Some 3) []
              [mkSocket 0 (wsUrl "general") CLOSED [];
               mkSocket 0 (wsUrl "general") CLOSED [];
               mkSocket 0 (wsUrl "general") CLOSED [];
               mkSocket 0 (wsUrl "general") CONNECTING []]
              [mkTimer 0 1000 Fired; mkTimer 0 2000 Fired; mkTimer 0 4000 Fired]
              [mkClosure "general" "tok" 3 (Some 2)] (Some 0)) = Some st'
    ∧ last (timers st') = Some (mkTimer 0 1000 Pending).
Proof.
  destruct (open_resets_backoff
              (EvBind (Some "general") env_tok
               :: closures_trace 0 0 [1006; 1006; 1006]%Z ++ [EvTimer 2 true])
              (mkHook [] false None (Some 3) []
                 [mkSocket 0 (wsUrl "general") CLOSED [];
                  mkSocket 0 (wsUrl "general") CLOSED [];
                  mkSocket 0 (wsUrl "general") CLOSED [];
                  mkSocket 0 (wsUrl "general") CONNECTING []]
                 [mkTimer 0 1000 Fired; mkTimer 0 2000 Fired; mkTimer 0 4000 Fired]
                 [mkClosure "general" "tok" 3 (Some 2)] (Some 0))
              3 (mkSocket 0 (wsUrl "general") CONNECTING []) 1006
              eq_refl eq_refl eq_refl ltac:(repeat split; discriminate))
    as (st' & Hr & Hl & _).
  exists st'. split; [exact Hr|exact Hl].
Defined.

(** * The chat view's use of the hook *)

Lemma count_id_append (k : jsval) (l1 l2 : list json) :
  count_id k (l1 ++ l2) = count_id k l1 + count_id k l2.
Proof. unfold count_id. by rewrite List.filter_app, length_app. Qed.

Lemma count_id_one (k : jsval) (e : json) : count_id k [e] ≤ 1.
Proof.
  unfold count_id. cbn [List.filter].
  destruct (same_value_zero (prop e "id") k); cbn; lia.
Qed.

Lemma count_id_filter_le (k : jsval) (p : json → bool) (l : list json) :
  count_id k (List.filter p l) ≤ count_id k l.
Proof.
  unfold count_id. induction l as [|x l IH]; cbn; [lia|].
  destruct (p x); cbn; destruct (same_value_zero (prop x "id") k); cbn; lia.
Qed.

Lemma set_has_ids (k : jsval) (l : list json) :
  set_has k (map (fun m => prop m "id") l) = true
  ↔ ∃ m, In m l ∧ same_value_zero k (prop m "id") = true.
Proof.
  unfold set_has. rewrite existsb_exists. split.
  - intros (x & Hin & Hx). apply in_map_iff in Hin as (m & <- & Hm). eauto.
  - intros (m & Hm & Hx). exists (prop m "id"). split; [|done].
    apply in_map_iff. eauto.
Qed.

Lemma count_id_pos (k : jsval) (l : list json) :
  0 < count_id k l → set_has k (map (fun m => prop m "id") l) = true.
Proof.
  unfold count_id. intros Hpos.
  destruct (List.filter _ l) as [|m rest] eqn:Hf; [cbn in Hpos; lia|].
  assert (Hin : In m (List.filter (fun e => same_value_zero (prop e "id") k) l))
    by (rewrite Hf; by left).
  apply List.filter_In in Hin as [Hin Hm].
  apply set_has_ids. exists m. split; [done|].
  apply same_value_zero_eq in Hm as Heq. by rewrite <- Heq in Hm |- *.
Qed.


(** The live messages the merge appends. *)
Lemma merge_ws_inv (v : Viewer) (ws prev next : list json) :
  merge_ws v ws prev = Returns next →
  next
  = prev ++ List.filter
              (fun msg => negb (set_has (prop msg "id") (map (fun m => prop m "id") prev)))
              ws.
Proof.
  unfold merge_ws. destruct ws as [|w ws]; [intros [= <-]; by rewrite app_nil_r|].
  destruct (existsb is_null prev || existsb is_null (w :: ws)); [done|].
  destruct (negb (forallb _ (w :: ws))); [done|].
  destruct (List.filter _ (w :: ws)) as [|u us]; [intros [= <-]; by rewrite app_nil_r|].
  destruct (forallb _ (u :: us)); [|done]. by intros [= <-].
Qed.




Lemma new_ids_unique (ws prev : list json) (k : jsval) :
  count_id k prev ≤ 1 → count_id k ws ≤ 1 →
  count_id k
    (prev ++ List.filter
               (fun msg => negb (set_has (prop msg "id") (map (fun m => prop m "id") prev)))
               ws) ≤ 1.
Proof.
  intros Hp Hw. rewrite count_id_append.
  destruct (count_id k prev) as [|n] eqn:Hn.
  - pose proof (count_id_filter_le k
      (fun msg => negb (set_has (prop msg "id") (map (fun m => prop m "id") prev))) ws).
    lia.
  - assert (Hhas : set_has k (map (fun m => prop m "id") prev) = true)
      by (apply count_id_pos; lia).
    rewrite (count_id_zero k); [lia|].
    intros e He. apply List.filter_In in He as [_ He].
    destruct (same_value_zero (prop e "id") k) eqn:E; [|done].
    apply same_value_zero_eq in E. subst k. by rewrite Hhas in He.
Qed.


(** X15: the message state of the chat view never comes to hold an
    identifier twice through the merge.  If the state it merges into has
    none twice (the fetched history, or an earlier merge), then whenever the
    updater returns on the hook's live messages of a reachable state, the
    list it returns has none twice. *)
Theorem merged_list_has_no_duplicates
    (tr : list Event) (st : Hook) (v : Viewer) (prev next : list json) (k : jsval)
    (Hrun : run tr initial = Some st)
    (Hprev : ∀ k', count_id k' prev ≤ 1)
    (Hret : merge_ws v (messages st) prev = Returns next) :
  count_id k next ≤ 1.
Proof.
  rewrite (merge_ws_inv _ _ _ _ Hret).
  apply new_ids_unique; [apply Hprev|].
  apply (dd_once st). by eapply Dedup_reachable.
Qed.

Lemma merged_list_has_no_duplicates_witness :
  merge_ws viewer_ok [envelope_m1] [envelope_m1] = Returns [envelope_m1]
  ∧ count_id (Some (JStr "m1")) [envelope_m1] ≤ 1.
Proof.
  split; [reflexivity|].
  apply (merged_list_has_no_duplicates
           [EvBind (Some "general") env_tok; EvOpen 0; EvMessage 0 (Parsed envelope_m1)]
           (set_messages [envelope_m1]
              (set_processedMessageIds [Some (JStr "m1")] opened))
           viewer_ok [envelope_m1] [envelope_m1] (Some (JStr "m1")) eq_refl).
  - intros k'. apply count_id_one.
  - reflexivity.
Defined.







(** ** Media addresses *)

Lemma prefix_http_nonempty (s : string) : String.prefix "http" s = true → s ≠ "".
Proof. by destruct s. Qed.

(** X18: [getFullMediaUrl] gives the empty string for the empty string
    only, and otherwise an address that starts with "http".  The addresses
    it returns unchanged are the empty one and those that start with "http";
    every other address comes back behind the API host followed by a slash.
    Applying it twice is the same as applying it once. *)
Theorem getFullMediaUrl_absolute (url : string) :
  (getFullMediaUrl url = "" ↔ url = "")
  ∧ (url ≠ "" → String.prefix "http" (getFullMediaUrl url) = true)
  ∧ (getFullMediaUrl url = url ↔ url = "" ∨ String.prefix "http" url = true)
  ∧ (url ≠ "" → String.prefix "http" url = false →
     String.prefix "https://api.loryx.lol/" (getFullMediaUrl url) = true)
  ∧ getFullMediaUrl (getFullMediaUrl url) = getFullMediaUrl url.
Proof.
  assert (Hrel : ∀ u, String.eqb u "" = false → String.prefix "http" u = false →
            String.prefix "https://api.loryx.lol/" (getFullMediaUrl u) = true
            ∧ String.prefix "http" (getFullMediaUrl u) = true).
  { intros u He Hp. unfold getFullMediaUrl. rewrite He, Hp.
    destruct u as [|a u]; [done|]. cbn [String.prefix].
    destruct (Ascii.ascii_dec "/"%char a) as [<-|Hne].
    - by destruct u.
    - split; reflexivity. }
  assert (Habs : ∀ u, String.prefix "http" u = true → getFullMediaUrl u = u).
  { intros u Hp. unfold getFullMediaUrl. rewrite Hp.
    destruct (String.eqb u "") eqn:He; [|done]. by apply String.eqb_eq in He. }
  assert (Hhttp : url ≠ "" → String.prefix "http" (getFullMediaUrl url) = true).
  { intros Hne. apply String.eqb_neq in Hne.
    destruct (String.prefix "http" url) eqn:Hp; [by rewrite Habs|].
    by destruct (Hrel url Hne Hp). }
  split_and!.
  - split; [|by intros ->].
    intros He. destruct (decide (url = "")) as [|Hne]; [done|].
    apply Hhttp in Hne. rewrite He in Hne. done.
  - exact Hhttp.
  - split.
    + intros He. destruct (decide (url = "")) as [|Hne]; [by left|].
      right. rewrite <- He. by apply Hhttp.
    + intros [->|Hp]; [done|by apply Habs].
  - intros Hne Hp. apply String.eqb_neq in Hne. by destruct (Hrel url Hne Hp).
  - destruct (decide (url = "")) as [->|Hne]; [done|].
    by rewrite (Habs _ (Hhttp Hne)).
Qed.

Lemma getFullMediaUrl_absolute_witness :
  String.prefix "https://api.loryx.lol/" (getFullMediaUrl "//cdn.example/a.png") = true.
Proof.
  apply (proj1 (proj2 (proj2 (proj2 (getFullMediaUrl_absolute "//cdn.example/a.png")))));
    [discriminate|reflexivity].
Defined.

(** * The token cookie *)

Lemma append_cons (a : Ascii.ascii) (s t : string) :
  String a s +:+ t = String a (s +:+ t).
Proof. reflexivity. Qed.

Lemma append_empty_r (s : string) : s +:+ "" = s.
Proof. induction s as [|a s IH]; [reflexivity|]. by rewrite append_cons, IH. Qed.

Lemma append_assoc (s1 s2 s3 : string) : (s1 +:+ s2) +:+ s3 = s1 +:+ (s2 +:+ s3).
Proof. induction s1 as [|a s1 IH]; [reflexivity|]. by rewrite !append_cons, IH. Qed.

Lemma prefix_append (p s : string) : String.prefix p (p +:+ s) = true.
Proof.
  induction p as [|a p IH]; [by destruct s|]. rewrite append_cons. cbn.
  destruct (Ascii.ascii_dec a a); [done|congruence].
Qed.

Lemma prefix_other (c a : Ascii.ascii) (p s : string) :
  Ascii.eqb a c = false → String.prefix (String c p) (String a s) = false.
Proof.
  intros Hne. cbn. destruct (Ascii.ascii_dec c a) as [->|]; [|done].
  by rewrite Ascii.eqb_refl in Hne.
Qed.

Lemma split_go_skip (sep p cur s : string) :
  split_go sep (String.length p) cur (p +:+ s) = split_go sep 0 cur s.
Proof. induction p as [|a p IH]; [reflexivity|]. rewrite append_cons. exact IH. Qed.

(** A piece without the separator's first character, then the separator. *)
Lemma split_go_piece (c : Ascii.ascii) (p cur r s : string) :
  has_char c r = false →
  split_go (String c p) 0 cur (r +:+ String c p +:+ s)
  = (cur +:+ r) :: split_go (String c p) 0 "" s.
Proof.
  revert cur. induction r as [|a r IH]; intros cur Hr.
  - change ("" +:+ String c p +:+ s) with (String c (p +:+ s)).
    cbn [split_go]. change (String c (p +:+ s)) with (String c p +:+ s).
    rewrite prefix_append. cbn [String.length]. rewrite Nat.sub_succ, Nat.sub_0_r.
    by rewrite split_go_skip, append_empty_r.
  - cbn in Hr. apply orb_false_iff in Hr as [Ha Hr].
    change (String a r +:+ String c p +:+ s) with (String a (r +:+ String c p +:+ s)).
    cbn [split_go]. rewrite (prefix_other c a) by done.
    rewrite IH by done. by rewrite append_assoc.
Qed.

(** A last piece without the separator's first character. *)
Lemma split_go_last (c : Ascii.ascii) (p cur r : string) :
  has_char c r = false → split_go (String c p) 0 cur r = [cur +:+ r].
Proof.
  revert cur. induction r as [|a r IH]; intros cur Hr.
  - cbn. by rewrite append_empty_r.
  - cbn in Hr. apply orb_false_iff in Hr as [Ha Hr].
    cbn [split_go]. rewrite (prefix_other c a) by done.
    rewrite IH by done. by rewrite append_assoc.
Qed.

Lemma split_rows (rows : list string) (tail : string) :
  Forall (fun r => has_char ";"%char r = false ∧ String.prefix "token=" r = false) rows →
  split "; " (cookie_rows rows +:+ tail) = rows ++ split "; " tail.
Proof.
  unfold split. induction 1 as [|r rows [Hr _] _ IH]; [done|].
  cbn [cookie_rows]. rewrite !append_assoc.
  rewrite (split_go_piece ";"%char " " "" r) by done. cbn. by rewrite IH.
Qed.

Lemma find_skip (rows l : list string) :
  Forall (fun r => has_char ";"%char r = false ∧ String.prefix "token=" r = false) rows →
  List.find (String.prefix "token=") (rows ++ l) = List.find (String.prefix "token=") l.
Proof. induction 1 as [|r rows [_ Hr] _ IH]; [done|]. cbn. by rewrite Hr. Qed.

Lemma has_char_append (c : Ascii.ascii) (s1 s2 : string) :
  has_char c (s1 +:+ s2) = has_char c s1 || has_char c s2.
Proof.
  induction s1 as [|a s1 IH]; [reflexivity|]. rewrite append_cons. cbn.
  by rewrite IH, orb_assoc.
Qed.

(** X19: the token [getToken] takes from [document.cookie] is that of the
    first row whose name is token, whatever rows come before and after, and
    it is cut at the first "=" of the value: a value holding an "=" loses
    that character and what follows.  With no such row there is no token. *)
Theorem tokenFromCookie_first_row
    (before : list string) (v more rest other : string)
    (Hbefore : Forall (fun r => has_char ";"%char r = false
                                ∧ String.prefix "token=" r = false) before)
    (Hv : has_char "="%char v = false)
    (Hrow : has_char ";"%char (v +:+ more) = false)
    (Hmore : more = "" ∨ ∃ v', more = "=" +:+ v')
    (Hrest : rest = "" ∨ ∃ rows, rest = "; " +:+ rows) :
  tokenFromCookie (cookie_rows before +:+ ("token=" +:+ v +:+ more) +:+ rest) = Some v
  ∧ (has_char ";"%char other = false → String.prefix "token=" other = false →
     tokenFromCookie (cookie_rows before +:+ other) = None).
Proof.
  split.
  - unfold tokenFromCookie. rewrite split_rows, find_skip by done.
    assert (Hsplit : ∃ l, split "; " (("token=" +:+ v +:+ more) +:+ rest)
                          = ("token=" +:+ v +:+ more) :: l).
    { unfold split. destruct Hrest as [->|[rows ->]].
      - rewrite append_empty_r. rewrite (split_go_last ";"%char " ").
        + by eexists.
        + change ("token=" +:+ v +:+ more) with ("token=" +:+ (v +:+ more)).
          by rewrite has_char_append, Hrow.
      - rewrite (split_go_piece ";"%char " " "" ("token=" +:+ v +:+ more)).
        + by eexists.
        + change ("token=" +:+ v +:+ more) with ("token=" +:+ (v +:+ more)).
          by rewrite has_char_append, Hrow. }
    destruct Hsplit as [l ->].
    cbn [List.find]. rewrite prefix_append.
    unfold split. change ("token=" +:+ v +:+ more) with ("token" +:+ "=" +:+ (v +:+ more)).
    rewrite (split_go_piece "="%char "" "" "token") by done.
    destruct Hmore as [->|[v' ->]].
    + rewrite append_empty_r, (split_go_last "="%char "") by done. done.
    + rewrite (split_go_piece "="%char "" "" v) by done. done.
  - intros Hr Hp. unfold tokenFromCookie. rewrite split_rows, find_skip by done.
    unfold split. rewrite (split_go_last ";"%char " ") by done.
    change ("" +:+ other) with other. cbn [List.find]. by rewrite Hp.
Qed.

Lemma tokenFromCookie_first_row_witness :
  tokenFromCookie "theme=dark; token=abc=def; token=other" = Some "abc".
Proof.
  exact (proj1 (tokenFromCookie_first_row ["theme=dark"] "abc" "=def" "; token=other" ""
                  ltac:(repeat constructor) eq_refl eq_refl
                  (or_intror (ex_intro _ "def" eq_refl))
                  (or_intror (ex_intro _ "token=other" eq_refl)))).
Defined.
